(** * ScoutMind extension: the agent pipeline, embedded and verified

    The repository holds two implementations of the same pipeline: the
    original JavaScript agents (agents/*.js, llm/llm-bridge.js) and their
    TypeScript port (scout-mind-extension/src/...).  Where both exist and
    both matter, both are embedded here, in modules whose names end in
    [JS] and [TS].

    Conventions of the embedding
    - a JavaScript string is a [string]: a sequence of code units below 256;
    - a JavaScript value is a [JsVal];
    - code that may throw returns a [Result];
    - platform built-ins the code calls ([parseFloat], [new URL], [new Date],
      number formatting) are the fields of a [Platform];
    - collaborators (the language model, the content script, the offscreen
      document) are functions of the call history, so that two calls with
      the same arguments may answer differently. *)

From Stdlib Require Import ZArith Bool Ascii String List Lia.
From stdpp Require Import base option list strings gmap fin_maps.
From Equations Require Import Equations.

Set Warnings "-register-all".

Local Open Scope string_scope.
Local Open Scope list_scope.

(* ===================================================================== *)
(** * JavaScript strings *)
(* ===================================================================== *)

Module JsString.

(** The characters matched by [\s] and removed by [String.prototype.trim],
    among the code units below 256: TAB, LF, VT, FF, CR, SPACE, NBSP. *)
Definition isSpace (c : ascii) : bool :=
  match nat_of_ascii c with
  | 9 | 10 | 11 | 12 | 13 | 32 | 160 => true
  | _ => false
  end.

Definition space : ascii := " "%char.
Definition newline : ascii := ascii_of_nat 10.

Fixpoint trimStart (s : string) : string :=
  match s with
  | EmptyString => EmptyString
  | String c r => if isSpace c then trimStart r else s
  end.

Fixpoint trimEnd (s : string) : string :=
  match s with
  | EmptyString => EmptyString
  | String c r =>
      match trimEnd r with
      | EmptyString => if isSpace c then EmptyString else String c EmptyString
      | r' => String c r'
      end
  end.

(** [s.trim()] *)
Definition trim (s : string) : string := trimEnd (trimStart s).

(** [s.replace(/\s+/g, ' ')]: [inRun] tells that the previous character was
    white space, whose run has already been replaced. *)
Fixpoint collapseFrom (inRun : bool) (s : string) : string :=
  match s with
  | EmptyString => EmptyString
  | String c r =>
      if isSpace c
      then (if inRun then collapseFrom true r
            else String space (collapseFrom true r))
      else String c (collapseFrom false r)
  end.

Definition collapseSpaces (s : string) : string := collapseFrom false s.

(** [s.trim().replace(/\s+/g, ' ')], the first step of every cleaner. *)
Definition normalizeSpaces (s : string) : string := collapseSpaces (trim s).

Definition lowerChar (c : ascii) : ascii :=
  let n := nat_of_ascii c in
  if (65 <=? n)%nat && (n <=? 90)%nat then ascii_of_nat (n + 32) else c.

(** [s.toLowerCase()] on the ASCII letters. *)
Fixpoint toLowerCase (s : string) : string :=
  match s with
  | EmptyString => EmptyString
  | String c r => String (lowerChar c) (toLowerCase r)
  end.

Definition upperChar (c : ascii) : ascii :=
  let n := nat_of_ascii c in
  if (97 <=? n)%nat && (n <=? 122)%nat then ascii_of_nat (n - 32) else c.

Fixpoint toUpperCase (s : string) : string :=
  match s with
  | EmptyString => EmptyString
  | String c r => String (upperChar c) (toUpperCase r)
  end.

(** [s.startsWith(p)] *)
Fixpoint startsWith (p s : string) : bool :=
  match p, s with
  | EmptyString, _ => true
  | String a p', String b s' => Ascii.eqb a b && startsWith p' s'
  | String _ _, EmptyString => false
  end.

(** [s.includes(p)] *)
Fixpoint includes (p s : string) : bool :=
  startsWith p s ||
  match s with
  | EmptyString => false
  | String _ r => includes p r
  end.

Fixpoint last (s : string) : option ascii :=
  match s with
  | EmptyString => None
  | String c EmptyString => Some c
  | String _ r => last r
  end.

(** [s.endsWith(p)] for a one-character [p]. *)
Definition endsWithChar (c : ascii) (s : string) : bool :=
  match last s with
  | Some d => Ascii.eqb c d
  | None => false
  end.

Fixpoint drop (n : nat) (s : string) : string :=
  match n, s with
  | O, _ => s
  | S n', String _ r => drop n' r
  | S _, EmptyString => EmptyString
  end.

Fixpoint take (n : nat) (s : string) : string :=
  match n, s with
  | O, _ => EmptyString
  | S n', String c r => String c (take n' r)
  | S _, EmptyString => EmptyString
  end.

(** [s.substring(a, b)]: the arguments are clamped to the length and
    swapped when [a > b]. *)
Definition substring (a b : nat) (s : string) : string :=
  let n := String.length s in
  let a' := Nat.min a n in
  let b' := Nat.min b n in
  let lo := Nat.min a' b' in
  let hi := Nat.max a' b' in
  take (hi - lo) (drop lo s).

(** [s.split('\n')]; never the empty list. *)
Fixpoint splitLines (s : string) : list string :=
  match s with
  | EmptyString => [EmptyString]
  | String c r =>
      if Ascii.eqb c newline then EmptyString :: splitLines r
      else match splitLines r with
           | l :: ls => String c l :: ls
           | [] => [String c EmptyString]
           end
  end.

(** Truthiness of a string: only the empty string is falsy. *)
Definition nonEmpty (s : string) : bool :=
  match s with
  | EmptyString => false
  | String _ _ => true
  end.

(** [a.join(sep)] *)
Fixpoint join (sep : string) (l : list string) : string :=
  match l with
  | [] => EmptyString
  | [x] => x
  | x :: r => (x ++ sep ++ join sep r)%string
  end.

End JsString.

Example trim_example :
  JsString.normalizeSpaces "  a   b
 c  " = "a b c".
Proof. reflexivity. Qed.

(* ===================================================================== *)
(** * JavaScript values, exceptions and the platform *)
(* ===================================================================== *)

(** A JavaScript number: [Decimal m e] is the double nearest to m * 10^e.
    The agents never compute with numbers; they test [isNaN] and [typeof]
    and convert to a string. *)
Inductive JsNum : Type :=
  | NaN
  | Infinity (negative : bool)
  | Decimal (m e : Z).

Definition isNaN (n : JsNum) : bool :=
  match n with
  | NaN => true
  | _ => false
  end.

(** A JavaScript value.  A [Date] object is represented by what its
    [toISOString()] returns, [None] for an Invalid Date: ECMAScript makes
    [Date.parse(d.toISOString())] the time value of [d], so the rendering
    identifies the date. *)
Inductive JsVal : Type :=
  | VUndefined
  | VNull
  | VBool (b : bool)
  | VNum (n : JsNum)
  | VStr (s : string)
  | VDate (iso : option string)
  | VObj (fields : list (string * JsVal))
  | VArr (items : list JsVal).

(** The outcome of code that may throw; [Throw] carries [error.message]. *)
Inductive Result (A : Type) : Type :=
  | Ok (a : A)
  | Throw (message : string).
Arguments Ok {A} a.
Arguments Throw {A} message.

Definition bindR {A B : Type} (r : Result A) (k : A -> Result B) : Result B :=
  match r with
  | Ok a => k a
  | Throw m => Throw m
  end.

#[global] Instance Result_bind : MBind Result := fun A B k r => bindR r k.
#[global] Instance Result_ret : MRet Result := fun A a => Ok a.

Definition isOk {A : Type} (r : Result A) : bool :=
  match r with
  | Ok _ => true
  | Throw _ => false
  end.

(** What [new URL(...)] exposes to the agents. *)
Record URLRecord : Type := mkURL { href : string; protocol : string }.

(** The built-ins of the JavaScript platform that the agents call. *)
Record Platform : Type := mkPlatform {
  (** [parseFloat(s)] *)
  parseFloat : string -> JsNum;
  (** [String(n)] for a number [n] *)
  Number_toString : JsNum -> string;
  (** [new URL(input, base)]; [base = None] is the one-argument form;
      throws a TypeError when the input cannot be parsed *)
  URL_new : string -> option string -> Result URLRecord;
  (** [new Date(v)], as the [toISOString()] of the result; [None] for an
      Invalid Date *)
  Date_new : JsVal -> option string;
  (** [String(d)] for a Date object [d] *)
  Date_toString : option string -> string
}.

Definition typeof (v : JsVal) : string :=
  match v with
  | VUndefined => "undefined"
  | VBool _ => "boolean"
  | VNum _ => "number"
  | VStr _ => "string"
  | VNull | VDate _ | VObj _ | VArr _ => "object"
  end.

Definition isArray (v : JsVal) : bool :=
  match v with
  | VArr _ => true
  | _ => false
  end.

Definition isNullish (v : JsVal) : bool :=
  match v with
  | VNull | VUndefined => true
  | _ => false
  end.

(** [String(v)], which is also what a template literal inserts.  Objects
    are plain objects, without a [toString] of their own. *)
Fixpoint toStr (P : Platform) (v : JsVal) : string :=
  match v with
  | VUndefined => "undefined"
  | VNull => "null"
  | VBool true => "true"
  | VBool false => "false"
  | VNum n => Number_toString P n
  | VStr s => s
  | VDate d => Date_toString P d
  | VObj _ => "[object Object]"
  | VArr l =>
      JsString.join ","
        (List.map (fun x => match x with
                            | VNull | VUndefined => EmptyString
                            | _ => toStr P x
                            end) l)
  end.

(** [v.length], where the property exists. *)
Definition jsLength (v : JsVal) : option nat :=
  match v with
  | VStr s => Some (String.length s)
  | VArr l => Some (List.length l)
  | _ => None
  end.

(** A string-valued property that may be absent is [option string]; it is
    truthy when present and not empty. *)
Definition truthyStr (o : option string) : bool :=
  match o with
  | Some s => JsString.nonEmpty s
  | None => false
  end.

Definition strIn (s : string) (l : list string) : bool :=
  existsb (String.eqb s) l.

(** The double quote character, for the messages that quote a value. *)
Definition dq : string := String (ascii_of_nat 34) EmptyString.

(* ===================================================================== *)
(** * The Validation Agent (validator-agent.js and validatorAgent.ts) *)
(* ===================================================================== *)

Module Validator.

(** [{ dpId, issue, value?, originalCount? }] *)
Record ValidationIssue : Type := mkIssue {
  dpId : string;
  issue : string;
  value : option JsVal;
  originalCount : option nat
}.

(** A data point of the plan, as the validator reads it. *)
Record DataPoint : Type := mkDataPoint {
  dp_id : string;
  dp_type : string;
  dp_isList : bool;
  dp_extractionNotes : option string
}.

(** The plan, as the validator reads it; [dataPoints = None] stands for a
    plan whose [dataPoints] is missing or not an array. *)
Record Plan : Type := mkPlan {
  dataPoints : option (list DataPoint);
  targetUrl : option string
}.

(** [{ validatedData, validationIssues, success?, error? }]; the JavaScript
    agent returns the first two fields only. *)
Record ValidationResult : Type := mkResult {
  validatedData : gmap string JsVal;
  validationIssues : list ValidationIssue;
  success : option bool;
  error : option string
}.

Definition issueOn (d : string) (msg : string) (v : JsVal) : ValidationIssue :=
  mkIssue d msg (Some v) None.

(** [isValidHttpUrl(string)] *)
Definition isValidHttpUrl (P : Platform) (s : string) : bool :=
  match URL_new P s None with
  | Ok url => String.eqb (protocol url) "http:" || String.eqb (protocol url) "https:"
  | Throw _ => false
  end.

(** The characters of the class in [/[$,€£¥,\s]/g] that a string of code
    units below 256 can hold. *)
Definition isNumericNoise (c : ascii) : bool :=
  JsString.isSpace c ||
  match nat_of_ascii c with
  | 36 | 44 | 163 | 165 => true
  | _ => false
  end.

(** [s.replace(/[$,€£¥,\s]/g, '')] *)
Fixpoint stripNumeric (s : string) : string :=
  match s with
  | EmptyString => EmptyString
  | String c r => if isNumericNoise c then stripNumeric r else String c (stripNumeric r)
  end.

Definition truthyTokens : list string := ["true"; "yes"; "1"; "on"].
Definition falsyTokens : list string := ["false"; "no"; "0"; "off"].

(** The white-space normalisation that opens [cleanAndValidateItem]. *)
Definition normalizeItem (item : JsVal) : JsVal :=
  match item with
  | VStr s => VStr (JsString.normalizeSpaces s)
  | _ => item
  end.

(** [dp.extractionNotes.toLowerCase().includes('optional')] *)
Definition mentionsOptional (notes : string) : bool :=
  JsString.includes "optional" (JsString.toLowerCase notes).

Definition isNotNull (v : JsVal) : bool :=
  match v with
  | VNull => false
  | _ => true
  end.

(** [rawData[dpId]]: [undefined] when the property is absent. *)
Definition getProp (rawData : gmap string JsVal) (k : string) : JsVal :=
  match rawData !! k with
  | Some v => v
  | None => VUndefined
  end.

(** [rawData.hasOwnProperty(dpId) ? rawData[dpId] : (dp.isList ? [] : null)] *)
Definition initialData (rawData : gmap string JsVal) (dp : DataPoint) : JsVal :=
  match rawData !! dp_id dp with
  | Some v => v
  | None => if dp_isList dp then VArr [] else VNull
  end.

(** Step 1 of both agents: reconcile list and single item. *)
Definition reconcileShape (d : string) (isList : bool) (currentData : JsVal)
  : JsVal * list ValidationIssue :=
  if isList && negb (isArray currentData) then
    (if isNullish currentData then VArr [] else VArr [currentData],
     [issueOn d "Type mismatch: Expected list, got single item." currentData])
  else if negb isList && isArray currentData then
    (match currentData with
     | VArr (x :: _) => x
     | _ => VNull
     end,
     [issueOn d "Type mismatch: Expected single item, got list." currentData])
  else (currentData, []).

(* --------------------------------------------------------------------- *)
(** ** validator-agent.js *)
(* --------------------------------------------------------------------- *)

Module JS.

(** [cleanAndValidateItem(item)]: the cleaned item and the issues pushed. *)
Definition cleanAndValidateItem (P : Platform) (planTargetUrl : option string)
    (d expectedType : string) (item : JsVal) : JsVal * list ValidationIssue :=
  if isNullish item then (VNull, []) else
  let cleanedItem := normalizeItem item in
  if String.eqb expectedType "number" then
    match cleanedItem with
    | VStr s =>
        let parsedNum := parseFloat P (stripNumeric s) in
        if negb (isNaN parsedNum) then (VNum parsedNum, [])
        else (cleanedItem,
              [issueOn d ("Type mismatch: Expected number, failed to parse from string "
                          ++ dq ++ toStr P item ++ dq ++ ".") item])
    | VNum _ => (cleanedItem, [])
    | _ => (cleanedItem,
            [issueOn d ("Type mismatch: Expected number, got " ++ typeof cleanedItem ++ ".") item])
    end
  else if String.eqb expectedType "boolean" then
    match cleanedItem with
    | VBool _ => (cleanedItem, [])
    | _ =>
        let lowerItem := JsString.toLowerCase (toStr P cleanedItem) in
        if strIn lowerItem truthyTokens then (VBool true, [])
        else if strIn lowerItem falsyTokens then (VBool false, [])
        else (cleanedItem,
              [issueOn d ("Type mismatch: Expected boolean, got " ++ typeof cleanedItem ++ ".") item])
    end
  else if String.eqb expectedType "url" || String.eqb expectedType "image_url" then
    match cleanedItem with
    | VStr s =>
        if isValidHttpUrl P s then (cleanedItem, [])
        else if truthyStr planTargetUrl then
          match URL_new P s planTargetUrl with
          | Ok url =>
              let absoluteUrl := href url in
              if isValidHttpUrl P absoluteUrl then (VStr absoluteUrl, [])
              else (cleanedItem,
                    [issueOn d ("Invalid URL: Expected valid URL, got "
                                ++ dq ++ toStr P item ++ dq ++ ".") item])
          | Throw _ =>
              (cleanedItem,
               [issueOn d ("Invalid URL: Failed to parse or resolve "
                           ++ dq ++ toStr P item ++ dq ++ ".") item])
          end
        else (cleanedItem,
              [issueOn d ("Type mismatch: Expected valid URL string, got "
                          ++ typeof cleanedItem ++ ".") item])
    | _ => (cleanedItem,
            [issueOn d ("Type mismatch: Expected valid URL string, got "
                        ++ typeof cleanedItem ++ ".") item])
    end
  else if String.eqb expectedType "date" then
    match cleanedItem with
    | VDate _ => (cleanedItem, [])
    | _ =>
        match Date_new P cleanedItem with
        | Some iso => (VStr iso, [])
        | None => (cleanedItem,
                   [issueOn d ("Type mismatch: Expected date, failed to parse from "
                               ++ dq ++ toStr P item ++ dq ++ ".") item])
        end
    end
  else
    match cleanedItem with
    | VStr _ => (cleanedItem, [])
    | _ => (VStr (toStr P cleanedItem),
            [issueOn d ("Type mismatch: Expected string, got "
                        ++ typeof cleanedItem ++ ". Converting.") item])
    end.

(** [currentData.map(cleanAndValidateItem)], with the issues in the order
    in which they are pushed. *)
Fixpoint cleanItems (P : Platform) (planTargetUrl : option string)
    (d expectedType : string) (items : list JsVal) : list JsVal * list ValidationIssue :=
  match items with
  | [] => ([], [])
  | x :: r =>
      let '(x', i1) := cleanAndValidateItem P planTargetUrl d expectedType x in
      let '(r', i2) := cleanItems P planTargetUrl d expectedType r in
      (x' :: r', i1 ++ i2)
  end.

(** [dp.extractionNotes && !dp.extractionNotes.toLowerCase().includes('optional')] *)
Definition notedRequired (dp : DataPoint) : bool :=
  match dp_extractionNotes dp with
  | Some notes => JsString.nonEmpty notes && negb (mentionsOptional notes)
  | None => false
  end.

(** [rawData[dpId]?.length > 0] *)
Definition rawLengthPositive (rawData : gmap string JsVal) (d : string) : bool :=
  match jsLength (getProp rawData d) with
  | Some n => (0 <? n)%nat
  | None => false
  end.

(** One turn of the loop [for (const dp of plan.dataPoints)]: the value
    stored under [dp.id] and the issues pushed meanwhile. *)
Definition validateDataPoint (P : Platform) (rawData : gmap string JsVal)
    (planTargetUrl : option string) (dp : DataPoint) : JsVal * list ValidationIssue :=
  let d := dp_id dp in
  let isList := dp_isList dp in
  let '(currentData, i1) := reconcileShape d isList (initialData rawData dp) in
  match isList, currentData with
  | true, VArr items =>
      let '(cleaned, i2) := cleanItems P planTargetUrl d (dp_type dp) items in
      let kept := List.filter isNotNull cleaned in
      let i3 :=
        if rawLengthPositive rawData d && (List.length kept =? 0)%nat then
          [mkIssue d "List empty after validation/cleaning." None (jsLength (getProp rawData d))]
        else if (List.length kept =? 0)%nat && notedRequired dp then
          [issueOn d "Required list is empty." (VArr [])]
        else [] in
      (VArr kept, i1 ++ i2 ++ i3)
  | true, _ => (currentData, i1)
  | false, _ =>
      let '(cleaned, i2) := cleanAndValidateItem P planTargetUrl d (dp_type dp) currentData in
      let i3 :=
        if negb (isNotNull cleaned) && notedRequired dp then
          [issueOn d "Required item is missing or null." VNull]
        else [] in
      (cleaned, i1 ++ i2 ++ i3)
  end.

(** The loop over the data points, from the state it has reached. *)
Fixpoint validateLoop (P : Platform) (rawData : gmap string JsVal)
    (planTargetUrl : option string) (dps : list DataPoint)
    (acc : gmap string JsVal * list ValidationIssue)
  : gmap string JsVal * list ValidationIssue :=
  match dps with
  | [] => acc
  | dp :: rest =>
      let '(v, i) := validateDataPoint P rawData planTargetUrl dp in
      validateLoop P rawData planTargetUrl rest (<[dp_id dp := v]> (fst acc), snd acc ++ i)
  end.

(** [validateData(rawData, plan)]; [None] is [null] or [undefined]. *)
Definition validateData (P : Platform) (rawData : option (gmap string JsVal))
    (plan : option Plan) : Result ValidationResult :=
  match rawData, plan with
  | Some raw, Some pl =>
      match dataPoints pl with
      | Some dps =>
          let '(data, issues) := validateLoop P raw (targetUrl pl) dps (∅, []) in
          Ok (mkResult data issues None None)
      | None => Throw "ValidatorAgent.validateData: Invalid rawData or plan provided."
      end
  | _, _ => Throw "ValidatorAgent.validateData: Invalid rawData or plan provided."
  end.

End JS.

(* --------------------------------------------------------------------- *)
(** ** validatorAgent.ts *)
(* --------------------------------------------------------------------- *)

Module TS.

Definition isNumberType (t : string) : bool := strIn t ["number"; "integer"].
Definition isUrlType (t : string) : bool := strIn t ["url"; "image_url"; "image"; "link"].
Definition isDateType (t : string) : bool := strIn t ["date"; "datetime"].

(** [cleanAndValidateItem(item)]; it can throw, on the [toISOString()] of an
    Invalid Date. *)
Definition cleanAndValidateItem (P : Platform) (planTargetUrl : option string)
    (d expectedType : string) (item : JsVal) : Result (JsVal * list ValidationIssue) :=
  if isNullish item then Ok (VNull, []) else
  let cleanedItem := normalizeItem item in
  if isNumberType expectedType then
    match cleanedItem with
    | VStr s =>
        let parsedNum := parseFloat P (stripNumeric s) in
        if negb (isNaN parsedNum) then Ok (VNum parsedNum, [])
        else Ok (cleanedItem,
                 [issueOn d ("Type error: Expected number, failed to parse from string "
                             ++ dq ++ toStr P item ++ dq ++ ".") item])
    | VNum _ => Ok (cleanedItem, [])
    | _ => Ok (cleanedItem,
               [issueOn d ("Type error: Expected number, got " ++ typeof cleanedItem ++ ".") item])
    end
  else if String.eqb expectedType "boolean" then
    match cleanedItem with
    | VBool _ => Ok (cleanedItem, [])
    | _ =>
        let lowerItem := JsString.toLowerCase (toStr P cleanedItem) in
        if strIn lowerItem truthyTokens then Ok (VBool true, [])
        else if strIn lowerItem falsyTokens then Ok (VBool false, [])
        else Ok (cleanedItem,
                 [issueOn d ("Type error: Expected boolean, got " ++ typeof cleanedItem ++ ".") item])
    end
  else if isUrlType expectedType then
    match cleanedItem with
    | VStr s =>
        if isValidHttpUrl P s then Ok (cleanedItem, [])
        else if truthyStr planTargetUrl then
          match URL_new P s planTargetUrl with
          | Ok url =>
              let absoluteUrl := href url in
              if isValidHttpUrl P absoluteUrl then Ok (VStr absoluteUrl, [])
              else Ok (cleanedItem,
                       [issueOn d ("Invalid URL: Expected valid URL, got "
                                   ++ dq ++ toStr P item ++ dq ++ ".") item])
          | Throw urlError =>
              Ok (cleanedItem,
                  [issueOn d ("Invalid URL: Failed to parse or resolve "
                              ++ dq ++ toStr P item ++ dq ++ ". Error: " ++ urlError) item])
          end
        else if negb (JsString.startsWith "http" s) then
          Ok (cleanedItem,
              [issueOn d ("Invalid URL: Expected absolute URL, got relative path "
                          ++ dq ++ toStr P item ++ dq ++ " without a base URL.") item])
        else
          Ok (cleanedItem,
              [issueOn d ("Invalid URL: Expected valid URL, got "
                          ++ dq ++ toStr P item ++ dq ++ ".") item])
    | _ => Ok (cleanedItem,
               [issueOn d ("Type error: Expected URL string, got " ++ typeof cleanedItem ++ ".") item])
    end
  else if isDateType expectedType then
    let dateIssue :=
      [issueOn d ("Type error: Expected date or parsable date string, got "
                  ++ dq ++ toStr P item ++ dq ++ ".") item] in
    match cleanedItem with
    | VStr s =>
        match Date_new P (VStr s) with
        | None => Ok (cleanedItem, dateIssue)
        | Some iso => Ok (VStr iso, [])
        end
    | VDate (Some iso) => Ok (VStr iso, [])
    | VDate None => Throw "Invalid time value"
    | _ => Ok (cleanedItem, dateIssue)
    end
  else
    match cleanedItem with
    | VStr _ => Ok (cleanedItem, [])
    | _ => Ok (VStr (toStr P cleanedItem),
               [issueOn d ("Type error: Expected string, got "
                           ++ typeof cleanedItem ++ ". Converting.") item])
    end.

(** [currentData.map(cleanAndValidateItem)] *)
Fixpoint cleanItems (P : Platform) (planTargetUrl : option string)
    (d expectedType : string) (items : list JsVal)
  : Result (list JsVal * list ValidationIssue) :=
  match items with
  | [] => Ok ([], [])
  | x :: r =>
      '(x', i1) ← cleanAndValidateItem P planTargetUrl d expectedType x;
      '(r', i2) ← cleanItems P planTargetUrl d expectedType r;
      Ok (x' :: r', i1 ++ i2)
  end.

(** [!rawData[dpId]?.every(i => i === null || typeof i === 'undefined')];
    a value that is neither nullish nor an array has no [every]. *)
Definition notEveryNullish (rawData : gmap string JsVal) (d : string) : Result bool :=
  match getProp rawData d with
  | VUndefined | VNull => Ok true
  | VArr l => Ok (negb (forallb isNullish l))
  | _ => Throw "rawData[dpId]?.every is not a function"
  end.

(** [dp.extractionNotes?.toLowerCase().includes('optional')], as a truth value *)
Definition isOptional (dp : DataPoint) : bool :=
  match dp_extractionNotes dp with
  | Some notes => mentionsOptional notes
  | None => false
  end.

Definition isEmptyArray (v : JsVal) : bool :=
  match v with
  | VArr [] => true
  | _ => false
  end.

(** One turn of the loop [for (const dp of plan.dataPoints)]. *)
Definition validateDataPoint (P : Platform) (rawData : gmap string JsVal)
    (planTargetUrl : option string) (dp : DataPoint)
  : Result (JsVal * list ValidationIssue) :=
  let d := dp_id dp in
  let expectedType := JsString.toLowerCase (dp_type dp) in
  let isList := dp_isList dp in
  let '(currentData, i1) := reconcileShape d isList (initialData rawData dp) in
  '(current', i2) ←
    match isList, currentData with
    | true, VArr items =>
        let originalLength := List.length items in
        '(cleaned, i2) ← cleanItems P planTargetUrl d expectedType items;
        let kept := List.filter (fun v => negb (isNullish v)) cleaned in
        if (0 <? originalLength)%nat && (List.length kept =? 0)%nat then
          b ← notEveryNullish rawData d;
          if b : bool then
            Ok (VArr kept,
                i2 ++ [mkIssue d "List empty after validation/cleaning." None (Some originalLength)])
          else Ok (VArr kept, i2)
        else Ok (VArr kept, i2)
    | true, _ => Ok (currentData, [])
    | false, _ => cleanAndValidateItem P planTargetUrl d expectedType currentData
    end;
  let i3 :=
    if negb (isOptional dp) &&
       (negb (isNotNull current') || (isList && isEmptyArray current'))
    then [issueOn d "Required item is missing, null, or empty after validation." current']
    else [] in
  Ok (current', i1 ++ i2 ++ i3).

Fixpoint validateLoop (P : Platform) (rawData : gmap string JsVal)
    (planTargetUrl : option string) (dps : list DataPoint)
    (acc : gmap string JsVal * list ValidationIssue)
  : Result (gmap string JsVal * list ValidationIssue) :=
  match dps with
  | [] => Ok acc
  | dp :: rest =>
      '(v, i) ← validateDataPoint P rawData planTargetUrl dp;
      validateLoop P rawData planTargetUrl rest (<[dp_id dp := v]> (fst acc), snd acc ++ i)
  end.

(** [validateData(rawData, plan)].  The first statement logs
    [Object.keys(rawData)] and [plan.extractionGoal], before the guard. *)
Definition validateData (P : Platform) (rawData : option (gmap string JsVal))
    (plan : option Plan) : Result ValidationResult :=
  match rawData with
  | None => Throw "Cannot convert undefined or null to object"
  | Some raw =>
      match plan with
      | None => Throw "Cannot read properties of null (reading 'extractionGoal')"
      | Some pl =>
          match dataPoints pl with
          | None =>
              Ok (mkResult ∅ [] (Some false)
                    (Some "Invalid rawData or plan structure provided."))
          | Some dps =>
              '(data, issues) ← validateLoop P raw (targetUrl pl) dps (∅, []);
              Ok (mkResult data issues (Some (Nat.eqb (List.length issues) 0)) None)
          end
      end
  end.

End TS.

End Validator.

(* ===================================================================== *)
(** * A reference platform *)
(* ===================================================================== *)

(** An executable model of the built-ins, on the inputs the agents meet:
    decimal literals without exponent for [parseFloat], absolute and
    relative http(s) references for [new URL], and the ISO-8601 forms
    [YYYY-MM-DD] and [YYYY-MM-DDTHH:mm:ss.sssZ] for [new Date].  The
    theorems below hold for every platform; this one runs the examples. *)
Module RefPlatform.

Definition isDigit (c : ascii) : bool :=
  let n := nat_of_ascii c in (48 <=? n)%nat && (n <=? 57)%nat.

Definition isAlpha (c : ascii) : bool :=
  let n := nat_of_ascii (JsString.lowerChar c) in (97 <=? n)%nat && (n <=? 122)%nat.

Definition digitVal (c : ascii) : Z := Z.of_nat (nat_of_ascii c - 48).

Definition digitChar (d : Z) : ascii := ascii_of_nat (48 + Z.to_nat d).

(** The leading digits of [s], their value folded into [acc], their number,
    and the rest of [s]. *)
Fixpoint readDigits (s : string) (acc : Z) (count : nat) : Z * nat * string :=
  match s with
  | String c r =>
      if isDigit c then readDigits r (acc * 10 + digitVal c) (S count)
      else (acc, count, s)
  | EmptyString => (acc, count, s)
  end.

(** Drop the zeros that end a fraction: m * 10^-k with k digits. *)
Fixpoint dropZeros (fuel : nat) (m : Z) (k : nat) : Z * nat :=
  match fuel, k with
  | S f, S k' => if (m mod 10 =? 0)%Z then dropZeros f (m / 10) k' else (m, k)
  | _, _ => (m, k)
  end.

Definition parseFloat (s : string) : JsNum :=
  let s0 := JsString.trimStart s in
  let '(neg, s1) :=
    match s0 with
    | String "-"%char r => (true, r)
    | String "+"%char r => (false, r)
    | _ => (false, s0)
    end in
  let '(ip, n1, s2) := readDigits s1 0%Z 0 in
  let '(m, n2, k) :=
    match s2 with
    | String "."%char r =>
        let '(m, n2, _) := readDigits r ip 0 in (m, n2, n2)
    | _ => (ip, 0, 0)
    end in
  if (n1 + n2 =? 0)%nat then NaN
  else
    let '(m', k') := dropZeros k m k in
    Decimal (if neg then (- m')%Z else m') (- Z.of_nat k')%Z.

Fixpoint digitsOf (fuel : nat) (n : Z) (acc : string) : string :=
  match fuel with
  | O => acc
  | S f =>
      let acc' := String (digitChar (n mod 10)) acc in
      if (n / 10 =? 0)%Z then acc' else digitsOf f (n / 10) acc'
  end.

Definition natString (n : Z) : string := digitsOf (S (Z.to_nat (Z.log2 n))) n EmptyString.

Fixpoint zeros (k : nat) : string :=
  match k with
  | O => EmptyString
  | S k' => String "0"%char (zeros k')
  end.

Definition Number_toString (n : JsNum) : string :=
  match n with
  | NaN => "NaN"
  | Infinity false => "Infinity"
  | Infinity true => "-Infinity"
  | Decimal m e =>
      let sign := if (m <? 0)%Z then "-" else EmptyString in
      let a := Z.abs m in
      if (0 <=? e)%Z then (sign ++ natString (a * 10 ^ e))%string
      else
        let k := Z.to_nat (- e) in
        let ds := natString a in
        let ds' := (zeros (S k - String.length ds) ++ ds)%string in
        let n := String.length ds' in
        (sign ++ JsString.take (n - k) ds' ++ "." ++ JsString.drop (n - k) ds')%string
  end.

(** White space has no place in a URL: TAB, LF and CR are removed, the
    other characters percent-encoded. *)
Definition encodeSpace (c : ascii) : string :=
  match nat_of_ascii c with
  | 9 | 10 | 13 => EmptyString
  | 11 => "%0B"
  | 12 => "%0C"
  | 32 => "%20"
  | 160 => "%C2%A0"
  | _ => String c EmptyString
  end.

Fixpoint encodeSpaces (s : string) : string :=
  match s with
  | EmptyString => EmptyString
  | String c r => (encodeSpace c ++ encodeSpaces r)%string
  end.

Definition isSchemeChar (c : ascii) : bool :=
  isAlpha c || isDigit c || strIn (String c EmptyString) ["+"; "-"; "."].

(** [splitWhile p s]: the longest prefix of [s] whose characters satisfy
    [p], and the rest. *)
Fixpoint splitWhile (p : ascii -> bool) (s : string) : string * string :=
  match s with
  | String c r =>
      if p c then let '(a, b) := splitWhile p r in (String c a, b)
      else (EmptyString, s)
  | EmptyString => (EmptyString, EmptyString)
  end.

(** The scheme of an absolute reference, in lower case, and what follows
    the colon. *)
Definition readScheme (s : string) : option (string * string) :=
  match s with
  | String c _ =>
      if isAlpha c then
        match splitWhile isSchemeChar s with
        | (sch, String ":"%char rest) => Some (JsString.toLowerCase sch, rest)
        | _ => None
        end
      else None
  | EmptyString => None
  end.

Definition isSlash (c : ascii) : bool := strIn (String c EmptyString) ["/"; "\"].
Definition isHostChar (c : ascii) : bool :=
  negb (strIn (String c EmptyString) ["/"; "\"; "?"; "#"]).
Definition isPathChar (c : ascii) : bool :=
  negb (strIn (String c EmptyString) ["?"; "#"]).

Definition isHttp (sch : string) : bool := strIn sch ["http"; "https"].

(** An absolute http(s) reference: scheme, host, path with query and
    fragment. *)
Definition readHttp (s : string) : option (string * string * string) :=
  match readScheme s with
  | Some (sch, rest) =>
      if isHttp sch then
        let '(_, afterSlashes) := splitWhile isSlash rest in
        let '(host, tail) := splitWhile isHostChar afterSlashes in
        if JsString.nonEmpty host && negb (existsb JsString.isSpace (list_ascii_of_string host))
        then Some (sch, JsString.toLowerCase host,
                   match tail with
                   | String "/"%char _ => tail
                   | _ => ("/" ++ tail)%string
                   end)
        else None
      else None
  | None => None
  end.

(** The path up to and with its last slash. *)
Fixpoint directory (path : string) : string :=
  match path with
  | EmptyString => EmptyString
  | String c r =>
      if JsString.includes "/" r then String c (directory r)
      else if Ascii.eqb c "/"%char then "/" else EmptyString
  end.

Definition mkHttp (sch host tail : string) : URLRecord :=
  mkURL (encodeSpaces (sch ++ "://" ++ host ++ tail)%string) (sch ++ ":")%string.

Definition URL_new (input : string) (base : option string) : Result URLRecord :=
  let input := JsString.trim input in
  match readScheme input with
  | Some (sch, rest) =>
      if isHttp sch then
        match readHttp input with
        | Some (sch, host, tail) => Ok (mkHttp sch host tail)
        | None => Throw "Invalid URL"
        end
      else Ok (mkURL (encodeSpaces (sch ++ ":" ++ rest)%string) (sch ++ ":")%string)
  | None =>
      match base with
      | None => Throw "Invalid URL"
      | Some b =>
          match readHttp (JsString.trim b) with
          | Some (sch, host, tail) =>
              let '(path, _) := splitWhile isPathChar tail in
              if JsString.startsWith "//" input then
                match readHttp (sch ++ ":" ++ input)%string with
                | Some (sch', host', tail') => Ok (mkHttp sch' host' tail')
                | None => Throw "Invalid URL"
                end
              else if JsString.startsWith "/" input then Ok (mkHttp sch host input)
              else if JsString.nonEmpty input
                   && negb (JsString.startsWith "?" input)
                   && negb (JsString.startsWith "#" input)
              then Ok (mkHttp sch host (directory path ++ input)%string)
              else Ok (mkHttp sch host (path ++ input)%string)
          | None => Throw "Invalid URL"
          end
      end
  end.

(** The shape [YYYY-MM-DDTHH:mm:ss.sssZ]: ['9'] stands for a digit. *)
Fixpoint hasShape (shape s : string) : bool :=
  match shape, s with
  | EmptyString, EmptyString => true
  | String p shape', String c s' =>
      (if Ascii.eqb p "9"%char then isDigit c else Ascii.eqb p c) && hasShape shape' s'
  | _, _ => false
  end.

Definition isoShape : string := "9999-99-99T99:99:99.999Z".
Definition dayShape : string := "9999-99-99".

Definition Date_new (v : JsVal) : option string :=
  match v with
  | VStr s =>
      if hasShape isoShape s then Some s
      else if hasShape dayShape s then Some (s ++ "T00:00:00.000Z")%string
      else None
  | VDate d => d
  | _ => None
  end.

Definition Date_toString (d : option string) : string :=
  match d with
  | Some iso => iso
  | None => "Invalid Date"
  end.

Definition platform : Platform :=
  mkPlatform parseFloat Number_toString URL_new Date_new Date_toString.

End RefPlatform.

Example parseFloat_price :
  RefPlatform.parseFloat (Validator.stripNumeric "$1,234.56") = Decimal 123456 (-2).
Proof. reflexivity. Qed.

Example Number_toString_price :
  RefPlatform.Number_toString (Decimal 123456 (-2)) = "1234.56".
Proof. reflexivity. Qed.

Example URL_new_root_relative :
  RefPlatform.URL_new "/a/b" (Some "https://x.com")
  = Ok (mkURL "https://x.com/a/b" "https:").
Proof. reflexivity. Qed.

Example URL_new_relative_alone : RefPlatform.URL_new "/a/b" None = Throw "Invalid URL".
Proof. reflexivity. Qed.

Example URL_new_sibling :
  RefPlatform.URL_new "c.png" (Some "https://x.com/a/b?q=1")
  = Ok (mkURL "https://x.com/a/c.png" "https:").
Proof. reflexivity. Qed.

(* ===================================================================== *)
(** * The Model Gateway (llmBridge.ts) *)
(* ===================================================================== *)

Module LLM.

(** [GenericLLMResponse]; the usage metrics are kept out. *)
Record Response : Type := mkResponse {
  text : option string;
  error : option string;
  model : option string;
  provider : option string
}.

(** [GenericQueryOptions] *)
Record QueryOptions : Type := mkOptions {
  opt_provider : option string;
  opt_fallbackProvider : option string;
  opt_model : option string;
  opt_systemPrompt : option string;
  opt_temperature : option JsNum;
  opt_maxTokens : option nat
}.

Definition noOptions : QueryOptions := mkOptions None None None None None None.

(** One call of some provider's [query(prompt, options)], filed under the
    key it is registered with. *)
Record ProviderCall : Type := mkCall {
  call_providerId : string;
  call_prompt : string;
  call_options : QueryOptions
}.

(** What a provider's [query] does, given the calls made so far: it
    resolves to a response ([Ok (Some r)]), resolves to [null] or
    [undefined] ([Ok None]), or rejects ([Throw]). *)
Definition Providers : Type :=
  list ProviderCall -> ProviderCall -> Result (option Response).

(** The fields of [LLMBridge] that [query] reads: the keys of the
    [providers] map in registration order, [defaultProviderId] and
    [config.llmProvider]. *)
Record Bridge : Type := mkBridge {
  providerIds : list string;
  defaultProviderId : option string;
  config_llmProvider : option string
}.

Definition externalNames : list string := ["openai"; "mistral"; "anthropic"].

(** [options.provider || this.defaultProviderId] *)
Definition requestedProvider (b : Bridge) (options : QueryOptions) : option string :=
  if truthyStr (opt_provider options) then opt_provider options else defaultProviderId b.

(** The routing of the external provider names to the one [external]
    connector, which rewrites [targetProviderId] and may write
    [options.provider]. *)
Definition routesToExternal (b : Bridge) (requested : option string) : bool :=
  match requested with
  | Some p => JsString.nonEmpty p && strIn p externalNames && strIn "external" (providerIds b)
  | None => false
  end.

Definition targetProviderId (b : Bridge) (options : QueryOptions) : option string :=
  let requested := requestedProvider b options in
  if routesToExternal b requested then Some "external" else requested.

Definition routedOptions (b : Bridge) (options : QueryOptions) : QueryOptions :=
  if routesToExternal b (requestedProvider b options) && negb (truthyStr (opt_provider options))
  then mkOptions (config_llmProvider b) (opt_fallbackProvider options) (opt_model options)
         (opt_systemPrompt options) (opt_temperature options) (opt_maxTokens options)
  else options.

(** [{ ...options, provider: options.fallbackProvider, fallbackProvider: undefined }] *)
Definition fallbackOptions (options : QueryOptions) : QueryOptions :=
  mkOptions (opt_fallbackProvider options) None (opt_model options)
    (opt_systemPrompt options) (opt_temperature options) (opt_maxTokens options).

Definition withProvider (r : Response) (p : string) : Response :=
  mkResponse (text r) (error r) (model r) (Some p).

Definition errorResponse (msg : string) (p : option string) : Response :=
  mkResponse (Some EmptyString) (Some msg) None p.

(** Does the [catch] block retry?  [options.fallbackProvider &&
    options.fallbackProvider !== targetProviderId] *)
Definition retries (options : QueryOptions) (target : string) : bool :=
  match opt_fallbackProvider options with
  | Some f => JsString.nonEmpty f && negb (String.eqb f target)
  | None => false
  end.

(** What the [try] block makes of the provider's answer: the response to
    return, or the message of the exception caught.  Reading
    [response.text] of [null] or [undefined] throws. *)
Definition answered (outcome : Result (option Response)) : Result Response :=
  match outcome with
  | Ok (Some r) => Ok r
  | Ok None => Throw "Cannot read properties of undefined (reading 'text')"
  | Throw m => Throw m
  end.

(** [error.message || 'Unknown error'] *)
Definition messageOr (m : string) : string :=
  if JsString.nonEmpty m then m else "Unknown error".

(** A value, with the equation that it is what was inspected. *)
Definition inspect {A : Type} (x : A) : {y : A | x = y} := exist _ x eq_refl.

(** The recursion of [query] is on the fallback: a retry has none. *)
Definition fallbackBudget (options : QueryOptions) : nat :=
  if truthyStr (opt_fallbackProvider options) then 1 else 0.

(** [query(prompt, options)]: the response returned and the provider calls
    made, in order, after the calls [history]. *)
Equations? query (b : Bridge) (env : Providers) (prompt : string)
    (options : QueryOptions) (history : list ProviderCall)
  : Response * list ProviderCall by wf (fallbackBudget options) lt :=
  query b env prompt options history with targetProviderId b options := {
    | None => (errorResponse "No LLM provider available for query." None, [])
    | Some target with JsString.nonEmpty target := {
        | false => (errorResponse "No LLM provider available for query." None, [])
        | true with strIn target (providerIds b) := {
            | false =>
                (errorResponse ("LLM provider '" ++ target ++ "' not found. Available: "
                                ++ JsString.join ", " (providerIds b)) None, [])
            | true with answered (env history (mkCall target prompt (routedOptions b options))) := {
                | Ok response =>
                    (withProvider response target,
                     [mkCall target prompt (routedOptions b options)])
                | Throw m with inspect (retries (routedOptions b options) target) := {
                    | exist _ true _ =>
                        let call := mkCall target prompt (routedOptions b options) in
                        let '(r, calls) :=
                          query b env prompt (fallbackOptions (routedOptions b options))
                            (history ++ [call]) in
                        (r, call :: calls)
                    | exist _ false _ =>
                        (errorResponse
                           ("Error querying provider " ++ target ++ ": " ++ messageOr m)
                           (Some target),
                         [mkCall target prompt (routedOptions b options)])
                  }
              }
          }
      }
  }.
Proof.
  assert (Hsame : opt_fallbackProvider (routedOptions b options)
                  = opt_fallbackProvider options).
  { unfold routedOptions. destruct (_ && _); reflexivity. }
  match goal with H : retries _ _ = true |- _ => unfold retries in H; rename H into Hretry end.
  unfold fallbackBudget, truthyStr, fallbackOptions; simpl.
  rewrite <- Hsame.
  destruct (opt_fallbackProvider (routedOptions b options)) as [f|]; [|discriminate].
  destruct (JsString.nonEmpty f); [lia|discriminate].
Qed.

End LLM.

(* ===================================================================== *)
(** * The Plan Agent (planner-agent.js and plannerAgent.ts) *)
(* ===================================================================== *)

(** Both files parse the model's answer in the same way; the embedding
    keeps the fields of the plan that come from sections of the answer
    ([Key Fields:], [Target Elements:], [Extraction Strategy:],
    [Potential Challenges:]) and leaves out the one-line fields, the schema
    and the metadata, which neither read nor change them. *)
Module Planner.

(** [{ name, type }] *)
Record FieldDefinition : Type := mkField { name : string; type : string }.

Record ExtractionPlan : Type := mkPlan {
  success : bool;
  error : option string;
  keyFields : list FieldDefinition;
  targetElements : list string;
  extractionStrategy : option string;
  potentialChallenges : list string
}.

(** Does [s] start with [header], whatever the case of its letters?
    [header] is given in lower case. *)
Definition startsWithCI (header s : string) : bool :=
  JsString.startsWith header (JsString.toLowerCase (JsString.take (String.length header) s)).

(** The text after the first occurrence of [header] in [s], as the flag
    [i] of the regular expressions finds it. *)
Fixpoint afterHeader (header s : string) : option string :=
  if startsWithCI header s then Some (JsString.drop (String.length header) s)
  else match s with
       | EmptyString => None
       | String _ r => afterHeader header r
       end.

(** [:?\s*] *)
Definition skipColonSpaces (s : string) : string :=
  JsString.trimStart (match s with
                      | String ":"%char r => r
                      | _ => s
                      end).

(** [([\s\S]*?)(?=stop1|stop2|...|$)]: the shortest text up to a stop or
    the end. *)
Fixpoint upToStop (stops : list string) (s : string) : string :=
  if existsb (fun h => startsWithCI h s) stops then EmptyString
  else match s with
       | EmptyString => EmptyString
       | String c r => String c (upToStop stops r)
       end.

(** [responseText.match(/Header:?\s*([\s\S]*?)(?=stops|$)/i)], its group 1 *)
Definition sectionOf (header : string) (stops : list string) (responseText : string)
  : option string :=
  match afterHeader header responseText with
  | Some rest => Some (upToStop stops (skipColonSpaces rest))
  | None => None
  end.

(** [line.trim().replace(/^-\s*/, '')] *)
Definition stripBullet (line : string) : string :=
  match JsString.trim line with
  | String "-"%char r => JsString.trimStart r
  | t => t
  end.

Definition isNameChar (c : ascii) : bool :=
  negb (strIn (String c EmptyString) [":"; "["; "]"]).

Definition isNotClosing (c : ascii) : bool := negb (Ascii.eqb c "]"%char).

Fixpoint dropWhile (p : ascii -> bool) (s : string) : string :=
  match s with
  | String c r => if p c then dropWhile p r else s
  | EmptyString => EmptyString
  end.

(** [field.match(/([^:[\]]+)(?:\s*\[([^\]]+)\])?/)]: groups 1 and 2.  The
    match starts at the first character outside [:[]]; group 1 runs as far
    as it can, so the optional part can only start with the bracket. *)
Definition typeMatch (field : string) : option (string * option string) :=
  match dropWhile (fun c => negb (isNameChar c)) field with
  | EmptyString => None
  | start =>
      let '(g1, rest) := RefPlatform.splitWhile isNameChar start in
      let g2 :=
        match rest with
        | String "["%char r =>
            match RefPlatform.splitWhile isNotClosing r with
            | (inner, String "]"%char _) =>
                if JsString.nonEmpty inner then Some inner else None
            | _ => None
            end
        | _ => None
        end in
      Some (g1, g2)
  end.

(** The function mapped over the lines of the [Key Fields:] section. *)
Definition parseFieldLine (line : string) : FieldDefinition :=
  let field := stripBullet line in
  match typeMatch field with
  | Some (g1, g2) =>
      mkField (JsString.trim g1)
        (match g2 with
         | Some t => JsString.toLowerCase (JsString.trim t)
         | None => "string"
         end)
  | None => mkField field "string"
  end.

Definition parseKeyFields (section : string) : list FieldDefinition :=
  List.filter (fun f => JsString.nonEmpty (name f))
    (List.map parseFieldLine (JsString.splitLines (JsString.trim section))).

(** [section.trim().split('\n').map(line => line.trim().replace(/^-\s*/, '')).filter(Boolean)] *)
Definition parseBullets (section : string) : list string :=
  List.filter JsString.nonEmpty
    (List.map stripBullet (JsString.splitLines (JsString.trim section))).

Definition orEmpty {A : Type} (f : string -> list A) (o : option string) : list A :=
  match o with
  | Some s => f s
  | None => []
  end.

(** [parseExtractionPlan(responseText)].  On a string no statement of its
    [try] block throws (the one call that can, [JSON.parse], has a [try]
    of its own), so the plan always has [success: true]. *)
Definition parseExtractionPlan (responseText : string) : ExtractionPlan :=
  mkPlan true None
    (orEmpty parseKeyFields
       (sectionOf "key fields"
          ["target elements:"; "extraction strategy:"; "potential challenges:"] responseText))
    (orEmpty parseBullets
       (sectionOf "target elements"
          ["extraction strategy:"; "potential challenges:"] responseText))
    (option_map JsString.trim
       (sectionOf "extraction strategy" ["potential challenges:"] responseText))
    (orEmpty parseBullets (sectionOf "potential challenges" [] responseText)).

Definition failedPlan (msg : string) : ExtractionPlan :=
  mkPlan false (Some msg) [] [] None [].

(** [createExtractionPlan], as a function of what the statements of its
    [try] block up to [await this.llmBridge.query(...)] produce.
    planner-agent.js tests [!llmResponse || !llmResponse.text]. *)
Definition createExtractionPlanJS (llmResponse : Result (option LLM.Response))
  : ExtractionPlan :=
  match llmResponse with
  | Throw m => failedPlan m
  | Ok None => failedPlan "Failed to get valid response from LLM"
  | Ok (Some r) =>
      match LLM.text r with
      | Some t =>
          if JsString.nonEmpty t then parseExtractionPlan t
          else failedPlan "Failed to get valid response from LLM"
      | None => failedPlan "Failed to get valid response from LLM"
      end
  end.

(** plannerAgent.ts tests [llmResponse.error || !llmResponse.text] and throws
    [llmResponse.error || 'Failed to ...']. *)
Definition createExtractionPlanTS (llmResponse : Result (option LLM.Response))
  : ExtractionPlan :=
  match llmResponse with
  | Throw m => failedPlan m
  | Ok None => failedPlan "Cannot read properties of undefined (reading 'error')"
  | Ok (Some r) =>
      if truthyStr (LLM.error r) then failedPlan (default EmptyString (LLM.error r))
      else
        match LLM.text r with
        | Some t =>
            if JsString.nonEmpty t then parseExtractionPlan t
            else failedPlan "Failed to get valid response from LLM for plan creation"
        | None => failedPlan "Failed to get valid response from LLM for plan creation"
        end
  end.

End Planner.

Definition plannerTestAnswer : string := "
      Extraction Goal: Extract title and first paragraph.
      Data Structure: object
      Key Fields:
        - title [string] : The main title of the page
        - firstParagraph [string] : The first paragraph text
      Target Elements: H1, P
      Extraction Strategy: Direct text extraction
      Potential Challenges: None foreseen for this simple example.
    ".

(** The answer of the first test of plannerAgent.test.ts. *)
Example parseExtractionPlan_test :
  Planner.parseExtractionPlan plannerTestAnswer
  = Planner.mkPlan true None
      [Planner.mkField "title" "string"; Planner.mkField "firstParagraph" "string"]
      ["H1, P"] (Some "Direct text extraction")
      ["None foreseen for this simple example."].
Proof. vm_compute. reflexivity. Qed.

(* ===================================================================== *)
(** * The Recovery Agent (error-recovery-agent.js, errorRecoveryAgent.ts) *)
(* ===================================================================== *)

(** The loop of [attemptRecovery] and [testSelector] are the same in both
    files; the TypeScript one also records [strategyUsed]. *)
Module ErrorRecovery.

(** The answer of the content script to [{ action: 'testSelector' }]. *)
Record TestResponse : Type := mkTestResponse {
  tr_success : option bool;
  tr_count : option Z
}.

(** One live test: the selector sent and what came back. *)
Record LiveTest : Type := mkLiveTest {
  lt_selector : string;
  lt_outcome : Result (option TestResponse)
}.

(** The content script behind [sendMessageToContentScript(tabId, ...)]:
    its answer may depend on the tests made so far. *)
Definition ContentScript : Type := list LiveTest -> string -> Result (option TestResponse).

(** [response?.success === true && response?.count > 0] *)
Definition matchesSome (response : option TestResponse) : bool :=
  match response with
  | Some r =>
      match tr_success r, tr_count r with
      | Some true, Some c => (0 <? c)%Z
      | _, _ => false
      end
  | None => false
  end.

(** The verdict of [testSelector] on what the content script answered. *)
Definition verdict (outcome : Result (option TestResponse)) : bool :=
  match outcome with
  | Ok response => matchesSome response
  | Throw _ => false
  end.

(** [testSelector(selector, tabId)]: the verdict and the test it made. *)
Definition testSelector (page : ContentScript) (log : list LiveTest) (selector : string)
  : bool * LiveTest :=
  let outcome := page log selector in
  (verdict outcome, mkLiveTest selector outcome).

(** [{ recoverySuccessful, alternativeSelectors, strategyUsed? }] *)
Record RecoveryAttemptResult : Type := mkRecovery {
  recoverySuccessful : bool;
  alternativeSelectors : list string;
  strategyUsed : option string
}.

(** A fallback strategy, applied to the data point, the failed selector,
    the error message and the truncated HTML: it proposes alternatives
    (possibly [null]) or throws.  It may look at the tests made so far. *)
Record Strategy : Type := mkStrategy {
  strategy_name : string;
  propose : list LiveTest -> Result (option (list string))
}.

(** The loop [for (const altSelector of alternatives)], from the state
    [(recoverySuccessful, alternativeSelectors, log)]. *)
Fixpoint testAlternatives (page : ContentScript) (alternatives : list string)
    (st : bool * list string * list LiveTest) : bool * list string * list LiveTest :=
  match alternatives with
  | [] => st
  | altSelector :: rest =>
      let '(ok, found, log) := st in
      let '(v, t) := testSelector page log altSelector in
      testAlternatives page rest
        (if v then (true, if strIn altSelector found then found else found ++ [altSelector], log ++ [t])
         else (ok, found, log ++ [t]))
  end.

(** The loop [for (const strategy of this.fallbackStrategies)]; it is
    entered with [recoverySuccessful = false] and leaves at the first
    strategy after which it is [true]. *)
Fixpoint tryStrategies (page : ContentScript) (strategies : list Strategy)
    (found : list string) (log : list LiveTest) : RecoveryAttemptResult * list LiveTest :=
  match strategies with
  | [] => (mkRecovery false found None, log)
  | strategy :: rest =>
      match propose strategy log with
      | Ok (Some (a :: alternatives)) =>
          let '(ok, found', log') :=
            testAlternatives page (a :: alternatives) (false, found, log) in
          if ok then (mkRecovery true found' (Some (strategy_name strategy)), log')
          else tryStrategies page rest found' log'
      | Ok _ => tryStrategies page rest found log
      | Throw _ => tryStrategies page rest found log
      end
  end.

(** [attemptRecovery(dataPoint, failedSelector, errorMessage, htmlSample,
    tabId)]: the result and the live tests made. *)
Definition attemptRecovery (page : ContentScript) (fallbackStrategies : list Strategy)
  : RecoveryAttemptResult * list LiveTest :=
  tryStrategies page fallbackStrategies [] [].

End ErrorRecovery.

(* ===================================================================== *)
(** * The Selector Agent: convertSelector *)
(* ===================================================================== *)

Module Selector.

Definition backtick : string := "`".
Definition quote : string := "'".

(** [{ success, error?, originalSelector, convertedSelector, originalType,
    targetType }]; selector-agent.js returns [{ success: false, error }]
    alone on failure. *)
Record SelectorConversionResult : Type := mkConversion {
  success : bool;
  error : option string;
  originalSelector : option string;
  convertedSelector : option string;
  originalType : option string;
  targetType : option string
}.

(** The model behind [this.llmBridge.query(prompt, options)]. *)
Definition Model : Type := string -> LLM.QueryOptions -> Result (option LLM.Response).

(** One query of the model. *)
Record ModelCall : Type := mkModelCall {
  mc_prompt : string;
  mc_options : LLM.QueryOptions
}.

Definition newlineStr : string := String JsString.newline EmptyString.

Module TS.

(** [selector.startsWith('/') || selector.startsWith('./') ||
    selector.startsWith('(') ? 'xpath' : 'css'] *)
Definition originalTypeOf (selector : string) : string :=
  if JsString.startsWith "/" selector || JsString.startsWith "./" selector
     || JsString.startsWith "(" selector
  then "xpath" else "css".

Definition startsAndEndsWith (q : string) (s : string) : bool :=
  match q with
  | String c EmptyString => JsString.startsWith q s && JsString.endsWithChar c s
  | _ => false
  end.

(** The cleaning of the reply: one pair of surrounding backticks or quotes
    is removed. *)
Definition stripQuotes (reply : string) : string :=
  let converted := JsString.trim reply in
  if startsAndEndsWith backtick converted || startsAndEndsWith quote converted
     || startsAndEndsWith dq converted
  then JsString.substring 1 (String.length converted - 1) converted
  else converted.

Definition conversionPrompt (selector originalType targetType : string) : string :=
  ("Please convert the following " ++ JsString.toUpperCase originalType
   ++ " selector to " ++ JsString.toUpperCase targetType ++ ":" ++ newlineStr
   ++ backtick ++ selector ++ backtick ++ newlineStr
   ++ "Only respond with the converted selector string, nothing else.")%string.

Definition conversionOptions (systemPrompt : string) : LLM.QueryOptions :=
  LLM.mkOptions None None None (Some systemPrompt) (Some (Decimal 0 0)) (Some 256).

(** [convertSelector(selector, targetType)]: the result and the queries
    made to the model.  [systemPrompt] is [getSystemPrompt('SELECTOR')]. *)
Definition convertSelector (llm : Model) (systemPrompt : string)
    (selector targetType : string) : SelectorConversionResult * list ModelCall :=
  let originalType := originalTypeOf selector in
  if String.eqb originalType targetType then
    (mkConversion true None (Some selector) (Some selector)
       (Some originalType) (Some targetType), [])
  else
    let prompt := conversionPrompt selector originalType targetType in
    let options := conversionOptions systemPrompt in
    let failure (msg : string) :=
      mkConversion false (Some msg) (Some selector) None
        (Some originalType) (Some targetType) in
    (match llm prompt options with
     | Throw m => failure m
     | Ok None => failure "Cannot read properties of undefined (reading 'error')"
     | Ok (Some r) =>
         if truthyStr (LLM.error r) then failure (default EmptyString (LLM.error r))
         else
           match LLM.text r with
           | Some t =>
               if JsString.nonEmpty t then
                 mkConversion true None (Some selector) (Some (stripQuotes t))
                   (Some originalType) (Some targetType)
               else failure "Failed to get valid response from LLM for selector conversion"
           | None => failure "Failed to get valid response from LLM for selector conversion"
           end
     end,
     [mkModelCall prompt options]).

End TS.

Module JS.

(** [selector.startsWith('/') ? 'xpath' : 'css'] *)
Definition originalTypeOf (selector : string) : string :=
  if JsString.startsWith "/" selector then "xpath" else "css".

Definition isQuote (c : ascii) : bool :=
  strIn (String c EmptyString) [backtick; dq; quote].

(** The first [replace] of the reply: everything up to the first backtick
    or quote goes, with it; nothing goes when there is none. *)
Fixpoint afterFirstQuote (s : string) : option string :=
  match s with
  | EmptyString => None
  | String c r => if isQuote c then Some r else afterFirstQuote r
  end.

(** The second [replace]: everything from the first backtick or quote left
    goes. *)
Fixpoint beforeFirstQuote (s : string) : string :=
  match s with
  | EmptyString => EmptyString
  | String c r => if isQuote c then EmptyString else String c (beforeFirstQuote r)
  end.

Definition cleanReply (reply : string) : string :=
  let t := JsString.trim reply in
  beforeFirstQuote (default t (afterFirstQuote t)).

Definition conversionPrompt (selector targetType : string) : string :=
  ("Please convert the following "
   ++ (if JsString.startsWith "/" selector then "XPath" else "CSS")
   ++ " selector to " ++ JsString.toUpperCase targetType ++ ":" ++ newlineStr
   ++ backtick ++ selector ++ backtick ++ newlineStr ++ newlineStr
   ++ "Only respond with the converted selector, nothing else.")%string.

Definition conversionOptions (systemPrompt : string) : LLM.QueryOptions :=
  LLM.mkOptions None None None (Some systemPrompt) (Some (Decimal 1 (-1))) (Some 256).

(** [convertSelector(selector, targetType)] of selector-agent.js: the model
    is always asked. *)
Definition convertSelector (llm : Model) (systemPrompt : string)
    (selector targetType : string) : SelectorConversionResult * list ModelCall :=
  let prompt := conversionPrompt selector targetType in
  let options := conversionOptions systemPrompt in
  let failure (msg : string) := mkConversion false (Some msg) None None None None in
  (match llm prompt options with
   | Throw m => failure m
   | Ok (Some r) =>
       match LLM.text r with
       | Some t =>
           if JsString.nonEmpty t then
             mkConversion true None (Some selector) (Some (cleanReply t))
               (Some (originalTypeOf selector)) (Some targetType)
           else failure "Failed to get valid response from LLM for selector conversion"
       | None => failure "Failed to get valid response from LLM for selector conversion"
       end
   | Ok None => failure "Failed to get valid response from LLM for selector conversion"
   end,
   [mkModelCall prompt options]).

End JS.

End Selector.

(* ===================================================================== *)
(** * The Orchestrator (orchestrator.js and orchestrator.ts) *)
(* ===================================================================== *)

Module Orchestrator.

(** An entry of [issues].  The entries are objects of several shapes:
    extraction errors [{ dpId, selector, error }], validation issues
    [{ dpId, issue, value?, originalCount? }], and the entry of the
    top-level [catch]; a field that an entry does not have is [None]. *)
Record Issue : Type := mkIssue {
  type : option string;
  dpId : option string;
  issue : option string;
  error : option string;
  selector : option string;
  value : option JsVal;
  originalCount : option nat
}.

(** A validation issue, as it stands in [issues]. *)
Definition ofValidation (v : Validator.ValidationIssue) : Issue :=
  mkIssue None (Some (Validator.dpId v)) (Some (Validator.issue v)) None None
    (Validator.value v) (Validator.originalCount v).

(** [{ ...vi, type: 'validation' }] *)
Definition tagValidation (v : Validator.ValidationIssue) : Issue :=
  mkIssue (Some "validation") (Some (Validator.dpId v)) (Some (Validator.issue v)) None None
    (Validator.value v) (Validator.originalCount v).

(** [{ success, plan, selectors, data, issues, error? }] *)
Record OrchestrationResult (PlanT : Type) : Type := mkOrchestration {
  success : bool;
  res_error : option string;
  plan : option PlanT;
  selectors : gmap string (option string);
  data : gmap string JsVal;
  issues : list Issue
}.
Arguments mkOrchestration {PlanT}.
Arguments success {PlanT}.
Arguments res_error {PlanT}.
Arguments plan {PlanT}.
Arguments selectors {PlanT}.
Arguments data {PlanT}.
Arguments issues {PlanT}.

(** The local variables of [processRequest] that outlive the [try] block. *)
Record Vars (PlanT : Type) : Type := mkVars {
  v_plan : option PlanT;
  v_htmlSample : option string;
  v_rawData : gmap string JsVal;
  v_validatedData : gmap string JsVal;
  v_validationIssues : list Validator.ValidationIssue;
  v_extractionErrors : list Issue;
  v_finalSelectors : gmap string (option string)
}.
Arguments mkVars {PlanT}.
Arguments v_plan {PlanT}.
Arguments v_htmlSample {PlanT}.
Arguments v_rawData {PlanT}.
Arguments v_validatedData {PlanT}.
Arguments v_validationIssues {PlanT}.
Arguments v_extractionErrors {PlanT}.
Arguments v_finalSelectors {PlanT}.

Definition initialVars {PlanT : Type} : Vars PlanT :=
  mkVars None None ∅ ∅ [] [] ∅.

(** The answer of the offscreen document to [fetchAndParse]. *)
Record OffscreenResponse : Type := mkOffscreen {
  off_success : bool;
  off_htmlContent : option string;
  off_error : option string
}.

(** Statements of the [try] block: they read and write the variables and
    the world [W] of the collaborators, and return or throw. *)
Definition Step (PlanT W A : Type) : Type :=
  Vars PlanT * W -> Result A * (Vars PlanT * W).

Definition ret {PlanT W A : Type} (a : A) : Step PlanT W A := fun s => (Ok a, s).

Definition bind {PlanT W A B : Type} (m : Step PlanT W A) (k : A -> Step PlanT W B)
  : Step PlanT W B :=
  fun s => match m s with
           | (Ok a, s') => k a s'
           | (Throw e, s') => (Throw e, s')
           end.

Definition throw {PlanT W A : Type} (msg : string) : Step PlanT W A :=
  fun s => (Throw msg, s).

(** [await collaborator(...)] *)
Definition await {PlanT W A : Type} (call : W -> Result A * W) : Step PlanT W A :=
  fun s => let '(r, w') := call (snd s) in (r, (fst s, w')).

Definition getVars {PlanT W : Type} : Step PlanT W (Vars PlanT) :=
  fun s => (Ok (fst s), s).

Definition setVars {PlanT W : Type} (f : Vars PlanT -> Vars PlanT) : Step PlanT W unit :=
  fun s => (Ok tt, (f (fst s), snd s)).

(** [try { body } catch (e) { handler(e) }] inside the block *)
Definition tryCatch {PlanT W A : Type} (body : Step PlanT W A)
    (handler : string -> Step PlanT W A) : Step PlanT W A :=
  fun s => match body s with
           | (Ok a, s') => (Ok a, s')
           | (Throw e, s') => handler e s'
           end.

Notation "x <- m ;; k" := (bind m (fun x => k))
  (at level 100, m at next level, right associativity, only parsing).
Notation "m ;;; k" := (bind m (fun _ => k))
  (at level 100, right associativity, only parsing).

(** [for (const x of xs) body(x)] *)
Fixpoint forEach {PlanT W A : Type} (xs : list A) (body : A -> Step PlanT W unit)
  : Step PlanT W unit :=
  match xs with
  | [] => ret tt
  | x :: r => body x ;;; forEach r body
  end.

(** [fetchHtmlSample(url)]; [prefix] is the text put before the message of
    the error caught, which differs between the two files. *)
Definition fetchHtmlSample {W : Type} (prefix : string)
    (sendMessageToOffscreen : W -> string -> Result (option OffscreenResponse) * W)
    (url : string) (w : W) : Result string * W :=
  let '(r, w') := sendMessageToOffscreen w url in
  let inner : Result string :=
    match r with
    | Throw m => Throw m
    | Ok (Some resp) =>
        match off_success resp, off_htmlContent resp with
        | true, Some html => Ok html
        | _, _ =>
            Throw (if truthyStr (off_error resp) then default EmptyString (off_error resp)
                   else "Offscreen document failed to fetch or return HTML content.")
        end
    | Ok None => Throw "Offscreen document failed to fetch or return HTML content."
    end in
  (match inner with
   | Ok html => Ok html
   | Throw m => Throw (prefix +:+ m)
   end, w').

(** The result the top-level [catch] builds from the variables, given the
    entry it adds for the error. *)
Definition caught {PlanT : Type} (tag : Validator.ValidationIssue -> Issue)
    (entry : string -> Issue) (msg : string) (v : Vars PlanT) : OrchestrationResult PlanT :=
  mkOrchestration false (Some ("Orchestration failed: " +:+ msg)) (v_plan v)
    (v_finalSelectors v) (v_validatedData v)
    (v_extractionErrors v ++ List.map tag (v_validationIssues v) ++ [entry msg]).

(** [try { block } catch (error) { return { success: false, ... } }] *)
Definition tryBlock {PlanT W : Type} (tag : Validator.ValidationIssue -> Issue)
    (entry : string -> Issue) (block : Step PlanT W (OrchestrationResult PlanT)) (w : W)
  : OrchestrationResult PlanT * W :=
  match block (initialVars, w) with
  | (Ok result, (_, w')) => (result, w')
  | (Throw msg, (v, w')) => (caught tag entry msg v, w')
  end.

(* --------------------------------------------------------------------- *)
(** ** orchestrator.js *)
(* --------------------------------------------------------------------- *)

Module JS.

(** A data point of the plan, as the orchestrator reads and writes it. *)
Record DataPoint : Type := mkDataPoint {
  dp_id : string;
  dp_isList : bool;
  dp_potentialSelectors : option (list string)
}.

(** The plan; [dataPoints = None] when the property is missing. *)
Record Plan : Type := mkPlan { dataPoints : option (list DataPoint) }.

(** [{ rawData, extractionErrors }] *)
Record ExtractionOutput : Type := mkExtraction {
  ex_rawData : gmap string JsVal;
  ex_extractionErrors : list Issue
}.

(** [{ recoverySuccessful, alternativeSelectors }] *)
Record Recovery : Type := mkRecovery {
  recoverySuccessful : bool;
  alternativeSelectors : list string
}.

(** [{ type, attribute }] of [getExtractionDetails] *)
Record ExtractionDetails : Type := mkDetails {
  det_type : option string;
  det_attribute : option string
}.

(** The message [{ action: 'extractData', selector, extractionType,
    attributeName }] *)
Record ExtractMessage : Type := mkExtractMessage {
  msg_selector : option string;
  msg_extractionType : option string;
  msg_attributeName : option string
}.

(** The answer [{ success, data, error }] of the content script. *)
Record ExtractResponse : Type := mkExtractResponse {
  resp_success : bool;
  resp_data : option (list JsVal)
}.

(** The collaborators of the orchestrator, over their world [W]. *)
Record Agents (W : Type) : Type := mkAgents {
  sendMessageToOffscreen : W -> string -> Result (option OffscreenResponse) * W;
  createPlan : W -> string -> string -> string -> Result (option Plan) * W;
  generateSelectors : W -> Plan -> string -> Result Plan * W;
  extractData : W -> Plan -> Z -> Result ExtractionOutput * W;
  attemptRecovery :
    W -> DataPoint -> option string -> option string -> string -> Z -> Result Recovery * W;
  getExtractionDetails : W -> DataPoint -> Result ExtractionDetails * W;
  sendMessageToContentScript : W -> Z -> ExtractMessage -> Result (option ExtractResponse) * W;
  validateData :
    W -> gmap string JsVal -> Plan
    -> Result (gmap string JsVal * list Validator.ValidationIssue) * W
}.
Arguments sendMessageToOffscreen {W}.
Arguments createPlan {W}.
Arguments generateSelectors {W}.
Arguments extractData {W}.
Arguments attemptRecovery {W}.
Arguments getExtractionDetails {W}.
Arguments sendMessageToContentScript {W}.
Arguments validateData {W}.

Definition setPlan (p : option Plan) (v : Vars Plan) : Vars Plan :=
  mkVars p (v_htmlSample v) (v_rawData v) (v_validatedData v)
    (v_validationIssues v) (v_extractionErrors v) (v_finalSelectors v).

Definition setHtmlSample (h : string) (v : Vars Plan) : Vars Plan :=
  mkVars (v_plan v) (Some h) (v_rawData v) (v_validatedData v)
    (v_validationIssues v) (v_extractionErrors v) (v_finalSelectors v).

Definition setRawData (r : gmap string JsVal) (v : Vars Plan) : Vars Plan :=
  mkVars (v_plan v) (v_htmlSample v) r (v_validatedData v)
    (v_validationIssues v) (v_extractionErrors v) (v_finalSelectors v).

Definition setExtractionErrors (e : list Issue) (v : Vars Plan) : Vars Plan :=
  mkVars (v_plan v) (v_htmlSample v) (v_rawData v) (v_validatedData v)
    (v_validationIssues v) e (v_finalSelectors v).

Definition setValidated (d : gmap string JsVal) (i : list Validator.ValidationIssue)
    (v : Vars Plan) : Vars Plan :=
  mkVars (v_plan v) (v_htmlSample v) (v_rawData v) d i
    (v_extractionErrors v) (v_finalSelectors v).

Definition setFinalSelectors (f : gmap string (option string)) (v : Vars Plan) : Vars Plan :=
  mkVars (v_plan v) (v_htmlSample v) (v_rawData v) (v_validatedData v)
    (v_validationIssues v) (v_extractionErrors v) f.

(** [plan.dataPoints.find(dp => dp.id === id)] *)
Definition findDataPoint (id : option string) (dps : list DataPoint) : option DataPoint :=
  List.find (fun dp => match id with
                       | Some i => String.eqb (dp_id dp) i
                       | None => false
                       end) dps.

(** [failedDp.potentialSelectors = alternatives], on the object that [find]
    returned: the first data point with that id. *)
Fixpoint setPotentialSelectors (id : string) (alternatives : list string)
    (dps : list DataPoint) : list DataPoint :=
  match dps with
  | [] => []
  | dp :: r =>
      if String.eqb (dp_id dp) id
      then mkDataPoint (dp_id dp) (dp_isList dp) (Some alternatives) :: r
      else dp :: setPotentialSelectors id alternatives r
  end.

(** [dp.potentialSelectors?.[0] || null] *)
Definition firstSelector (dp : DataPoint) : option string :=
  match dp_potentialSelectors dp with
  | Some (s :: _) => if JsString.nonEmpty s then Some s else None
  | _ => None
  end.

(** [dp.potentialSelectors[0]], which may be [undefined] *)
Definition headSelector (dp : DataPoint) : option string :=
  match dp_potentialSelectors dp with
  | Some (s :: _) => Some s
  | _ => None
  end.

Definition notAbout (id : string) (e : Issue) : bool :=
  match dpId e with
  | Some d => negb (String.eqb d id)
  | None => true
  end.

Section Request.

Context {W : Type} (agents : Agents W).
Variables (naturalLanguageInstruction targetUrl : string) (tabId : Z).

(** The re-extraction of a recovered data point, in its own [try]. *)
Definition reExtract (failedDp : DataPoint) : Step Plan W unit :=
  tryCatch
    (d1 <- await (fun w => getExtractionDetails agents w failedDp) ;;
     d2 <- await (fun w => getExtractionDetails agents w failedDp) ;;
     reExtractResponse <-
       await (fun w => sendMessageToContentScript agents w tabId
                         (mkExtractMessage (headSelector failedDp) (det_type d1)
                            (det_attribute d2))) ;;
     match reExtractResponse with
     | Some (mkExtractResponse true resp_data) =>
         let results := default [] resp_data in
         setVars (fun v =>
           setRawData
             (<[dp_id failedDp :=
                  if dp_isList failedDp then VArr results
                  else match results with
                       | x :: _ => x
                       | [] => VNull
                       end]> (v_rawData v)) v) ;;;
         setVars (fun v =>
           setExtractionErrors
             (List.filter (notAbout (dp_id failedDp)) (v_extractionErrors v)) v)
     | _ => ret tt
     end)
    (fun _ => ret tt).

(** One turn of [for (const errorInfo of extractionErrors)];
    [recoveryAttempts] counts the attempts per data point. *)
Definition recoverOne (errorInfo : Issue) (recoveryAttempts : gmap string nat)
  : Step Plan W (gmap string nat) :=
  v <- getVars ;;
  match v_plan v with
  | None => throw "Cannot read properties of null (reading 'dataPoints')"
  | Some pl =>
      match dataPoints pl with
      | None => throw "Cannot read properties of undefined (reading 'find')"
      | Some dps =>
          match findDataPoint (dpId errorInfo) dps with
          | None => ret recoveryAttempts
          | Some failedDp =>
              let attemptCount := S (default 0 (recoveryAttempts !! dp_id failedDp)) in
              if (2 <? attemptCount)%nat then ret recoveryAttempts
              else
                let recoveryAttempts' := <[dp_id failedDp := attemptCount]> recoveryAttempts in
                recoveryResult <-
                  await (fun w => attemptRecovery agents w failedDp (selector errorInfo)
                                    (error errorInfo)
                                    (default EmptyString (v_htmlSample v)) tabId) ;;
                match recoverySuccessful recoveryResult, alternativeSelectors recoveryResult with
                | true, a :: alts =>
                    setVars (setPlan (Some (mkPlan (Some
                      (setPotentialSelectors (dp_id failedDp) (a :: alts) dps))))) ;;;
                    reExtract (mkDataPoint (dp_id failedDp) (dp_isList failedDp)
                                 (Some (a :: alts))) ;;;
                    ret recoveryAttempts'
                | _, _ => ret recoveryAttempts'
                end
          end
      end
  end.

(** The loop over the extraction errors; it runs over the array that
    [extractionErrors] held when it started. *)
Fixpoint recoverAll (errors : list Issue) (recoveryAttempts : gmap string nat)
  : Step Plan W unit :=
  match errors with
  | [] => ret tt
  | errorInfo :: r =>
      recoveryAttempts' <- recoverOne errorInfo recoveryAttempts ;;
      recoverAll r recoveryAttempts'
  end.

(** [plan.dataPoints.forEach(dp => { finalSelectors[dp.id] = ... })] *)
Definition recordSelectors (dps : list DataPoint) (f : gmap string (option string))
  : gmap string (option string) :=
  fold_left (fun acc dp => <[dp_id dp := firstSelector dp]> acc) dps f.

(** The [try] block of [processRequest]. *)
Definition block : Step Plan W (OrchestrationResult Plan) :=
  htmlSample <-
    await (fetchHtmlSample "Failed to fetch page content for planning/extraction: "
             (sendMessageToOffscreen agents) targetUrl) ;;
  setVars (setHtmlSample htmlSample) ;;;
  plan1 <- await (fun w => createPlan agents w naturalLanguageInstruction targetUrl htmlSample) ;;
  setVars (setPlan plan1) ;;;
  match plan1 with
  | Some (mkPlan (Some (dp :: dps))) =>
      plan2 <- await (fun w => generateSelectors agents w (mkPlan (Some (dp :: dps))) htmlSample) ;;
      setVars (setPlan (Some plan2)) ;;;
      extractionResult <- await (fun w => extractData agents w plan2 tabId) ;;
      setVars (setRawData (ex_rawData extractionResult)) ;;;
      setVars (setExtractionErrors (ex_extractionErrors extractionResult)) ;;;
      recoverAll (ex_extractionErrors extractionResult) ∅ ;;;
      v <- getVars ;;
      match v_plan v with
      | None => throw "Cannot read properties of null (reading 'dataPoints')"
      | Some plan3 =>
          validationResult <- await (fun w => validateData agents w (v_rawData v) plan3) ;;
          setVars (setValidated (fst validationResult) (snd validationResult)) ;;;
          match dataPoints plan3 with
          | None => throw "Cannot read properties of undefined (reading 'forEach')"
          | Some dps3 =>
              setVars (fun v => setFinalSelectors (recordSelectors dps3 (v_finalSelectors v)) v) ;;;
              v' <- getVars ;;
              ret (mkOrchestration true None (v_plan v') (v_finalSelectors v')
                     (v_validatedData v')
                     (v_extractionErrors v'
                      ++ List.map ofValidation (v_validationIssues v')))
          end
      end
  | _ => throw "Planning failed: No data points were identified."
  end.

(** [{ type: 'orchestration', error: error.message }] *)
Definition orchestrationEntry (msg : string) : Issue :=
  mkIssue (Some "orchestration") None None (Some msg) None None None.

(** [processRequest(naturalLanguageInstruction, targetUrl, llmProvider, tabId)] *)
Definition processRequest (w : W) : OrchestrationResult Plan * W :=
  tryBlock ofValidation orchestrationEntry block w.

End Request.

End JS.

(* --------------------------------------------------------------------- *)
(** ** orchestrator.ts *)
(* --------------------------------------------------------------------- *)

Module TS.

(** [SelectorResult], as far as the orchestrator reads it. *)
Record SelectorResult : Type := mkSelectorResult {
  sr_success : bool;
  sr_cssSelectors : list string;
  sr_xpathSelectors : list string;
  sr_error : option string
}.

(** The collaborators of the orchestrator, over their world [W].
    [contentScript] receives the highlighting messages, with the selector
    when there is one; [extract] is the call of the Extraction Agent. *)
Record Agents (W : Type) : Type := mkAgents {
  sendMessageToOffscreen : W -> string -> Result (option OffscreenResponse) * W;
  createExtractionPlan : W -> string -> string -> string -> Result Planner.ExtractionPlan * W;
  generateSelectors : W -> string -> string -> Result SelectorResult * W;
  contentScript : W -> Z -> option string -> Result unit * W;
  extract : W -> Planner.ExtractionPlan -> Result unit * W;
  validateData :
    W -> gmap string JsVal -> Planner.ExtractionPlan -> string
    -> Result (gmap string JsVal * list Validator.ValidationIssue) * W
}.
Arguments sendMessageToOffscreen {W}.
Arguments createExtractionPlan {W}.
Arguments generateSelectors {W}.
Arguments contentScript {W}.
Arguments extract {W}.
Arguments validateData {W}.

Abbreviation Plan := Planner.ExtractionPlan.

Definition setPlan (p : option Plan) (v : Vars Plan) : Vars Plan :=
  mkVars p (v_htmlSample v) (v_rawData v) (v_validatedData v)
    (v_validationIssues v) (v_extractionErrors v) (v_finalSelectors v).

Definition setHtmlSample (h : string) (v : Vars Plan) : Vars Plan :=
  mkVars (v_plan v) (Some h) (v_rawData v) (v_validatedData v)
    (v_validationIssues v) (v_extractionErrors v) (v_finalSelectors v).

Definition pushExtractionError (e : Issue) (v : Vars Plan) : Vars Plan :=
  mkVars (v_plan v) (v_htmlSample v) (v_rawData v) (v_validatedData v)
    (v_validationIssues v) (v_extractionErrors v ++ [e]) (v_finalSelectors v).

Definition setValidated (d : gmap string JsVal) (i : list Validator.ValidationIssue)
    (v : Vars Plan) : Vars Plan :=
  mkVars (v_plan v) (v_htmlSample v) (v_rawData v) d i
    (v_extractionErrors v) (v_finalSelectors v).

Definition setFinalSelector (k : string) (sel : option string) (v : Vars Plan) : Vars Plan :=
  mkVars (v_plan v) (v_htmlSample v) (v_rawData v) (v_validatedData v)
    (v_validationIssues v) (v_extractionErrors v) (<[k := sel]> (v_finalSelectors v)).

(** [a[0] || b[0] || null] *)
Definition firstTruthy (a b : list string) : option string :=
  match a with
  | s :: _ => if JsString.nonEmpty s then Some s else
                match b with
                | t :: _ => if JsString.nonEmpty t then Some t else None
                | [] => None
                end
  | [] => match b with
          | t :: _ => if JsString.nonEmpty t then Some t else None
          | [] => None
          end
  end.

(** [{ type: 'selection', dpId, issue: `Selector generation failed: ...` }] *)
Definition selectionIssue (fieldId : string) (err : option string) : Issue :=
  mkIssue (Some "selection") (Some fieldId)
    (Some ("Selector generation failed: " +:+ default "undefined" err))
    None None None None.

Definition extractionIssue : Issue :=
  mkIssue (Some "extraction") (Some "N/A")
    (Some "ExtractorAgent interaction needs refactoring for content script.")
    None None None None.

Section Request.

Context {W : Type} (agents : Agents W).
Variables (naturalLanguageInstruction targetUrl : string) (tabId : option Z).

(** [clearAllHighlightsInTab] and [highlightSelectorInTab]: what the content
    script answers or throws is logged and dropped. *)
Definition highlight (sel : option string) : Step Plan W unit :=
  match tabId with
  | Some t =>
      tryCatch (await (fun w => contentScript agents w t sel)) (fun _ => ret tt)
  | None => ret tt
  end.

(** [await Promise.all(plan.keyFields.map(async field => ...))]: the calls
    are issued in the order of the fields. *)
Fixpoint selectAll (html : string) (fields : list Planner.FieldDefinition)
  : Step Plan W (list (string * SelectorResult)) :=
  match fields with
  | [] => ret []
  | field :: r =>
      selectorResult <- await (fun w => generateSelectors agents w (Planner.name field) html) ;;
      rest <- selectAll html r ;;
      ret ((Planner.name field, selectorResult) :: rest)
  end.

(** [fieldSelectorResults.forEach(fsr => ...)] *)
Definition recordResult (fsr : string * SelectorResult) : Step Plan W unit :=
  if sr_success (snd fsr) then
    setVars (setFinalSelector (fst fsr)
               (firstTruthy (sr_cssSelectors (snd fsr)) (sr_xpathSelectors (snd fsr))))
  else setVars (pushExtractionError (selectionIssue (fst fsr) (sr_error (snd fsr)))).

(** The highlighting of the selector of one field. *)
Definition highlightField (field : Planner.FieldDefinition) : Step Plan W unit :=
  v <- getVars ;;
  match v_finalSelectors v !! Planner.name field with
  | Some (Some sel) => highlight (Some sel)
  | _ => ret tt
  end.

(** The [try] block of [processRequest]. *)
Definition block : Step Plan W (OrchestrationResult Plan) :=
  htmlSample <-
    await (fetchHtmlSample "Failed to fetch page content: "
             (sendMessageToOffscreen agents) targetUrl) ;;
  setVars (setHtmlSample htmlSample) ;;;
  plan <- await (fun w => createExtractionPlan agents w targetUrl naturalLanguageInstruction
                            htmlSample) ;;
  setVars (setPlan (Some plan)) ;;;
  if negb (Planner.success plan) || (List.length (Planner.keyFields plan) =? 0)%nat then
    throw ("Planning failed: " +:+
           (if truthyStr (Planner.error plan) then default EmptyString (Planner.error plan)
            else "No data points identified."))
  else
    fieldSelectorResults <- selectAll htmlSample (Planner.keyFields plan) ;;
    forEach fieldSelectorResults recordResult ;;;
    match tabId with
    | Some _ => highlight None ;;; forEach (Planner.keyFields plan) highlightField
    | None => ret tt
    end ;;;
    await (fun w => extract agents w plan) ;;;
    setVars (pushExtractionError extractionIssue) ;;;
    v <- getVars ;;
    validationResult <- await (fun w => validateData agents w (v_rawData v) plan targetUrl) ;;
    setVars (setValidated (fst validationResult) (snd validationResult)) ;;;
    v' <- getVars ;;
    ret (mkOrchestration true None (v_plan v') (v_finalSelectors v') (v_validatedData v')
           (v_extractionErrors v' ++ List.map tagValidation (v_validationIssues v'))).

(** [{ dpId: 'N/A', type: 'orchestration', issue: error.message }] *)
Definition orchestrationEntry (msg : string) : Issue :=
  mkIssue (Some "orchestration") (Some "N/A") (Some msg) None None None None.

(** [processRequest(naturalLanguageInstruction, targetUrl, tabId, llmProvider)] *)
Definition processRequest (w : W) : OrchestrationResult Plan * W :=
  tryBlock tagValidation orchestrationEntry block w.

End Request.

End TS.

End Orchestrator.

(* ===================================================================== *)
(** * Properties of the Validation Agent *)
(* ===================================================================== *)

Module ValidatorFacts.

Import Validator.

(** The last data point of the plan with a given id: the one whose value
    the loop leaves under that id. *)
Definition lastWithId (k : string) (dps : list DataPoint) : option DataPoint :=
  List.find (fun dp => String.eqb (dp_id dp) k) (rev dps).

Lemma find_snoc {A : Type} (f : A -> bool) (l : list A) (x : A) :
  List.find f (l ++ [x])
  = match List.find f l with
    | Some y => Some y
    | None => if f x then Some x else None
    end.
Proof.
  induction l as [|a l IH]; simpl; [reflexivity|]. destruct (f a); [reflexivity|apply IH].
Qed.

Lemma lastWithId_snoc k dps dp :
  lastWithId k (dps ++ [dp])
  = if String.eqb (dp_id dp) k then Some dp else lastWithId k dps.
Proof. unfold lastWithId. rewrite rev_app_distr. reflexivity. Qed.

Lemma lastWithId_cons k dp dps :
  lastWithId k (dp :: dps)
  = match lastWithId k dps with
    | Some dp' => Some dp'
    | None => if String.eqb (dp_id dp) k then Some dp else None
    end.
Proof.
  unfold lastWithId. simpl. now rewrite find_snoc.
Qed.

Lemma lastWithId_id k dps dp : lastWithId k dps = Some dp -> dp_id dp = k.
Proof.
  unfold lastWithId. intros H. apply find_some in H as [_ H].
  now apply String.eqb_eq.
Qed.

Lemma lastWithId_In k dps dp : lastWithId k dps = Some dp -> In dp dps.
Proof.
  unfold lastWithId. intros H. apply find_some in H as [H _]. now apply in_rev.
Qed.

(** With distinct ids, a data point of the plan is the last with its id. *)
Lemma lastWithId_NoDup dps dp :
  List.NoDup (List.map dp_id dps) -> In dp dps -> lastWithId (dp_id dp) dps = Some dp.
Proof.
  induction dps as [|a dps IH]; simpl; [easy|].
  intros Hnd Hin. rewrite List.NoDup_cons_iff in Hnd. destruct Hnd as [Hna Hnd].
  rewrite lastWithId_cons. destruct Hin as [->|Hin].
  - destruct (lastWithId (dp_id dp) dps) as [dp'|] eqn:E.
    + exfalso. apply Hna. apply in_map_iff. exists dp'. split.
      * now apply lastWithId_id in E.
      * now apply lastWithId_In in E.
    + now rewrite String.eqb_refl.
  - now rewrite IH.
Qed.

Lemma lastWithId_None k dps :
  lastWithId k dps = None -> ~ In k (List.map dp_id dps).
Proof.
  unfold lastWithId. intros H Hin. apply in_map_iff in Hin as [dp [Hid Hin]].
  apply in_rev in Hin. pose proof (find_none _ _ H dp Hin) as Hf. simpl in Hf.
  apply String.eqb_neq in Hf. contradiction.
Qed.

(** ** validator-agent.js: what the loop computes *)

Lemma JS_validateLoop_lookup P raw t dps acc k :
  fst (JS.validateLoop P raw t dps acc) !! k
  = match lastWithId k dps with
    | Some dp => Some (fst (JS.validateDataPoint P raw t dp))
    | None => fst acc !! k
    end.
Proof.
  revert acc. induction dps as [|dp dps IH]; intros acc; simpl; [reflexivity|].
  destruct (JS.validateDataPoint P raw t dp) as [v i] eqn:E.
  rewrite IH, lastWithId_cons. destruct (lastWithId k dps); [reflexivity|]. simpl.
  destruct (String.eqb (dp_id dp) k) eqn:Ek.
  - apply String.eqb_eq in Ek. subst k. now rewrite lookup_insert_eq, E.
  - apply String.eqb_neq in Ek. now rewrite lookup_insert_ne.
Qed.

Lemma JS_validateLoop_issues P raw t dps acc :
  snd (JS.validateLoop P raw t dps acc)
  = snd acc ++ concat (List.map (fun dp => snd (JS.validateDataPoint P raw t dp)) dps).
Proof.
  revert acc. induction dps as [|dp dps IH]; intros acc; simpl.
  - now rewrite app_nil_r.
  - destruct (JS.validateDataPoint P raw t dp) as [v i] eqn:E.
    rewrite IH. simpl. now rewrite <- app_assoc.
Qed.

(** validator-agent.js returns a result whenever [rawData] and [plan] are
    objects and [plan.dataPoints] is an array. *)
Lemma JS_validateData_ok P raw dps t :
  JS.validateData P (Some raw) (Some (mkPlan (Some dps) t))
  = Ok (mkResult (fst (JS.validateLoop P raw t dps (∅, [])))
          (snd (JS.validateLoop P raw t dps (∅, []))) None None).
Proof.
  unfold JS.validateData. simpl.
  now destruct (JS.validateLoop P raw t dps (∅, [])).
Qed.

(** ** validatorAgent.ts: what the loop computes, when it does not throw *)

(** Unfold the sequencing of [Result]. *)
Ltac unfoldR := unfold mbind, Result_bind, bindR, mret, Result_ret in *.

Lemma TS_validateLoop_ok P raw t dps acc m i :
  TS.validateLoop P raw t dps acc = Ok (m, i) ->
  (forall k,
     m !! k = match lastWithId k dps with
              | Some dp =>
                  match TS.validateDataPoint P raw t dp with
                  | Ok (v, _) => Some v
                  | Throw _ => None
                  end
              | None => fst acc !! k
              end)
  /\ (exists per,
        Forall2 (fun dp vi => TS.validateDataPoint P raw t dp = Ok vi) dps per
        /\ i = snd acc ++ concat (List.map snd per)).
Proof.
  revert acc m i. induction dps as [|dp dps IH]; intros acc m i; simpl.
  - intros [= ->]. split; [reflexivity|]. exists []. split; [constructor|].
    simpl. now rewrite app_nil_r.
  - unfoldR.
    destruct (TS.validateDataPoint P raw t dp) as [[v iv]|e] eqn:E; simpl; [|discriminate].
    intros H. apply IH in H as [Hl [per [Hper Hi]]]. split.
    + intros k. rewrite Hl, lastWithId_cons.
      destruct (lastWithId k dps); [reflexivity|]. simpl.
      destruct (String.eqb (dp_id dp) k) eqn:Ek.
      * apply String.eqb_eq in Ek. subst k. now rewrite lookup_insert_eq, E.
      * apply String.eqb_neq in Ek. now rewrite lookup_insert_ne.
    + exists ((v, iv) :: per). split; [now constructor|].
      rewrite Hi. simpl. now rewrite <- app_assoc.
Qed.

Lemma TS_validateLoop_total P raw t dps acc :
  Forall (fun dp => isOk (TS.validateDataPoint P raw t dp) = true) dps ->
  exists m i, TS.validateLoop P raw t dps acc = Ok (m, i).
Proof.
  revert acc. induction dps as [|dp dps IH]; intros acc Hall; simpl.
  - destruct acc. eauto.
  - inversion Hall as [|? ? Hdp Hrest]; subst.
    unfoldR. destruct (TS.validateDataPoint P raw t dp) as [[v iv]|e]; [|discriminate].
    simpl. now apply IH.
Qed.

End ValidatorFacts.

(* ===================================================================== *)
(** * C7: a root-relative URL is resolved against the target URL *)
(* ===================================================================== *)

Module ResolveUrl.

Import Validator ValidatorFacts.

Definition relative : string := "/a/b".
Definition base : string := "https://x.com".
Definition resolved : string := "https://x.com/a/b".

(** The three facts about [new URL] that the scenario rests on. *)
Record UrlFacts (P : Platform) : Prop := mkUrlFacts {
  relative_alone_throws : exists m, URL_new P relative None = Throw m;
  relative_resolves : URL_new P relative (Some base) = Ok (mkURL resolved "https:");
  resolved_parses : URL_new P resolved None = Ok (mkURL resolved "https:")
}.

Lemma JS_url_field P raw dp :
  UrlFacts P -> dp_type dp = "url" -> dp_isList dp = false ->
  raw !! dp_id dp = Some (VStr relative) ->
  JS.validateDataPoint P raw (Some base) dp = (VStr resolved, []).
Proof.
  intros [[m Hrel] Hres Habs] Ht Hl Hraw.
  unfold JS.validateDataPoint, initialData, reconcileShape. rewrite Hraw, Hl. simpl.
  unfold JS.cleanAndValidateItem. rewrite Ht. simpl.
  change (JsString.normalizeSpaces relative) with relative.
  unfold isValidHttpUrl. rewrite Hrel, Hres. simpl.
  fold resolved. rewrite Habs. reflexivity.
Qed.

Lemma TS_url_field P raw dp :
  UrlFacts P -> JsString.toLowerCase (dp_type dp) = "url" -> dp_isList dp = false ->
  raw !! dp_id dp = Some (VStr relative) ->
  TS.validateDataPoint P raw (Some base) dp = Ok (VStr resolved, []).
Proof.
  intros [[m Hrel] Hres Habs] Ht Hl Hraw.
  unfold TS.validateDataPoint, initialData, reconcileShape. rewrite Hraw, Hl, Ht. simpl.
  unfold TS.cleanAndValidateItem. simpl.
  change (JsString.normalizeSpaces relative) with relative.
  unfold isValidHttpUrl. rewrite Hrel, Hres. simpl.
  fold resolved. rewrite Habs. unfoldR. simpl.
  destruct (TS.isOptional dp); reflexivity.
Qed.


Lemma RefPlatform_UrlFacts : UrlFacts RefPlatform.platform.
Proof. split; [eexists|..]; reflexivity. Qed.


End ResolveUrl.

(* ===================================================================== *)
(** * C6: inputs on which validateData throws *)
(* ===================================================================== *)

Module ValidatorThrows.

Import Validator.

(** C6.  [validateData] does throw.  validatorAgent.ts reads
    [Object.keys(rawData)] and [plan.extractionGoal] for its first log line,
    before the guard that would answer [{ success: false, error }]: with
    [rawData = null] (or [plan = null]) that line throws a TypeError, on
    every platform and for every plan.  Past the guard it throws on an
    Invalid Date in a date field.  validator-agent.js throws by its guard,
    for [rawData = null] and for a plan without [dataPoints] alike.  The
    guard of validatorAgent.ts itself, once reached, does return a result. *)
Theorem validateData_throws :
  forall (P : Platform) (plan : option Plan) (raw : gmap string JsVal),
    TS.validateData P None plan = Throw "Cannot convert undefined or null to object"
    /\ TS.validateData P (Some raw) None
       = Throw "Cannot read properties of null (reading 'extractionGoal')"
    /\ TS.validateData P (Some {[ "when" := VDate None ]})
         (Some (mkPlan (Some [mkDataPoint "when" "date" false None]) None))
       = Throw "Invalid time value"
    /\ JS.validateData P None plan
       = Throw "ValidatorAgent.validateData: Invalid rawData or plan provided."
    /\ JS.validateData P (Some raw) (Some (mkPlan None None))
       = Throw "ValidatorAgent.validateData: Invalid rawData or plan provided."
    /\ TS.validateData P (Some raw) (Some (mkPlan None None))
       = Ok (mkResult ∅ [] (Some false) (Some "Invalid rawData or plan structure provided.")).
Proof.
  intros P plan raw. repeat split; reflexivity.
Qed.

End ValidatorThrows.

(* ===================================================================== *)
(** * C2: the key fields of a successful plan *)
(* ===================================================================== *)

Module PlannerFacts.

Import Planner.

Definition named (f : FieldDefinition) : bool := JsString.nonEmpty (name f).

(** The answer of the third test of plannerAgent.test.ts, which expects
    [success] to be [true] and [keyFields] to equal [[]]. *)
Definition unstructuredAnswer : LLM.Response :=
  LLM.mkResponse (Some "This is not a valid plan format.") None None (Some "mock").


Lemma parseKeyFields_named section : forallb named (parseKeyFields section) = true.
Proof.
  apply forallb_forall. intros f Hf. unfold parseKeyFields in Hf.
  apply filter_In in Hf. exact (proj2 Hf).
Qed.

Lemma parseExtractionPlan_named responseText :
  forallb named (keyFields (parseExtractionPlan responseText)) = true.
Proof.
  unfold parseExtractionPlan. simpl.
  destruct (sectionOf "key fields" _ responseText); simpl;
    [apply parseKeyFields_named | reflexivity].
Qed.


End PlannerFacts.

(* ===================================================================== *)
(** * C3 and C9: the fallback of the Model Gateway *)
(* ===================================================================== *)

Module GatewayFacts.

Import LLM.

(** The first attempt of [query], when a provider is selected and
    registered. *)
Lemma query_selected b env prompt options history target :
  targetProviderId b options = Some target ->
  JsString.nonEmpty target = true ->
  strIn target (providerIds b) = true ->
  let call := mkCall target prompt (routedOptions b options) in
  query b env prompt options history
  = match answered (env history call) with
    | Ok response => (withProvider response target, [call])
    | Throw m =>
        if retries (routedOptions b options) target then
          (fst (query b env prompt (fallbackOptions (routedOptions b options))
                  (history ++ [call])),
           call :: snd (query b env prompt (fallbackOptions (routedOptions b options))
                          (history ++ [call])))
        else (errorResponse
                ("Error querying provider " +:+ target +:+ ": " +:+ messageOr m)
                (Some target), [call])
    end.
Proof.
  intros Ht Hne Hreg call.
  remember (query b env prompt (fallbackOptions (routedOptions b options))
              (history ++ [call])) as retry eqn:Hretry.
  simp query. rewrite Ht. simpl. rewrite Hne. simpl. rewrite Hreg. simpl. fold call.
  destruct (answered (env history call)) as [response|m]; simpl; [reflexivity|].
  unfold inspect.
  destruct (retries (routedOptions b options) target) eqn:Hr; [|reflexivity].
  fold call. rewrite <- Hretry. now destruct retry.
Qed.

Lemma query_unregistered b env prompt options history target :
  targetProviderId b options = Some target ->
  JsString.nonEmpty target = true ->
  strIn target (providerIds b) = false ->
  query b env prompt options history
  = (errorResponse ("LLM provider '" +:+ target +:+ "' not found. Available: "
                    +:+ JsString.join ", " (providerIds b)) None, []).
Proof.
  intros Ht Hne Hreg. simp query. rewrite Ht. simpl. rewrite Hne. simpl.
  rewrite Hreg. reflexivity.
Qed.

(** The options of a retry name their provider and have no fallback. *)
Lemma retry_options options f :
  opt_fallbackProvider options = Some f ->
  JsString.nonEmpty f = true ->
  forall b,
    requestedProvider b (fallbackOptions options) = Some f
    /\ routedOptions b (fallbackOptions options) = fallbackOptions options
    /\ retries (fallbackOptions options) = fun _ => false.
Proof.
  intros Hf Hne b. unfold requestedProvider, routedOptions, retries, fallbackOptions.
  simpl. rewrite Hf. simpl. rewrite Hne. simpl. rewrite andb_false_r. easy.
Qed.

(** The provider that a request for [p] reaches. *)
Definition routed (b : Bridge) (p : string) : string :=
  if routesToExternal b (Some p) then "external" else p.

Lemma routed_nonEmpty b p : JsString.nonEmpty p = true -> JsString.nonEmpty (routed b p) = true.
Proof. intros H. unfold routed. now destruct (routesToExternal b (Some p)). Qed.

(** C9.  When the selected provider is registered and its [query] resolves
    to a response object, [LLMBridge.query] returns that response, its
    [text], [error] and [model] untouched and its [provider] set to the
    provider tried, after that one call: whatever [options.fallbackProvider]
    is, and also when the response carries an [error]. *)
Theorem query_returns_resolved_response
    (b : Bridge) (env : Providers) (prompt : string) (options : QueryOptions)
    (history : list ProviderCall) (target : string) (response : Response)
    (Htarget : targetProviderId b options = Some target)
    (Hname : JsString.nonEmpty target = true)
    (Hregistered : strIn target (providerIds b) = true)
    (Hresolves : env history (mkCall target prompt (routedOptions b options))
                 = Ok (Some response)) :
  query b env prompt options history
  = (mkResponse (text response) (error response) (model response) (Some target),
     [mkCall target prompt (routedOptions b options)]).
Proof.
  rewrite (query_selected b env prompt options history target Htarget Hname Hregistered).
  simpl. rewrite Hresolves. reflexivity.
Qed.

Definition localAndExternal : Bridge :=
  mkBridge ["ollama"; "external"] (Some "ollama") None.

(** A local provider that resolves to an error response, and an external
    one that answers. *)
Definition failingSoftly : Providers :=
  fun _ call =>
    if String.eqb (call_providerId call) "ollama"
    then Ok (Some (mkResponse (Some EmptyString) (Some "model not loaded") None None))
    else Ok (Some (mkResponse (Some "answer") None (Some "gpt") None)).

Lemma query_returns_resolved_response_witness :
  query localAndExternal failingSoftly "prompt"
    (mkOptions None (Some "external") None None None None) []
  = (mkResponse (Some EmptyString) (Some "model not loaded") None (Some "ollama"),
     [mkCall "ollama" "prompt" (mkOptions None (Some "external") None None None None)]).
Proof.
  apply (query_returns_resolved_response localAndExternal failingSoftly "prompt"
           (mkOptions None (Some "external") None None None None) [] "ollama"
           (mkResponse (Some EmptyString) (Some "model not loaded") None None));
    reflexivity.
Defined.

(** A local provider whose [query] rejects. *)
Definition failingHard : Providers :=
  fun _ call =>
    if String.eqb (call_providerId call) "ollama" then Throw "connection refused"
    else Ok (Some (mkResponse (Some "answer") None (Some "gpt") None)).

(** C3 fails as stated: with [fallbackProvider: 'openai'] the retry goes to
    the connector registered as ['external'], and the response names that
    provider, not ['openai']; with a fallback that is not registered no
    provider is retried and the response names none. *)
Lemma fallback_response_names_another_provider :
  provider (fst (query localAndExternal failingHard "prompt"
                   (mkOptions None (Some "openai") None None None None) []))
  = Some "external"
  /\ List.map call_providerId
       (snd (query localAndExternal failingHard "prompt"
               (mkOptions None (Some "openai") None None None None) []))
     = ["ollama"; "external"]
  /\ provider (fst (query localAndExternal failingHard "prompt"
                      (mkOptions None (Some "mistral-local") None None None None) []))
     = None
  /\ List.map call_providerId
       (snd (query localAndExternal failingHard "prompt"
               (mkOptions None (Some "mistral-local") None None None None) []))
     = ["ollama"].
Proof. vm_compute. repeat split; reflexivity. Qed.

(** C3, amended.  The selected provider [A] is registered and its [query]
    fails by throwing (or by resolving to nothing).  The fallback [B] is
    given and differs from [A].  Let [B'] be the provider a request for
    [B] reaches: ['external'] when [B] is one of openai, mistral, anthropic
    and ['external'] is registered, [B] otherwise.  If [B'] is registered,
    there is exactly one retry, against [B'], with the same prompt and the
    options of the first call but for [provider: B] and no fallback, and
    the response returned names [B'] as its provider.  If [B'] is not
    registered, no provider is retried and the response is an error
    without provider. *)
Theorem query_falls_back_once
    (b : Bridge) (env : Providers) (prompt : string) (options : QueryOptions)
    (history : list ProviderCall) (A B m : string)
    (Htarget : targetProviderId b options = Some A)
    (Hname : JsString.nonEmpty A = true)
    (Hregistered : strIn A (providerIds b) = true)
    (Hfails : answered (env history (mkCall A prompt (routedOptions b options))) = Throw m)
    (Hfallback : opt_fallbackProvider options = Some B)
    (HnameB : JsString.nonEmpty B = true)
    (Hdiffers : B <> A) :
  let first := mkCall A prompt (routedOptions b options) in
  let retryOptions := fallbackOptions (routedOptions b options) in
  let retry := mkCall (routed b B) prompt retryOptions in
  opt_provider retryOptions = Some B
  /\ opt_fallbackProvider retryOptions = None
  /\ (strIn (routed b B) (providerIds b) = true ->
      snd (query b env prompt options history) = [first; retry]
      /\ provider (fst (query b env prompt options history)) = Some (routed b B)
      /\ fst (query b env prompt options history)
         = match answered (env (history ++ [first]) retry) with
           | Ok response => withProvider response (routed b B)
           | Throw m' =>
               errorResponse
                 ("Error querying provider " +:+ routed b B +:+ ": " +:+ messageOr m')
                 (Some (routed b B))
           end)
  /\ (strIn (routed b B) (providerIds b) = false ->
      snd (query b env prompt options history) = [first]
      /\ provider (fst (query b env prompt options history)) = None
      /\ error (fst (query b env prompt options history))
         = Some ("LLM provider '" +:+ routed b B +:+ "' not found. Available: "
                 +:+ JsString.join ", " (providerIds b))).
Proof.
  intros first retryOptions retry.
  assert (Hsame : opt_fallbackProvider (routedOptions b options) = Some B).
  { unfold routedOptions. destruct (_ && _); simpl; exact Hfallback. }
  destruct (retry_options (routedOptions b options) B Hsame HnameB b) as [Hreq [Hrouted Hno]].
  assert (Hretries : retries (routedOptions b options) A = true).
  { unfold retries. rewrite Hsame, HnameB. simpl.
    apply negb_true_iff, String.eqb_neq. exact Hdiffers. }
  assert (HtargetB : targetProviderId b retryOptions = Some (routed b B)).
  { unfold targetProviderId, routed. fold retryOptions in Hreq. rewrite Hreq.
    now destruct (routesToExternal b (Some B)). }
  rewrite (query_selected b env prompt options history A Htarget Hname Hregistered).
  simpl. rewrite Hfails, Hretries. fold first retryOptions. simpl.
  split; [unfold retryOptions, fallbackOptions; simpl; exact Hsame|].
  split; [reflexivity|]. split.
  - intros HregB.
    rewrite (query_selected b env prompt retryOptions (history ++ [first]) (routed b B)
               HtargetB (routed_nonEmpty b B HnameB) HregB).
    simpl. fold retryOptions in Hrouted. rewrite Hrouted. fold retry.
    fold retryOptions in Hno. rewrite Hno.
    destruct (answered (env (history ++ [first]) retry)); simpl; repeat split; reflexivity.
  - intros HregB.
    rewrite (query_unregistered b env prompt retryOptions (history ++ [first]) (routed b B)
               HtargetB (routed_nonEmpty b B HnameB) HregB).
    simpl. repeat split; reflexivity.
Qed.

Lemma query_falls_back_once_witness :
  let b := mkBridge ["ollama"; "lmstudio"] (Some "ollama") None in
  let options := mkOptions None (Some "lmstudio") None None None None in
  let first := mkCall "ollama" "prompt" options in
  let retryOptions := mkOptions (Some "lmstudio") None None None None None in
  let retry := mkCall "lmstudio" "prompt" retryOptions in
  snd (query b failingHard "prompt" options []) = [first; retry]
  /\ provider (fst (query b failingHard "prompt" options [])) = Some "lmstudio".
Proof.
  intros b options first retryOptions retry.
  destruct (query_falls_back_once b failingHard "prompt" options [] "ollama" "lmstudio"
              "connection refused") as [_ [_ [H _]]];
    try reflexivity; [discriminate|].
  destruct (H eq_refl) as [Hcalls [Hprovider _]]. split; assumption.
Defined.

End GatewayFacts.

(* ===================================================================== *)
(** * C4: recovery returns verified selectors only *)
(* ===================================================================== *)

Module RecoveryFacts.

Import ErrorRecovery.

(** A log of live tests: each entry is what [testSelector] made of the
    page, after the entries before it. *)
Inductive liveLog (page : ContentScript) : list LiveTest -> Prop :=
  | live_nil : liveLog page []
  | live_snoc log selector :
      liveLog page log ->
      liveLog page (log ++ [snd (testSelector page log selector)]).

(** The test found at least one element: the content script answered
    [{ success: true, count }] with [count > 0]. *)
Definition matchedElements (t : LiveTest) : Prop :=
  exists c, lt_outcome t = Ok (Some (mkTestResponse (Some true) (Some c))) /\ (0 < c)%Z.

(** [s] has a test in the log that found at least one element. *)
Definition verified (log : list LiveTest) (s : string) : Prop :=
  Exists (fun t => lt_selector t = s /\ matchedElements t) log.

Lemma verdict_true outcome :
  verdict outcome = true ->
  exists c, outcome = Ok (Some (mkTestResponse (Some true) (Some c))) /\ (0 < c)%Z.
Proof.
  destruct outcome as [[[[[]|] [c|]]|]|m]; simpl; try discriminate.
  intros H. exists c. split; [reflexivity|]. now apply Z.ltb_lt.
Qed.

Lemma verified_app log ext s : verified log s -> verified (log ++ ext) s.
Proof. unfold verified. intros H. apply List.Exists_app. now left. Qed.

Lemma testAlternatives_verified page alternatives ok found log :
  liveLog page log -> Forall (verified log) found ->
  liveLog page (snd (testAlternatives page alternatives (ok, found, log)))
  /\ Forall (verified (snd (testAlternatives page alternatives (ok, found, log))))
       (snd (fst (testAlternatives page alternatives (ok, found, log)))).
Proof.
  revert ok found log.
  induction alternatives as [|a alternatives IH]; intros ok found log Hlive Hfound; simpl.
  - now split.
  - pose proof (live_snoc page log a Hlive) as Hlive'. simpl in Hlive'.
    assert (Hfound' : Forall (verified (log ++ [mkLiveTest a (page log a)])) found).
    { eapply List.Forall_impl; [|exact Hfound]. intros s. apply verified_app. }
    destruct (verdict (page log a)) eqn:Hv.
    + apply IH; [exact Hlive'|].
      destruct (strIn a found); [exact Hfound'|].
      apply List.Forall_app. split; [exact Hfound'|]. constructor; [|constructor].
      apply List.Exists_app. right. constructor. split; [reflexivity|].
      unfold matchedElements. simpl. now apply verdict_true.
    + now apply IH.
Qed.

Lemma tryStrategies_verified page strategies found log :
  liveLog page log -> Forall (verified log) found ->
  liveLog page (snd (tryStrategies page strategies found log))
  /\ Forall (verified (snd (tryStrategies page strategies found log)))
       (alternativeSelectors (fst (tryStrategies page strategies found log))).
Proof.
  revert found log.
  induction strategies as [|strategy strategies IH]; intros found log Hlive Hfound;
    cbn [tryStrategies].
  - now split.
  - destruct (propose strategy log) as [[[|a alternatives]|]|m]; try now apply IH.
    pose proof (testAlternatives_verified page (a :: alternatives) false found log
                  Hlive Hfound) as Hinv.
    destruct (testAlternatives page (a :: alternatives) (false, found, log))
      as [[ok found'] log'] eqn:E.
    simpl in Hinv. destruct ok; [exact Hinv|]. now apply IH.
Qed.

(** C4.  The live tests that [attemptRecovery] makes form a log, each entry
    being the answer of the page to [testSelector] at that moment.  Every
    selector of [alternativeSelectors] has an entry in that log whose
    answer is [{ success: true, count }] with [count > 0]; hence a
    candidate whose tests all found nothing, or failed, is not among
    them. *)
Theorem alternativeSelectors_are_verified :
  forall (page : ContentScript) (fallbackStrategies : list Strategy),
    let result := fst (attemptRecovery page fallbackStrategies) in
    let log := snd (attemptRecovery page fallbackStrategies) in
    liveLog page log
    /\ Forall (verified log) (alternativeSelectors result)
    /\ (forall candidate,
          Forall (fun t => lt_selector t = candidate -> verdict (lt_outcome t) = false) log ->
          ~ In candidate (alternativeSelectors result)).
Proof.
  intros page fallbackStrategies result log.
  destruct (tryStrategies_verified page fallbackStrategies [] [] (live_nil page)
              (List.Forall_nil _)) as [Hlive Hall].
  fold (attemptRecovery page fallbackStrategies) in Hlive, Hall.
  split; [exact Hlive|]. split; [exact Hall|].
  intros candidate Hnever Hin.
  rewrite List.Forall_forall in Hall. specialize (Hall candidate Hin).
  unfold verified in Hall. apply List.Exists_exists in Hall as [t [Ht [Hsel [c [Hout Hc]]]]].
  rewrite List.Forall_forall in Hnever. specialize (Hnever t Ht Hsel).
  rewrite Hout in Hnever. simpl in Hnever. apply Z.ltb_ge in Hnever. lia.
Qed.

(** A page on which only [h1.title] matches, and a strategy that proposes
    three candidates, one of them twice. *)
Definition samplePage : ContentScript :=
  fun _ selector =>
    if String.eqb selector "h1.title" then Ok (Some (mkTestResponse (Some true) (Some 1%Z)))
    else if String.eqb selector "#gone" then Throw "Could not establish connection"
    else Ok (Some (mkTestResponse (Some true) (Some 0%Z))).

Definition sampleStrategy : Strategy :=
  mkStrategy "tryAlternativeSelectorsLLM"
    (fun _ => Ok (Some [".headline"; "h1.title"; "#gone"; "h1.title"])).

Example attemptRecovery_sample :
  fst (attemptRecovery samplePage [sampleStrategy])
  = mkRecovery true ["h1.title"] (Some "tryAlternativeSelectorsLLM").
Proof. reflexivity. Qed.

Lemma alternativeSelectors_are_verified_witness :
  ~ In ".headline" (alternativeSelectors (fst (attemptRecovery samplePage [sampleStrategy])))
  /\ ~ In "#gone" (alternativeSelectors (fst (attemptRecovery samplePage [sampleStrategy]))).
Proof.
  destruct (alternativeSelectors_are_verified samplePage [sampleStrategy]) as [_ [_ H]].
  split; apply H; vm_compute; repeat constructor; discriminate.
Defined.

End RecoveryFacts.

(* ===================================================================== *)
(** * Facts about JavaScript strings *)
(* ===================================================================== *)

Module JsStringFacts.

Import JsString.

Lemma append_cons c s t : (String c s ++ t)%string = String c (s ++ t)%string.
Proof. reflexivity. Qed.

Lemma append_nil t : (EmptyString ++ t)%string = t.
Proof. reflexivity. Qed.

Lemma startsWith_app p r : startsWith p (p ++ r) = true.
Proof.
  induction p as [|c p IH]; simpl; [reflexivity|]. now rewrite Ascii.eqb_refl, IH.
Qed.

Lemma startsWith_inv p s : startsWith p s = true -> exists r, s = (p ++ r)%string.
Proof.
  revert s. induction p as [|c p IH]; intros s; simpl.
  - intros _. now exists s.
  - destruct s as [|d s]; [discriminate|].
    intros H. apply andb_true_iff in H as [Hc Hp]. apply Ascii.eqb_eq in Hc. subst d.
    destruct (IH s Hp) as [r ->]. now exists r.
Qed.

(** A string that ends with a character that is not white space is left
    alone by [trimEnd]. *)
Lemma trimEnd_app_nonspace s c :
  isSpace c = false -> trimEnd (s ++ String c EmptyString) = (s ++ String c EmptyString)%string.
Proof.
  intros Hc. induction s as [|d s IH].
  - rewrite append_nil. simpl. now rewrite Hc.
  - rewrite append_cons. simpl. rewrite IH.
    destruct (s ++ String c EmptyString)%string eqn:E; [|reflexivity].
    destruct s; discriminate.
Qed.

Lemma length_app s t : String.length (s ++ t) = String.length s + String.length t.
Proof. induction s as [|c s IH]; simpl; [reflexivity|]. now rewrite IH. Qed.

Lemma take_app_length s t : take (String.length s) (s ++ t) = s.
Proof. induction s as [|c s IH]; simpl; [now destruct t|]. now rewrite IH. Qed.

Lemma last_snoc s c : JsString.last (s ++ String c EmptyString) = Some c.
Proof.
  induction s as [|d s IH]; [reflexivity|].
  rewrite append_cons. simpl. rewrite IH.
  destruct (s ++ String c EmptyString)%string eqn:E; [|reflexivity].
  destruct s; discriminate.
Qed.

(** [q + inner + q], for a one-character [q], loses its two ends by
    [substring(1, length - 1)]. *)
Lemma substring_inner q inner :
  substring 1 (String.length (String q (inner ++ String q EmptyString)) - 1)
    (String q (inner ++ String q EmptyString)) = inner.
Proof.
  unfold substring. simpl String.length. rewrite length_app. simpl String.length.
  replace (Nat.min 1 (S (String.length inner + 1))) with 1 by lia.
  replace (S (String.length inner + 1) - 1) with (String.length inner + 1) by lia.
  replace (Nat.min (String.length inner + 1) (S (String.length inner + 1)))
    with (String.length inner + 1) by lia.
  replace (Nat.min 1 (String.length inner + 1)) with 1 by lia.
  replace (Nat.max 1 (String.length inner + 1)) with (String.length inner + 1) by lia.
  replace (String.length inner + 1 - 1) with (String.length inner) by lia.
  simpl. apply take_app_length.
Qed.

End JsStringFacts.

(* ===================================================================== *)
(** * C8: convertSelector *)
(* ===================================================================== *)

Module SelectorFacts.

Import Selector.

(** The three characters that [convertSelector] strips. *)
Definition isQuoteChar (q : ascii) : Prop :=
  q = "`"%char \/ q = "'"%char \/ q = ascii_of_nat 34.

Lemma stripQuotes_wrapped q inner :
  isQuoteChar q ->
  TS.stripQuotes (String q (inner ++ String q EmptyString)) = inner.
Proof.
  intros Hq. unfold TS.stripQuotes.
  assert (Hsp : JsString.isSpace q = false) by (destruct Hq as [->|[->| ->]]; reflexivity).
  assert (Htrim : JsString.trim (String q (inner ++ String q EmptyString))
                  = String q (inner ++ String q EmptyString)).
  { unfold JsString.trim. simpl JsString.trimStart. rewrite Hsp.
    change (String q (inner ++ String q EmptyString))
      with ((String q inner) ++ String q EmptyString)%string.
    now apply JsStringFacts.trimEnd_app_nonspace. }
  rewrite Htrim.
  assert (Hw : TS.startsAndEndsWith backtick (String q (inner ++ String q EmptyString))
               || TS.startsAndEndsWith quote (String q (inner ++ String q EmptyString))
               || TS.startsAndEndsWith dq (String q (inner ++ String q EmptyString)) = true).
  { unfold TS.startsAndEndsWith, JsString.endsWithChar, backtick, quote, dq.
    change (String q (inner ++ String q EmptyString))
      with ((String q inner) ++ String q EmptyString)%string.
    rewrite JsStringFacts.last_snoc. simpl.
    destruct Hq as [->|[->| ->]]; reflexivity. }
  rewrite Hw. apply JsStringFacts.substring_inner.
Qed.

(** A model that answers, without error, a text that is not empty. *)
Definition answers (llm : Model) (prompt : string) (options : LLM.QueryOptions)
    (reply : string) : Prop :=
  exists r, llm prompt options = Ok (Some r)
            /\ truthyStr (LLM.error r) = false
            /\ LLM.text r = Some reply
            /\ JsString.nonEmpty reply = true.

(** C8 fails as stated for selector-agent.js: a CSS selector converted to
    CSS is sent to the model, and the model's reply is returned. *)
Lemma convertSelector_js_always_asks :
  JS.convertSelector
    (fun _ _ => Ok (Some (LLM.mkResponse (Some "div.item") None None None)))
    "system" "div" "css"
  = (mkConversion true None (Some "div") (Some "div.item") (Some "css") (Some "css"),
     [mkModelCall (JS.conversionPrompt "div" "css") (JS.conversionOptions "system")]).
Proof. reflexivity. Qed.

(** C8, amended.  In selectorAgent.ts, [convertSelector] takes the selector
    for XPath iff it begins with [/], [./] or [(], and for CSS otherwise.
    When that is the requested type it returns the selector unchanged and
    asks nothing of the model; otherwise it asks the model once, for that
    one conversion, and from a reply without error it returns the trimmed
    text, less one pair of surrounding backticks or quotes.  In
    selector-agent.js there is no such short cut: the model is asked once
    on every call, and the reply is cut at its first backtick or quote. *)
Theorem convertSelector_short_circuits
    (llm : Model) (systemPrompt selector targetType : string) :
  (TS.originalTypeOf selector = "xpath"
   <-> (exists r, selector = ("/" ++ r)%string) \/ (exists r, selector = ("./" ++ r)%string)
       \/ (exists r, selector = ("(" ++ r)%string))
  /\ (TS.originalTypeOf selector = "xpath" \/ TS.originalTypeOf selector = "css")
  /\ (TS.originalTypeOf selector = targetType ->
      TS.convertSelector llm systemPrompt selector targetType
      = (mkConversion true None (Some selector) (Some selector)
           (Some targetType) (Some targetType), []))
  /\ (TS.originalTypeOf selector <> targetType ->
      let prompt := TS.conversionPrompt selector (TS.originalTypeOf selector) targetType in
      let options := TS.conversionOptions systemPrompt in
      snd (TS.convertSelector llm systemPrompt selector targetType)
      = [mkModelCall prompt options]
      /\ forall reply, answers llm prompt options reply ->
           fst (TS.convertSelector llm systemPrompt selector targetType)
           = mkConversion true None (Some selector) (Some (TS.stripQuotes reply))
               (Some (TS.originalTypeOf selector)) (Some targetType))
  /\ (forall q inner, isQuoteChar q ->
        TS.stripQuotes (String q (inner ++ String q EmptyString)) = inner)
  /\ snd (JS.convertSelector llm systemPrompt selector targetType)
     = [mkModelCall (JS.conversionPrompt selector targetType)
          (JS.conversionOptions systemPrompt)]
  /\ (forall reply,
        answers llm (JS.conversionPrompt selector targetType)
          (JS.conversionOptions systemPrompt) reply ->
        convertedSelector (fst (JS.convertSelector llm systemPrompt selector targetType))
        = Some (JS.cleanReply reply)).
Proof.
  split; [|split; [|split; [|split; [|split; [|split]]]]].
  - unfold TS.originalTypeOf. split.
    + intros H.
      destruct (JsString.startsWith "/" selector) eqn:E1;
        [left; now apply JsStringFacts.startsWith_inv|].
      destruct (JsString.startsWith "./" selector) eqn:E2;
        [right; left; now apply JsStringFacts.startsWith_inv|].
      destruct (JsString.startsWith "(" selector) eqn:E3;
        [right; right; now apply JsStringFacts.startsWith_inv|].
      discriminate.
    + intros [[r ->]|[[r ->]|[r ->]]].
      * now rewrite JsStringFacts.startsWith_app.
      * rewrite (JsStringFacts.startsWith_app "./" r). now rewrite orb_true_r.
      * rewrite (JsStringFacts.startsWith_app "(" r). now rewrite orb_true_r.
  - unfold TS.originalTypeOf. destruct (_ || _); [now left | now right].
  - intros <-. unfold TS.convertSelector. now rewrite String.eqb_refl.
  - intros Hne prompt options. apply String.eqb_neq in Hne.
    unfold TS.convertSelector. rewrite Hne. simpl. split; [reflexivity|].
    intros reply [r [Hr [Herr [Htext Hnon]]]].
    fold prompt options. now rewrite Hr, Herr, Htext, Hnon.
  - intros q inner Hq. now apply stripQuotes_wrapped.
  - reflexivity.
  - intros reply [r [Hr [_ [Htext Hnon]]]].
    unfold JS.convertSelector. simpl. now rewrite Hr, Htext, Hnon.
Qed.

Lemma convertSelector_short_circuits_witness :
  TS.convertSelector (fun _ _ => Throw "never asked") "system" "//div[@id]" "xpath"
  = (mkConversion true None (Some "//div[@id]") (Some "//div[@id]")
       (Some "xpath") (Some "xpath"), [])
  /\ fst (TS.convertSelector
            (fun _ _ => Ok (Some (LLM.mkResponse (Some " `//div` ") None None None)))
            "system" "div" "xpath")
     = mkConversion true None (Some "div") (Some "//div") (Some "css") (Some "xpath").
Proof.
  split.
  - destruct (convertSelector_short_circuits (fun _ _ => Throw "never asked")
                "system" "//div[@id]" "xpath") as [_ [_ [H _]]].
    apply H. reflexivity.
  - destruct (convertSelector_short_circuits
                (fun _ _ => Ok (Some (LLM.mkResponse (Some " `//div` ") None None None)))
                "system" "div" "xpath") as [_ [_ [_ [H _]]]].
    destruct H as [_ H]; [discriminate|].
    rewrite (H " `//div` "); [reflexivity|].
    eexists. repeat split; reflexivity.
Defined.

End SelectorFacts.

(* ===================================================================== *)
(** * C1: what the orchestrator returns when a stage throws *)
(* ===================================================================== *)

Module OrchestratorFacts.

Import Orchestrator.

(** Agents of orchestrator.js whose page is fetched and whose planner
    throws; the other agents are never reached. *)
Definition plannerDown : JS.Agents unit :=
  JS.mkAgents unit
    (fun w _ => (Ok (Some (mkOffscreen true (Some "<h1>Hello</h1>") None)), w))
    (fun w _ _ _ => (Throw "model unreachable", w))
    (fun w p _ => (Ok p, w))
    (fun w _ _ => (Ok (JS.mkExtraction ∅ []), w))
    (fun w _ _ _ _ _ => (Ok (JS.mkRecovery false []), w))
    (fun w _ => (Ok (JS.mkDetails None None), w))
    (fun w _ _ => (Ok None, w))
    (fun w _ _ => (Ok (∅, []), w)).

(** C1 fails as stated for orchestrator.js: the entry added by the
    top-level [catch] has the message under [error]; it has no [issue]. *)
Lemma orchestration_entry_has_no_issue_field :
  let result := fst (JS.processRequest plannerDown "extract the title" "https://x.com" 1%Z tt) in
  success result = false
  /\ issues result
     = [mkIssue (Some "orchestration") None None (Some "model unreachable") None None None]
  /\ List.map issue (issues result) = [None].
Proof. vm_compute. repeat split; reflexivity. Qed.

(** The entries that the two [catch] blocks add. *)
Definition entryJS (msg : string) : Issue :=
  mkIssue (Some "orchestration") None None (Some msg) None None None.
Definition entryTS (msg : string) : Issue :=
  mkIssue (Some "orchestration") (Some "N/A") (Some msg) None None None None.

(** The result of a failure with message [msg] in the state [v]. *)
Definition failure {PlanT : Type} (tag : Validator.ValidationIssue -> Issue)
    (entry : Issue) (msg : string) (v : Vars PlanT) : OrchestrationResult PlanT :=
  mkOrchestration false (Some ("Orchestration failed: " +:+ msg))
    (v_plan v) (v_finalSelectors v) (v_validatedData v)
    (v_extractionErrors v ++ List.map tag (v_validationIssues v) ++ [entry]).

Ltac run_block :=
  unfold JS.processRequest, TS.processRequest, tryBlock, JS.block, TS.block,
    bind, await, setVars, getVars, throw, ret, fetchHtmlSample; simpl.

(** C1, amended.  Whenever the [try] block of [processRequest] throws, with
    message [msg] and the variables in state [v], the result has
    [success: false]; its [plan], [selectors] and [data] are the values of
    [plan], [finalSelectors] and [validatedData] in [v]; its [issues] are
    the extraction errors and the validation issues of [v], followed by
    one entry of type ['orchestration'] that carries [msg]: under [error]
    in orchestrator.js, under [issue] (with [dpId: 'N/A'], and the
    validation issues tagged ['validation']) in orchestrator.ts.  So, when
    the page is fetched and the planner throws, [plan] is [null] and
    [selectors], [data] are empty; when the planner answers a plan without
    key fields (orchestrator.ts) or without data points (orchestrator.js),
    that plan is returned. *)
Theorem processRequest_returns_partial_state
    (W : Type) (w w1 w2 : W)
    (jsAgents : JS.Agents W) (tsAgents : TS.Agents W)
    (instruction targetUrl msg html : string) (tabId : Z) (tab : option Z)
    (v1 : Vars JS.Plan) (v2 : Vars TS.Plan) (noPoints : JS.Plan) (failed : TS.Plan) :
  (JS.block jsAgents instruction targetUrl tabId (initialVars, w) = (Throw msg, (v1, w1)) ->
   JS.processRequest jsAgents instruction targetUrl tabId w
   = (failure ofValidation (entryJS msg) msg v1, w1))
  /\ (TS.block tsAgents instruction targetUrl tab (initialVars, w) = (Throw msg, (v2, w2)) ->
      TS.processRequest tsAgents instruction targetUrl tab w
      = (failure tagValidation (entryTS msg) msg v2, w2))
  /\ (JS.sendMessageToOffscreen jsAgents w targetUrl
      = (Ok (Some (mkOffscreen true (Some html) None)), w1) ->
      (JS.createPlan jsAgents w1 instruction targetUrl html = (Throw msg, w2) ->
       JS.processRequest jsAgents instruction targetUrl tabId w
       = (mkOrchestration false (Some ("Orchestration failed: " +:+ msg)) None ∅ ∅
            [entryJS msg], w2))
      /\ (JS.createPlan jsAgents w1 instruction targetUrl html = (Ok (Some noPoints), w2) ->
          JS.dataPoints noPoints = None \/ JS.dataPoints noPoints = Some [] ->
          JS.processRequest jsAgents instruction targetUrl tabId w
          = (mkOrchestration false
               (Some "Orchestration failed: Planning failed: No data points were identified.")
               (Some noPoints) ∅ ∅
               [entryJS "Planning failed: No data points were identified."], w2)))
  /\ (TS.sendMessageToOffscreen tsAgents w targetUrl
      = (Ok (Some (mkOffscreen true (Some html) None)), w1) ->
      (TS.createExtractionPlan tsAgents w1 targetUrl instruction html = (Throw msg, w2) ->
       TS.processRequest tsAgents instruction targetUrl tab w
       = (mkOrchestration false (Some ("Orchestration failed: " +:+ msg)) None ∅ ∅
            [entryTS msg], w2))
      /\ (TS.createExtractionPlan tsAgents w1 targetUrl instruction html = (Ok failed, w2) ->
          Planner.success failed = false ->
          Planner.error failed = Some msg -> JsString.nonEmpty msg = true ->
          TS.processRequest tsAgents instruction targetUrl tab w
          = (mkOrchestration false
               (Some ("Orchestration failed: Planning failed: " +:+ msg))
               (Some failed) ∅ ∅ [entryTS ("Planning failed: " +:+ msg)], w2))).
Proof.
  split; [|split; [|split]].
  - intros H. unfold JS.processRequest, tryBlock. now rewrite H.
  - intros H. unfold TS.processRequest, tryBlock. now rewrite H.
  - intros Hfetch. split.
    + intros Hplan. run_block. rewrite Hfetch. simpl. now rewrite Hplan.
    + intros Hplan Hnone. run_block. rewrite Hfetch. simpl. rewrite Hplan. simpl.
      destruct noPoints as [[[|dp dps]|]]; simpl in *;
        try reflexivity; destruct Hnone; discriminate.
  - intros Hfetch. split.
    + intros Hplan. run_block. rewrite Hfetch. simpl. now rewrite Hplan.
    + intros Hplan Hfail Herr Hmsg. run_block. rewrite Hfetch. simpl. rewrite Hplan. simpl.
      rewrite Hfail. simpl. unfold truthyStr. rewrite Herr, Hmsg. reflexivity.
Qed.

(** Agents of orchestrator.ts whose page is fetched and whose planner
    throws. *)
Definition plannerDownTS : TS.Agents unit :=
  TS.mkAgents unit
    (fun w _ => (Ok (Some (mkOffscreen true (Some "<h1>Hello</h1>") None)), w))
    (fun w _ _ _ => (Throw "model unreachable", w))
    (fun w _ _ => (Ok (TS.mkSelectorResult true ["h1"] [] None), w))
    (fun w _ _ => (Ok tt, w))
    (fun w _ => (Ok tt, w))
    (fun w _ _ _ => (Ok (∅, []), w)).

Lemma processRequest_returns_partial_state_witness :
  JS.processRequest plannerDown "extract the title" "https://x.com" 1%Z tt
  = (mkOrchestration false (Some "Orchestration failed: model unreachable") None ∅ ∅
       [entryJS "model unreachable"], tt)
  /\ TS.processRequest plannerDownTS "extract the title" "https://x.com" (Some 1%Z) tt
     = (mkOrchestration false (Some "Orchestration failed: model unreachable") None ∅ ∅
          [entryTS "model unreachable"], tt).
Proof.
  destruct (processRequest_returns_partial_state unit tt tt tt plannerDown plannerDownTS
              "extract the title" "https://x.com" "model unreachable" "<h1>Hello</h1>"
              1%Z (Some 1%Z) initialVars initialVars (JS.mkPlan None)
              (Planner.failedPlan "unused"))
    as [_ [_ [Hjs Hts]]].
  split.
  - apply Hjs; reflexivity.
  - apply Hts; reflexivity.
Defined.

(** Agents of orchestrator.ts whose validator throws, once the plan and
    the selectors are there. *)
Definition validatorDownTS : TS.Agents unit :=
  TS.mkAgents unit
    (fun w _ => (Ok (Some (mkOffscreen true (Some "<h1>Hello</h1>") None)), w))
    (fun w _ _ _ =>
       (Ok (Planner.mkPlan true None [Planner.mkField "title" "string"] ["h1"] None []), w))
    (fun w _ _ => (Ok (TS.mkSelectorResult true ["h1"] [] None), w))
    (fun w _ _ => (Ok tt, w))
    (fun w _ => (Ok tt, w))
    (fun w _ _ _ => (Throw "validator crashed", w)).

(** The plan and the selectors gathered before the failure are returned. *)
Example processRequest_keeps_plan_and_selectors :
  fst (TS.processRequest validatorDownTS "extract the title" "https://x.com" (Some 1%Z) tt)
  = mkOrchestration false (Some "Orchestration failed: validator crashed")
      (Some (Planner.mkPlan true None [Planner.mkField "title" "string"] ["h1"] None []))
      {[ "title" := Some "h1" ]} ∅
      [TS.extractionIssue; entryTS "validator crashed"].
Proof. vm_compute. reflexivity. Qed.

End OrchestratorFacts.

(* ===================================================================== *)
(** * C10: what becomes of a list field *)
(* ===================================================================== *)

Module ListFacts.

Import Validator ValidatorFacts.

(** Case analysis on the tests and matches of a cleaner. *)
Ltac split_cases :=
  repeat (simpl in *;
          match goal with
          | |- context [if ?b then _ else _] => destruct b eqn:?
          | |- context [match ?x with _ => _ end] => destruct x eqn:?
          end).

(** A cleaner answers [null] to [null] and [undefined], and to nothing
    else. *)
Lemma JS_clean_nullish P t d ty item :
  isNullish item = true -> JS.cleanAndValidateItem P t d ty item = (VNull, []).
Proof. intros H. unfold JS.cleanAndValidateItem. now rewrite H. Qed.

Lemma JS_clean_not_nullish P t d ty item :
  isNullish item = false -> isNullish (fst (JS.cleanAndValidateItem P t d ty item)) = false.
Proof.
  intros H. unfold JS.cleanAndValidateItem. rewrite H.
  destruct item; try discriminate; split_cases; reflexivity.
Qed.

Lemma TS_clean_nullish P t d ty item :
  isNullish item = true -> TS.cleanAndValidateItem P t d ty item = Ok (VNull, []).
Proof. intros H. unfold TS.cleanAndValidateItem. now rewrite H. Qed.

Lemma TS_clean_not_nullish P t d ty item v i :
  isNullish item = false -> TS.cleanAndValidateItem P t d ty item = Ok (v, i) ->
  isNullish v = false.
Proof.
  intros H. unfold TS.cleanAndValidateItem. rewrite H.
  destruct item; try discriminate; split_cases; intros [= <- <-]; reflexivity.
Qed.

(** An item and what a cleaner makes of it. *)
Definition cleanedFrom (item cleaned : JsVal) : Prop :=
  (isNullish item = true /\ cleaned = VNull)
  \/ (isNullish item = false /\ isNullish cleaned = false).

Definition noCount (i : ValidationIssue) : Prop := originalCount i = None.

Lemma JS_clean_cleanedFrom P t d ty item :
  cleanedFrom item (fst (JS.cleanAndValidateItem P t d ty item)).
Proof.
  destruct (isNullish item) eqn:E.
  - left. now rewrite JS_clean_nullish.
  - right. split; [exact E|]. now apply JS_clean_not_nullish.
Qed.

Lemma JS_clean_noCount P t d ty item :
  Forall noCount (snd (JS.cleanAndValidateItem P t d ty item)).
Proof.
  unfold JS.cleanAndValidateItem.
  destruct item; split_cases; repeat constructor.
Qed.

Lemma TS_clean_noCount P t d ty item v i :
  TS.cleanAndValidateItem P t d ty item = Ok (v, i) -> Forall noCount i.
Proof.
  unfold TS.cleanAndValidateItem.
  destruct item; split_cases; intros [= <- <-]; repeat constructor.
Qed.

Lemma JS_cleanItems_spec P t d ty items :
  Forall2 cleanedFrom items (fst (JS.cleanItems P t d ty items))
  /\ Forall noCount (snd (JS.cleanItems P t d ty items))
  /\ (forallb isNullish items = true -> snd (JS.cleanItems P t d ty items) = []).
Proof.
  induction items as [|x items [IH1 [IH2 IH3]]]; simpl.
  - repeat split; constructor.
  - pose proof (JS_clean_cleanedFrom P t d ty x) as Hx.
    pose proof (JS_clean_noCount P t d ty x) as Hn.
    destruct (JS.cleanAndValidateItem P t d ty x) as [x' i1] eqn:Ex.
    destruct (JS.cleanItems P t d ty items) as [r' i2]. simpl in *.
    split; [now constructor|]. split; [now apply List.Forall_app|].
    intros H. apply andb_true_iff in H as [Hx0 Hr].
    rewrite (JS_clean_nullish P t d ty x Hx0) in Ex. injection Ex as <- <-.
    now rewrite (IH3 Hr).
Qed.

Lemma TS_cleanItems_spec P t d ty items cleaned i :
  TS.cleanItems P t d ty items = Ok (cleaned, i) ->
  Forall2 cleanedFrom items cleaned /\ Forall noCount i.
Proof.
  revert cleaned i. induction items as [|x items IH]; intros cleaned i; simpl.
  - intros [= <- <-]. split; constructor.
  - unfoldR.
    destruct (TS.cleanAndValidateItem P t d ty x) as [[x' i1]|e] eqn:Ex; [|discriminate].
    destruct (TS.cleanItems P t d ty items) as [[r' i2]|e]; [|discriminate].
    intros [= <- <-]. destruct (IH r' i2 eq_refl) as [IH1 IH2]. split.
    + constructor; [|exact IH1]. destruct (isNullish x) eqn:E.
      * left. rewrite (TS_clean_nullish P t d ty x E) in Ex. injection Ex as <- <-.
        now split.
      * right. split; [exact E|]. exact (TS_clean_not_nullish P t d ty x x' i1 E Ex).
    + apply List.Forall_app. split; [|exact IH2].
      exact (TS_clean_noCount P t d ty x x' i1 Ex).
Qed.

(** What is kept of the cleaned items: neither [null] nor [undefined], not
    more than there were items, and nothing only if every item was
    [null] or [undefined].  The two agents filter by different tests, with
    the same effect. *)
Lemma kept_spec items cleaned :
  Forall2 cleanedFrom items cleaned ->
  List.filter isNotNull cleaned = List.filter (fun v => negb (isNullish v)) cleaned
  /\ Forall (fun v => isNullish v = false) (List.filter isNotNull cleaned)
  /\ List.length (List.filter isNotNull cleaned) <= List.length items
  /\ (List.filter isNotNull cleaned = [] <-> forallb isNullish items = true).
Proof.
  induction 1 as [|x y items cleaned Hxy _ [IH1 [IH2 [IH3 IH4]]]]; simpl.
  - repeat split; try constructor; reflexivity.
  - destruct Hxy as [[Hx ->]|[Hx Hy]]; simpl.
    + rewrite Hx. simpl. repeat split; try assumption; try lia; apply IH4.
    + rewrite Hx, Hy. simpl.
      assert (Hnn : isNotNull y = true) by (destruct y; try reflexivity; discriminate).
      rewrite Hnn. repeat split.
      * now rewrite IH1.
      * now constructor.
      * simpl. lia.
      * discriminate.
      * discriminate.
Qed.

(** Step 1 leaves a list field with an array: the raw array itself when
    there is one. *)
Lemma reconcile_list raw dp :
  dp_isList dp = true ->
  exists items0 i1,
    reconcileShape (dp_id dp) true (initialData raw dp) = (VArr items0, i1)
    /\ Forall noCount i1
    /\ (forall items, raw !! dp_id dp = Some (VArr items) -> items0 = items /\ i1 = [])
    /\ (forall v, raw !! dp_id dp = Some v -> isArray v = false ->
           (isNullish v = true /\ items0 = []) \/ (isNullish v = false /\ items0 = [v]))
    /\ (raw !! dp_id dp = None -> items0 = [] /\ i1 = []).
Proof.
  intros Hl. unfold initialData. rewrite Hl.
  destruct (raw !! dp_id dp) as [v|] eqn:Hraw.
  - destruct v; simpl; eexists _, _; (split; [reflexivity|]);
      (split; [repeat (apply List.Forall_cons; [reflexivity|]); apply List.Forall_nil|]);
      (split; [intros its Heq; inversion Heq; subst; split; reflexivity|]);
      (split; [intros v0 Heq Ha; inversion Heq; subst; try discriminate; auto|discriminate]).
  - exists [], []. simpl. repeat split; try apply List.Forall_nil; discriminate.
Qed.

(** The list field in validator-agent.js. *)
Lemma JS_list_field P raw t dp :
  dp_isList dp = true ->
  exists kept,
    fst (JS.validateDataPoint P raw t dp) = VArr kept
    /\ Forall (fun v => isNullish v = false) kept
    /\ (forall items, raw !! dp_id dp = Some (VArr items) ->
          List.length kept <= List.length items
          /\ (items <> [] -> kept = [] ->
              snd (JS.validateDataPoint P raw t dp)
              = [mkIssue (dp_id dp) "List empty after validation/cleaning." None
                   (Some (List.length items))])).
Proof.
  intros Hl. destruct (reconcile_list raw dp Hl) as [items0 [i1 [Hrec [_ [Harr _]]]]].
  unfold JS.validateDataPoint. rewrite Hl, Hrec.
  destruct (JS_cleanItems_spec P t (dp_id dp) (dp_type dp) items0) as [Hc [_ Hnone]].
  destruct (JS.cleanItems P t (dp_id dp) (dp_type dp) items0) as [cleaned i2]. simpl in *.
  destruct (kept_spec items0 cleaned Hc) as [_ [Hnn [Hlen Hempty]]].
  exists (List.filter isNotNull cleaned). split; [reflexivity|]. split; [exact Hnn|].
  intros items Hraw. destruct (Harr items Hraw) as [-> ->]. split; [exact Hlen|].
  intros Hne Hkept. rewrite Hkept. simpl.
  rewrite (Hnone (proj1 Hempty Hkept)). simpl.
  unfold JS.rawLengthPositive, getProp. rewrite Hraw. simpl.
  destruct items as [|x items]; [contradiction|]. reflexivity.
Qed.

(** The list field in validatorAgent.ts. *)
Lemma TS_list_field P raw t dp v issues :
  dp_isList dp = true ->
  TS.validateDataPoint P raw t dp = Ok (v, issues) ->
  exists kept,
    v = VArr kept
    /\ Forall (fun v => isNullish v = false) kept
    /\ (forall items, raw !! dp_id dp = Some (VArr items) ->
          List.length kept <= List.length items)
    /\ Forall noCount issues
    /\ (kept = [] -> TS.isOptional dp = false ->
        In (issueOn (dp_id dp) "Required item is missing, null, or empty after validation."
              (VArr [])) issues).
Proof.
  intros Hl. destruct (reconcile_list raw dp Hl) as [items0 [i1 [Hrec [Hn1 [Harr [Hwrap Hnone]]]]]].
  unfold TS.validateDataPoint. rewrite Hl, Hrec. unfoldR.
  destruct (TS.cleanItems P t (dp_id dp) (JsString.toLowerCase (dp_type dp)) items0)
    as [[cleaned i2]|e] eqn:Hclean; [|discriminate].
  destruct (TS_cleanItems_spec P t _ _ items0 cleaned i2 Hclean) as [Hc Hn2].
  destruct (kept_spec items0 cleaned Hc) as [Hsame [Hnn [Hlen Hempty]]].
  rewrite <- Hsame. set (kept := List.filter isNotNull cleaned) in *.
  assert (Hquiet :
    ((0 <? List.length items0)%nat && (List.length kept =? 0)%nat = true ->
     TS.notEveryNullish raw (dp_id dp) = Ok false)).
  { intros H. apply andb_true_iff in H as [Hpos Hzero].
    apply Nat.ltb_lt in Hpos. apply Nat.eqb_eq in Hzero.
    assert (Hk : kept = []) by (destruct kept; [reflexivity|discriminate]).
    apply Hempty in Hk. unfold TS.notEveryNullish, getProp.
    destruct (raw !! dp_id dp) as [x|] eqn:Hraw.
    - destruct (isArray x) eqn:Ha.
      + destruct x; try discriminate. destruct (Harr items eq_refl) as [-> _].
        now rewrite Hk.
      + destruct (Hwrap x eq_refl Ha) as [[_ ->]|[Hx ->]].
        * simpl in Hpos. lia.
        * simpl in Hk. rewrite Hx in Hk. discriminate.
    - destruct (Hnone eq_refl) as [-> _]. simpl in Hpos. lia. }
  assert (Hstep :
    (if (0 <? List.length items0)%nat && (List.length kept =? 0)%nat
     then match TS.notEveryNullish raw (dp_id dp) with
          | Ok b =>
              if b then
                Ok (VArr kept,
                    i2 ++ [mkIssue (dp_id dp) "List empty after validation/cleaning." None
                             (Some (List.length items0))])
              else Ok (VArr kept, i2)
          | Throw m => Throw m
          end
     else Ok (VArr kept, i2)) = Ok (VArr kept, i2)).
  { destruct ((0 <? List.length items0)%nat && (List.length kept =? 0)%nat) eqn:Hc0;
      [|reflexivity]. now rewrite (Hquiet eq_refl). }
  rewrite Hstep. intros [= <- <-].
  exists kept. split; [reflexivity|]. split; [exact Hnn|]. split; [|split].
  - intros items Hraw. now destruct (Harr items Hraw) as [-> _].
  - apply List.Forall_app. split; [exact Hn1|]. apply List.Forall_app. split; [exact Hn2|].
    destruct (negb (TS.isOptional dp) && _);
      [apply List.Forall_cons; [reflexivity|apply List.Forall_nil] | apply List.Forall_nil].
  - intros -> Hopt. rewrite Hopt. simpl. apply in_or_app. right. apply in_or_app. right.
    now left.
Qed.

Lemma In_concat_map {A B : Type} (f : A -> list B) (l : list A) (a : A) (b : B) :
  In a l -> In b (f a) -> In b (concat (List.map f l)).
Proof.
  intros Ha Hb. apply in_concat. exists (f a). split; [|exact Hb].
  apply in_map_iff. now exists a.
Qed.

Lemma Forall2_In_left {A B : Type} (R : A -> B -> Prop) (l : list A) (l' : list B) (a : A) :
  Forall2 R l l' -> In a l -> exists b, In b l' /\ R a b.
Proof.
  induction 1 as [|x y l l' Hxy _ IH]; simpl; [easy|].
  intros [->|Hin].
  - exists y. split; [now left|exact Hxy].
  - destruct (IH Hin) as [b [Hb Hab]]. exists b. split; [now right|exact Hab].
Qed.

Definition tagsField (notes : option string) : DataPoint :=
  mkDataPoint "tags" "string" true notes.

Definition nullTags : gmap string JsVal := {[ "tags" := VArr [VNull; VUndefined] ]}.




Example JS_emptied_list_has_count_issue :
  JS.validateData RefPlatform.platform (Some nullTags)
    (Some (mkPlan (Some [tagsField None]) None))
  = Ok (mkResult {[ "tags" := VArr [] ]}
          [mkIssue "tags" "List empty after validation/cleaning." None (Some 2)] None None).
Proof. vm_compute. reflexivity. Qed.

End ListFacts.

(* ===================================================================== *)
(** * White-space normalisation is idempotent *)
(* ===================================================================== *)

Module NormalizeFacts.

Import JsString.

(** The string does not begin with white space. *)
Definition startsClean (s : string) : bool :=
  match s with
  | EmptyString => true
  | String c _ => negb (isSpace c)
  end.

(** The string does not end with white space. *)
Fixpoint endsClean (s : string) : bool :=
  match s with
  | EmptyString => true
  | String c EmptyString => negb (isSpace c)
  | String _ r => endsClean r
  end.

(** The string holds no white space. *)
Fixpoint noSpace (s : string) : bool :=
  match s with
  | EmptyString => true
  | String c r => negb (isSpace c) && noSpace r
  end.

Lemma trimStart_startsClean s : startsClean (trimStart s) = true.
Proof.
  induction s as [|c s IH]; simpl; [reflexivity|].
  destruct (isSpace c) eqn:E; [exact IH|]. simpl. now rewrite E.
Qed.

Lemma trimStart_fix s : startsClean s = true -> trimStart s = s.
Proof.
  destruct s as [|c s]; simpl; [reflexivity|].
  intros H. apply negb_true_iff in H. now rewrite H.
Qed.

Lemma trimEnd_startsClean s : startsClean s = true -> startsClean (trimEnd s) = true.
Proof.
  destruct s as [|c s]; simpl; [reflexivity|]. intros H.
  destruct (trimEnd s); simpl; [|exact H].
  apply negb_true_iff in H. rewrite H. simpl. now rewrite H.
Qed.

Lemma trimEnd_endsClean s : endsClean (trimEnd s) = true.
Proof.
  induction s as [|c s IH]; simpl; [reflexivity|].
  destruct (trimEnd s) as [|d r] eqn:E.
  - destruct (isSpace c) eqn:Ec; simpl; [reflexivity|now rewrite Ec].
  - exact IH.
Qed.

Lemma trimEnd_fix s : endsClean s = true -> trimEnd s = s.
Proof.
  induction s as [|c s IH]; simpl; [reflexivity|].
  destruct s as [|d r].
  - simpl. intros H. apply negb_true_iff in H. now rewrite H.
  - intros H. rewrite (IH H). reflexivity.
Qed.

Lemma space_isSpace : isSpace space = true.
Proof. reflexivity. Qed.

(** Collapsing again changes nothing. *)
Lemma collapseFrom_idem s :
  (forall b, collapseFrom false (collapseFrom b s) = collapseFrom b s)
  /\ collapseFrom true (collapseFrom true s) = collapseFrom true s.
Proof.
  induction s as [|c s [IH1 IH2]]; simpl; [now split|].
  destruct (isSpace c) eqn:E; split.
  - intros [|]; [apply IH1|]. simpl. now rewrite IH2.
  - exact IH2.
  - intros b. simpl. rewrite E. now rewrite IH1.
  - simpl. rewrite E. now rewrite IH1.
Qed.

Lemma collapse_startsClean s :
  startsClean s = true -> startsClean (collapseFrom false s) = true.
Proof.
  destruct s as [|c s]; simpl; [reflexivity|]. intros H.
  apply negb_true_iff in H. rewrite H. simpl. now rewrite H.
Qed.

Lemma endsClean_cons c t : t <> EmptyString -> endsClean (String c t) = endsClean t.
Proof. destruct t; [contradiction|reflexivity]. Qed.

Lemma collapseFrom_cons b c t :
  collapseFrom b (String c t)
  = if isSpace c
    then (if b then collapseFrom true t else String space (collapseFrom true t))
    else String c (collapseFrom false t).
Proof. reflexivity. Qed.

(** Collapsing keeps a clean end, and something of a string that has one. *)
Lemma collapse_endsClean s :
  endsClean s = true ->
  forall b, endsClean (collapseFrom b s) = true
            /\ (s <> EmptyString -> collapseFrom b s <> EmptyString).
Proof.
  induction s as [|c s IH]; [now split|].
  destruct s as [|d r].
  - simpl. intros H b. apply negb_true_iff in H. rewrite H. simpl. rewrite H.
    split; [reflexivity|discriminate].
  - intros H b. rewrite endsClean_cons in H by discriminate. specialize (IH H).
    remember (String d r) as u eqn:Hu.
    assert (Hne : u <> EmptyString) by (rewrite Hu; discriminate).
    rewrite collapseFrom_cons.
    destruct (isSpace c) eqn:E; [destruct b|].
    + destruct (IH true) as [H1 H2]. split; [exact H1|]. intros _. now apply H2.
    + destruct (IH true) as [H1 H2]. split; [|discriminate].
      rewrite endsClean_cons; [exact H1|now apply H2].
    + destruct (IH false) as [H1 H2]. split; [|discriminate].
      rewrite endsClean_cons; [exact H1|now apply H2].
Qed.

(** [s.trim().replace(/\s+/g, ' ')] applied twice is applied once. *)
Lemma normalizeSpaces_idem s : normalizeSpaces (normalizeSpaces s) = normalizeSpaces s.
Proof.
  unfold normalizeSpaces, collapseSpaces, trim.
  set (t := trimEnd (trimStart s)).
  assert (Hs : startsClean t = true)
    by (apply trimEnd_startsClean, trimStart_startsClean).
  assert (He : endsClean t = true) by apply trimEnd_endsClean.
  rewrite (trimStart_fix _ (collapse_startsClean t Hs)).
  rewrite (trimEnd_fix _ (proj1 (collapse_endsClean t He false))).
  apply (proj1 (collapseFrom_idem t)).
Qed.

Lemma noSpace_startsClean s : noSpace s = true -> startsClean s = true.
Proof.
  destruct s; simpl; [reflexivity|]. intros H. now apply andb_true_iff in H as [H _].
Qed.

Lemma noSpace_endsClean s : noSpace s = true -> endsClean s = true.
Proof.
  induction s as [|c s IH]; simpl; [reflexivity|]. intros H.
  apply andb_true_iff in H as [Hc Hs]. destruct s; [exact Hc|now apply IH].
Qed.

Lemma noSpace_collapse s : noSpace s = true -> collapseFrom false s = s.
Proof.
  induction s as [|c s IH]; simpl; [reflexivity|]. intros H.
  apply andb_true_iff in H as [Hc Hs]. apply negb_true_iff in Hc. rewrite Hc.
  now rewrite IH.
Qed.

(** A string without white space is its own normal form. *)
Lemma noSpace_normal s : noSpace s = true -> normalizeSpaces s = s.
Proof.
  intros H. unfold normalizeSpaces, collapseSpaces, trim.
  rewrite (trimStart_fix _ (noSpace_startsClean s H)).
  rewrite (trimEnd_fix _ (noSpace_endsClean s H)).
  now apply noSpace_collapse.
Qed.

Lemma noSpace_app s t : noSpace s = true -> noSpace t = true -> noSpace (s ++ t) = true.
Proof.
  intros Hs Ht. induction s as [|c s IH]; [exact Ht|].
  rewrite JsStringFacts.append_cons. simpl in *.
  apply andb_true_iff in Hs as [Hc Hs]. now rewrite Hc, IH.
Qed.

End NormalizeFacts.

(* ===================================================================== *)
(** * C5: validating validated data *)
(* ===================================================================== *)

Module Idempotence.

Import Validator ValidatorFacts ListFacts.

(** What the specification of the platform promises and the proof uses:
    the [href] of a URL and the ISO rendering of a date hold no white space
    to normalise, the ISO rendering of a date parses to that date, and a
    number is printed without white space. *)
Record PlatformLaws (P : Platform) : Prop := mkLaws {
  href_normal :
    forall input base url, URL_new P input base = Ok url ->
      JsString.normalizeSpaces (href url) = href url;
  date_normal :
    forall v iso, (forall d, v <> VDate d) -> Date_new P v = Some iso ->
      JsString.normalizeSpaces iso = iso /\ Date_new P (VStr iso) = Some iso;
  number_normal :
    forall n, JsString.normalizeSpaces (Number_toString P n) = Number_toString P n
}.

(** A scalar of the extracted data: not an array, not a Date object. *)
Definition scalar (v : JsVal) : bool :=
  match v with
  | VArr _ | VDate _ => false
  | _ => true
  end.

(** Flat data: a scalar, or an array of scalars. *)
Definition flatValue (v : JsVal) : bool :=
  match v with
  | VArr l => forallb scalar l
  | _ => scalar v
  end.

(** Use the equations gathered by the case analysis of a first run to
    decide the tests of the second. *)
Ltac reuse :=
  repeat match goal with
         | H : ?t = _ |- context [?t] => rewrite H
         end.

Ltac cases_in H :=
  repeat (simpl in H;
          match type of H with
          | context [if ?b then _ else _] => destruct b eqn:?
          | context [match ?y with _ => _ end] => destruct y eqn:?
          end).

Section Laws.

Context (P : Platform) (L : PlatformLaws P).

(** Apply the laws of the platform to what the first run obtained. *)
Ltac use_laws :=
  repeat rewrite (number_normal P L);
  repeat match goal with
         | H : URL_new P _ _ = Ok ?u |- context [JsString.normalizeSpaces (href ?u)] =>
             rewrite (href_normal P L _ _ _ H)
         | H : Date_new P ?v = Some ?s |- context [JsString.normalizeSpaces ?s] =>
             let Hn := fresh "Hn" in
             let Hd := fresh "Hd" in
             assert (Hnd : forall d0, v <> VDate d0) by (intros d0; discriminate);
             destruct (date_normal P L v s Hnd H) as [Hn Hd];
             rewrite Hn, Hd; clear Hnd
         end.

Lemma JS_clean_idem t d ty x c i :
  scalar x = true ->
  JS.cleanAndValidateItem P t d ty x = (c, i) ->
  scalar c = true
  /\ fst (JS.cleanAndValidateItem P t d ty c) = c
  /\ (i = [] -> snd (JS.cleanAndValidateItem P t d ty c) = []).
Proof.
  intros Hx H. unfold JS.cleanAndValidateItem in H.
  destruct x; try discriminate; cases_in H; injection H as <- <-.
  all: unfold JS.cleanAndValidateItem; simpl;
    rewrite ?NormalizeFacts.normalizeSpaces_idem; use_laws; reuse; simpl; reuse; simpl.
  all: repeat split; (reflexivity || discriminate).
Qed.

Lemma TS_clean_idem t d ty x c i :
  scalar x = true ->
  TS.cleanAndValidateItem P t d ty x = Ok (c, i) ->
  scalar c = true
  /\ exists i', TS.cleanAndValidateItem P t d ty c = Ok (c, i') /\ (i = [] -> i' = []).
Proof.
  intros Hx H. unfold TS.cleanAndValidateItem in H.
  destruct x; try discriminate; cases_in H; injection H as <- <-.
  all: unfold TS.cleanAndValidateItem; simpl;
    rewrite ?NormalizeFacts.normalizeSpaces_idem; use_laws; reuse; simpl; reuse; simpl.
  all: split; [reflexivity|]; eexists; split; [reflexivity|]; (reflexivity || discriminate).
Qed.

(** On a scalar the cleaner of validatorAgent.ts does not throw. *)
Lemma TS_clean_total t d ty x :
  scalar x = true -> exists c i, TS.cleanAndValidateItem P t d ty x = Ok (c, i).
Proof.
  intros Hx. unfold TS.cleanAndValidateItem.
  destruct x; try discriminate; split_cases; eauto.
Qed.

End Laws.

(* --------------------------------------------------------------------- *)
(** ** Fields and plans *)
(* --------------------------------------------------------------------- *)

Section Fields.
Context (P : Platform) (L : PlatformLaws P).

Lemma scalar_not_array v : scalar v = true -> isArray v = false.
Proof. now destruct v. Qed.

Lemma flat_scalar v : flatValue v = true -> isArray v = false -> scalar v = true.
Proof. now destruct v. Qed.

(** The ids of the issues of a cleaner. *)
Definition about (d : string) (i : ValidationIssue) : Prop := dpId i = d.

Lemma JS_clean_about t d ty item :
  Forall (about d) (snd (JS.cleanAndValidateItem P t d ty item)).
Proof.
  unfold JS.cleanAndValidateItem.
  destruct item; split_cases;
    repeat (apply List.Forall_cons; [reflexivity|]); apply List.Forall_nil.
Qed.

Lemma JS_cleanItems_about t d ty items :
  Forall (about d) (snd (JS.cleanItems P t d ty items)).
Proof.
  induction items as [|x items IH]; simpl; [apply List.Forall_nil|].
  pose proof (JS_clean_about t d ty x) as Hx.
  destruct (JS.cleanAndValidateItem P t d ty x) as [x' i1].
  destruct (JS.cleanItems P t d ty items) as [r' i2]. simpl in *.
  apply List.Forall_app. now split.
Qed.

(** Cleaning the kept items of a list again. *)
Lemma JS_cleanItems_idem t d ty items cleaned i :
  forallb scalar items = true ->
  JS.cleanItems P t d ty items = (cleaned, i) ->
  let kept := List.filter isNotNull cleaned in
  forallb scalar kept = true
  /\ fst (JS.cleanItems P t d ty kept) = kept
  /\ List.filter isNotNull kept = kept
  /\ (i = [] -> snd (JS.cleanItems P t d ty kept) = []).
Proof.
  revert cleaned i. induction items as [|x items IH]; intros cleaned i Hs; simpl.
  - intros [= <- <-]. simpl. repeat split.
  - simpl in Hs. apply andb_true_iff in Hs as [Hx Hr].
    destruct (JS.cleanAndValidateItem P t d ty x) as [c i1] eqn:Ec.
    destruct (JS.cleanItems P t d ty items) as [cr ir] eqn:Er.
    intros [= <- <-]. specialize (IH cr ir Hr eq_refl). simpl in IH.
    destruct IH as [IH1 [IH2 [IH3 IH4]]].
    destruct (JS_clean_idem P L t d ty x c i1 Hx Ec) as [Hc [Hfix Hquiet]].
    simpl. destruct (isNotNull c) eqn:Enn; [|repeat split; try assumption].
    + simpl. rewrite Hc, IH1, Enn, IH3. simpl.
      destruct (JS.cleanAndValidateItem P t d ty c) as [c' i'] eqn:Ec'.
      destruct (JS.cleanItems P t d ty (List.filter isNotNull cr)) as [k' ik'] eqn:Ek'.
      simpl in *. subst c' k'. repeat split.
      intros Hnil. apply app_eq_nil in Hnil as [-> ->].
      now rewrite (Hquiet eq_refl), (IH4 eq_refl).
    + intros Hnil. apply app_eq_nil in Hnil as [_ ->]. now apply IH4.
Qed.

(** Step 1 leaves a single-valued field with a scalar, when the raw value
    is flat. *)
Lemma reconcile_single raw dp :
  dp_isList dp = false ->
  (forall y, raw !! dp_id dp = Some y -> flatValue y = true) ->
  exists cur i1,
    reconcileShape (dp_id dp) false (initialData raw dp) = (cur, i1)
    /\ scalar cur = true
    /\ Forall (about (dp_id dp)) i1
    /\ (forall y, raw !! dp_id dp = Some y -> isArray y = false -> cur = y /\ i1 = []).
Proof.
  intros Hl Hflat. unfold initialData. rewrite Hl.
  destruct (raw !! dp_id dp) as [v|] eqn:Hraw.
  - specialize (Hflat v eq_refl).
    destruct v as [| | | | | |fields|[|x items]]; simpl in *; try discriminate;
      eexists _, _; (split; [reflexivity|]);
      (split; [try reflexivity; now apply andb_true_iff in Hflat as [Hflat _]|]);
      (split; [repeat (apply List.Forall_cons; [reflexivity|]); apply List.Forall_nil|]);
      intros y Heq Ha; inversion Heq; subst; try discriminate; split; reflexivity.
  - exists VNull, []. simpl. repeat split; try apply List.Forall_nil. discriminate.
Qed.

Lemma flat_items (raw : gmap string JsVal) (dp : DataPoint) items0 :
  (forall y, raw !! dp_id dp = Some y -> flatValue y = true) ->
  (forall items, raw !! dp_id dp = Some (VArr items) -> items0 = items) ->
  (forall v, raw !! dp_id dp = Some v -> isArray v = false ->
     (isNullish v = true /\ items0 = []) \/ (isNullish v = false /\ items0 = [v])) ->
  (raw !! dp_id dp = None -> items0 = []) ->
  forallb scalar items0 = true.
Proof.
  intros Hflat Harr Hwrap Hnone. destruct (raw !! dp_id dp) as [v|] eqn:Hraw.
  - specialize (Hflat v eq_refl). destruct (isArray v) eqn:Ha.
    + destruct v; try discriminate. now rewrite (Harr items eq_refl).
    + destruct (Hwrap v eq_refl Ha) as [[_ ->]|[_ ->]]; [reflexivity|].
      simpl. now rewrite (flat_scalar v Hflat Ha).
  - now rewrite (Hnone eq_refl).
Qed.

(** One turn of the loop of validator-agent.js, on its own output. *)
Lemma JS_field_idem raw raw' t dp :
  (forall y, raw !! dp_id dp = Some y -> flatValue y = true) ->
  raw' !! dp_id dp = Some (fst (JS.validateDataPoint P raw t dp)) ->
  flatValue (fst (JS.validateDataPoint P raw t dp)) = true
  /\ fst (JS.validateDataPoint P raw' t dp) = fst (JS.validateDataPoint P raw t dp)
  /\ (snd (JS.validateDataPoint P raw t dp) = [] ->
      snd (JS.validateDataPoint P raw' t dp) = []).
Proof.
  intros Hflat. destruct (dp_isList dp) eqn:Hl.
  - destruct (reconcile_list raw dp Hl) as [items0 [i1 [Hrec [_ [Harr [Hwrap Hnone]]]]]].
    assert (Hs : forallb scalar items0 = true).
    { apply (flat_items raw dp items0 Hflat).
      - intros items H. now destruct (Harr items H).
      - exact Hwrap.
      - intros H. now destruct (Hnone H). }
    assert (Hrun : JS.validateDataPoint P raw t dp = JS.validateDataPoint P raw t dp) by reflexivity.
    unfold JS.validateDataPoint in Hrun at 2. rewrite Hl, Hrec in Hrun.
    destruct (JS.cleanItems P t (dp_id dp) (dp_type dp) items0) as [cleaned i2] eqn:Hc.
    destruct (JS_cleanItems_idem t _ _ items0 cleaned i2 Hs Hc) as [Hk1 [Hk2 [Hk3 Hk4]]].
    set (kept := List.filter isNotNull cleaned) in *. rewrite Hrun. simpl. intros Hraw'.
    split; [exact Hk1|].
    unfold JS.validateDataPoint, initialData. rewrite Hl, Hraw'. simpl.
    destruct (JS.cleanItems P t (dp_id dp) (dp_type dp) kept) as [cleaned' i2'] eqn:Hc'.
    simpl in Hk2, Hk4. subst cleaned'. rewrite Hk3. simpl. split; [reflexivity|].
    intros Hnil. apply app_eq_nil in Hnil as [_ Hnil]. apply app_eq_nil in Hnil as [-> Hi3].
    rewrite (Hk4 eq_refl). simpl.
    unfold JS.rawLengthPositive, getProp. rewrite Hraw'. simpl.
    destruct kept as [|k0 kept0]; [|reflexivity]. simpl in *.
    rewrite andb_true_r in Hi3.
    destruct (JS.rawLengthPositive raw (dp_id dp)); [discriminate|].
    destruct (JS.notedRequired dp); [discriminate|reflexivity].
  - destruct (reconcile_single raw dp Hl Hflat) as [cur [i1 [Hrec [Hs [_ _]]]]].
    assert (Hrun : JS.validateDataPoint P raw t dp = JS.validateDataPoint P raw t dp) by reflexivity.
    unfold JS.validateDataPoint in Hrun at 2. rewrite Hl, Hrec in Hrun.
    destruct (JS.cleanAndValidateItem P t (dp_id dp) (dp_type dp) cur) as [c i2] eqn:Hc.
    destruct (JS_clean_idem P L t _ _ cur c i2 Hs Hc) as [Hsc [Hfix Hquiet]].
    rewrite Hrun. simpl. intros Hraw'.
    split; [now destruct c|].
    unfold JS.validateDataPoint, initialData. rewrite Hl, Hraw'.
    unfold reconcileShape. rewrite (scalar_not_array c Hsc). simpl.
    destruct (JS.cleanAndValidateItem P t (dp_id dp) (dp_type dp) c) as [c' i2'] eqn:Hc'.
    simpl in Hfix, Hquiet. subst c'. simpl. split; [reflexivity|].
    intros Hnil. apply app_eq_nil in Hnil as [_ Hnil]. apply app_eq_nil in Hnil as [-> Hi3].
    rewrite (Hquiet eq_refl). simpl. exact Hi3.
Qed.

Lemma reconcile_about d l v : Forall (about d) (snd (reconcileShape d l v)).
Proof.
  unfold reconcileShape.
  destruct (l && negb (isArray v)); [|destruct (negb l && isArray v)]; simpl;
    repeat (apply List.Forall_cons; [reflexivity|]); apply List.Forall_nil.
Qed.

Lemma JS_field_about raw t dp :
  Forall (about (dp_id dp)) (snd (JS.validateDataPoint P raw t dp)).
Proof.
  unfold JS.validateDataPoint.
  pose proof (reconcile_about (dp_id dp) (dp_isList dp) (initialData raw dp)) as H1.
  destruct (reconcileShape (dp_id dp) (dp_isList dp) (initialData raw dp)) as [cur i1].
  simpl in H1. destruct (dp_isList dp).
  - destruct cur; try exact H1.
    pose proof (JS_cleanItems_about t (dp_id dp) (dp_type dp) items) as H2.
    destruct (JS.cleanItems P t (dp_id dp) (dp_type dp) items) as [cleaned i2].
    simpl in *. apply List.Forall_app. split; [exact H1|].
    apply List.Forall_app. split; [exact H2|].
    destruct (_ && _); [|destruct (_ && _)];
      repeat (apply List.Forall_cons; [reflexivity|]); apply List.Forall_nil.
  - pose proof (JS_clean_about t (dp_id dp) (dp_type dp) cur) as H2.
    destruct (JS.cleanAndValidateItem P t (dp_id dp) (dp_type dp) cur) as [c i2].
    simpl in *. apply List.Forall_app. split; [exact H1|].
    apply List.Forall_app. split; [exact H2|].
    destruct (_ && _);
      repeat (apply List.Forall_cons; [reflexivity|]); apply List.Forall_nil.
Qed.

(** An issue of the second run concerns a field that had one in the first. *)
Definition notNew (first second : list ValidationIssue) : Prop :=
  Forall (fun i2 => Exists (fun i1 => dpId i1 = dpId i2) first) second.

Definition flatData (raw : gmap string JsVal) : Prop :=
  forall k y, raw !! k = Some y -> flatValue y = true.

Lemma notNew_nil second : notNew [] second -> second = [].
Proof.
  destruct second as [|i second]; [reflexivity|].
  intros H. inversion H as [|? ? Hex _]; subst. inversion Hex.
Qed.

(** validator-agent.js, run on its own validated data. *)
Lemma JS_validateLoop_idem raw t dps :
  List.NoDup (List.map dp_id dps) -> flatData raw ->
  let r1 := JS.validateLoop P raw t dps (∅, []) in
  let r2 := JS.validateLoop P (fst r1) t dps (∅, []) in
  fst r2 = fst r1 /\ flatData (fst r1) /\ notNew (snd r1) (snd r2).
Proof.
  intros Hnd Hflat r1 r2.
  assert (Hfield : forall dp, In dp dps ->
    fst r1 !! dp_id dp = Some (fst (JS.validateDataPoint P raw t dp))).
  { intros dp Hin. unfold r1. rewrite JS_validateLoop_lookup.
    now rewrite (lastWithId_NoDup dps dp Hnd Hin). }
  split; [|split].
  - apply map_eq. intros k. unfold r2. rewrite JS_validateLoop_lookup.
    unfold r1 at 2. rewrite JS_validateLoop_lookup.
    destruct (lastWithId k dps) as [dp|] eqn:Elast; [|reflexivity].
    pose proof (lastWithId_In _ _ _ Elast) as Hin.
    destruct (JS_field_idem raw (fst r1) t dp (fun y => Hflat (dp_id dp) y) (Hfield dp Hin))
      as [_ [Hsame _]].
    now rewrite Hsame.
  - intros k y. unfold r1. rewrite JS_validateLoop_lookup.
    destruct (lastWithId k dps) as [dp|] eqn:Elast; [|simpl; intros H; now apply lookup_empty_Some in H].
    pose proof (lastWithId_In _ _ _ Elast) as Hin. intros [= <-].
    now destruct (JS_field_idem raw (fst r1) t dp (fun y => Hflat (dp_id dp) y) (Hfield dp Hin)).
  - unfold notNew, r2. rewrite JS_validateLoop_issues. simpl.
    apply List.Forall_forall. intros i2 Hi2.
    apply in_concat in Hi2 as [l [Hl Hi2]]. apply in_map_iff in Hl as [dp [<- Hin]].
    destruct (JS_field_idem raw (fst r1) t dp (fun y => Hflat (dp_id dp) y) (Hfield dp Hin))
      as [_ [_ Hquiet]].
    pose proof (JS_field_about (fst r1) t dp) as Ha2.
    pose proof (JS_field_about raw t dp) as Ha1.
    destruct (snd (JS.validateDataPoint P raw t dp)) as [|i1 rest] eqn:E1.
    + rewrite (Hquiet eq_refl) in Hi2. destruct Hi2.
    + apply List.Exists_exists. exists i1. split.
      * unfold r1. rewrite JS_validateLoop_issues. simpl.
        apply (In_concat_map _ dps dp); [exact Hin|]. rewrite E1. now left.
      * inversion Ha1 as [|? ? H1 _]; subst.
        pose proof (proj1 (List.Forall_forall _ _) Ha2 i2 Hi2) as H2.
        unfold about in *. congruence.
Qed.

(** ** validatorAgent.ts *)

Lemma TS_clean_about t d ty item c i :
  TS.cleanAndValidateItem P t d ty item = Ok (c, i) -> Forall (about d) i.
Proof.
  unfold TS.cleanAndValidateItem. intros H.
  destruct item; cases_in H; try discriminate; injection H as <- <-;
    repeat (apply List.Forall_cons; [reflexivity|]); apply List.Forall_nil.
Qed.

Lemma TS_cleanItems_about t d ty items cleaned i :
  TS.cleanItems P t d ty items = Ok (cleaned, i) -> Forall (about d) i.
Proof.
  revert cleaned i. induction items as [|x items IH]; intros cleaned i; simpl.
  - intros [= <- <-]. apply List.Forall_nil.
  - unfoldR.
    destruct (TS.cleanAndValidateItem P t d ty x) as [[x' i1]|e] eqn:Ex; [|discriminate].
    destruct (TS.cleanItems P t d ty items) as [[r' i2]|e]; [|discriminate].
    simpl. intros [= <- <-]. apply List.Forall_app. split.
    + exact (TS_clean_about _ _ _ _ _ _ Ex).
    + now apply (IH r').
Qed.

Lemma TS_cleanItems_idem t d ty items cleaned i :
  forallb scalar items = true ->
  TS.cleanItems P t d ty items = Ok (cleaned, i) ->
  let kept := List.filter isNotNull cleaned in
  forallb scalar kept = true
  /\ List.filter isNotNull kept = kept
  /\ exists i', TS.cleanItems P t d ty kept = Ok (kept, i') /\ (i = [] -> i' = []).
Proof.
  revert cleaned i. induction items as [|x items IH]; intros cleaned i Hs; simpl.
  - intros [= <- <-]. simpl. repeat split. exists []. now split.
  - simpl in Hs. apply andb_true_iff in Hs as [Hx Hr]. unfoldR.
    destruct (TS.cleanAndValidateItem P t d ty x) as [[c i1]|e] eqn:Ec; [|discriminate].
    destruct (TS.cleanItems P t d ty items) as [[cr ir]|e] eqn:Er; [|discriminate].
    simpl. intros [= <- <-]. specialize (IH cr ir Hr eq_refl). simpl in IH.
    destruct IH as [IH1 [IH3 [ik [IH2 IH4]]]].
    destruct (TS_clean_idem P L t d ty x c i1 Hx Ec) as [Hc [i1' [Hfix Hquiet]]].
    simpl. destruct (isNotNull c) eqn:Enn.
    + simpl. rewrite Hc, IH1, Enn, IH3. unfoldR. rewrite Hfix, IH2. simpl.
      repeat split. exists (i1' ++ ik). split; [reflexivity|].
      intros Hnil. apply app_eq_nil in Hnil as [-> ->].
      now rewrite (Hquiet eq_refl), (IH4 eq_refl).
    + repeat split; try assumption. exists ik. split; [exact IH2|].
      intros Hnil. apply app_eq_nil in Hnil as [_ ->]. now apply IH4.
Qed.

Lemma filter_all {A : Type} (f : A -> bool) (l : list A) :
  Forall (fun x => f x = true) l -> List.filter f l = l.
Proof.
  induction 1 as [|x l Hx _ IH]; simpl; [reflexivity|]. now rewrite Hx, IH.
Qed.

(** One turn of the loop of validatorAgent.ts, on its own output. *)
Lemma TS_field_idem raw raw' t dp v i :
  (forall y, raw !! dp_id dp = Some y -> flatValue y = true) ->
  TS.validateDataPoint P raw t dp = Ok (v, i) ->
  raw' !! dp_id dp = Some v ->
  flatValue v = true
  /\ exists i', TS.validateDataPoint P raw' t dp = Ok (v, i') /\ (i = [] -> i' = []).
Proof.
  intros Hflat H Hraw'. destruct (dp_isList dp) eqn:Hl.
  - destruct (reconcile_list raw dp Hl) as [items0 [i1 [Hrec [_ [Harr [Hwrap Hnone]]]]]].
    assert (Hs : forallb scalar items0 = true).
    { apply (flat_items raw dp items0 Hflat).
      - intros items H0. now destruct (Harr items H0).
      - exact Hwrap.
      - intros H0. now destruct (Hnone H0). }
    unfold TS.validateDataPoint in H. rewrite Hl, Hrec in H. unfoldR.
    destruct (TS.cleanItems P t (dp_id dp) (JsString.toLowerCase (dp_type dp)) items0)
      as [[cleaned i2]|e] eqn:Hc; [|discriminate].
    destruct (TS_cleanItems_spec P t _ _ items0 cleaned i2 Hc) as [Hfrom _].
    destruct (kept_spec items0 cleaned Hfrom) as [Hsame [Hnn _]].
    rewrite <- Hsame in H.
    destruct (TS_cleanItems_idem t _ _ items0 cleaned i2 Hs Hc) as [Hk1 [Hk3 [i2' [Hk2 Hk4]]]].
    set (kept := List.filter isNotNull cleaned) in *.
    set (i3 := if negb (TS.isOptional dp) &&
                  (negb (isNotNull (VArr kept)) || (true && TS.isEmptyArray (VArr kept)))
               then [issueOn (dp_id dp)
                       "Required item is missing, null, or empty after validation."
                       (VArr kept)]
               else []) in *.
    assert (Hv : v = VArr kept /\ exists extra, i = i1 ++ (i2 ++ extra) ++ i3).
    { destruct ((0 <? List.length items0)%nat && (List.length kept =? 0)%nat).
      - destruct (TS.notEveryNullish raw (dp_id dp)) as [[|]|e]; simpl in H;
          [| |discriminate]; injection H as <- <-; split; try reflexivity.
        + eexists. reflexivity.
        + exists []. now rewrite app_nil_r.
      - simpl in H. injection H as <- <-. split; [reflexivity|].
        exists []. now rewrite app_nil_r. }
    destruct Hv as [-> [extra ->]]. split; [exact Hk1|].
    exists (i2' ++ i3). split.
    + unfold TS.validateDataPoint, initialData. rewrite Hl, Hraw'. simpl. unfoldR.
      rewrite Hk2. simpl.
      rewrite (filter_all (fun v => negb (isNullish v)) kept).
      2:{ eapply List.Forall_impl; [|exact Hnn]. simpl. now intros a ->. }
      replace ((0 <? List.length kept)%nat && (List.length kept =? 0)%nat) with false
        by (now destruct kept).
      reflexivity.
    + intros Hnil. apply app_eq_nil in Hnil as [_ Hnil].
      apply app_eq_nil in Hnil as [Hnil ->]. apply app_eq_nil in Hnil as [-> _].
      now rewrite (Hk4 eq_refl).
  - destruct (reconcile_single raw dp Hl Hflat) as [cur [i1 [Hrec [Hs [_ _]]]]].
    unfold TS.validateDataPoint in H. rewrite Hl, Hrec in H. unfoldR.
    destruct (TS.cleanAndValidateItem P t (dp_id dp) (JsString.toLowerCase (dp_type dp)) cur)
      as [[c i2]|e] eqn:Hc; [|discriminate].
    simpl in H. injection H as <- <-.
    destruct (TS_clean_idem P L t _ _ cur c i2 Hs Hc) as [Hsc [i2' [Hfix Hquiet]]].
    split; [now destruct c|].
    eexists. split.
    + unfold TS.validateDataPoint, initialData. rewrite Hl, Hraw'.
      unfold reconcileShape. rewrite (scalar_not_array c Hsc). simpl. unfoldR.
      rewrite Hfix. simpl. reflexivity.
    + intros Hnil. apply app_eq_nil in Hnil as [_ Hnil].
      apply app_eq_nil in Hnil as [-> Hi3]. rewrite (Hquiet eq_refl). simpl. exact Hi3.
Qed.

Lemma TS_field_about raw t dp v i :
  TS.validateDataPoint P raw t dp = Ok (v, i) -> Forall (about (dp_id dp)) i.
Proof.
  unfold TS.validateDataPoint.
  pose proof (reconcile_about (dp_id dp) (dp_isList dp) (initialData raw dp)) as H1.
  destruct (reconcileShape (dp_id dp) (dp_isList dp) (initialData raw dp)) as [cur i1].
  simpl in H1. unfoldR.
  match goal with |- match ?m with _ => _ end = _ -> _ =>
    assert (Hm : forall c i2, m = Ok (c, i2) -> Forall (about (dp_id dp)) i2);
    [|destruct m as [[c i2]|e]; [|discriminate]] end.
  - intros c i2. destruct (dp_isList dp).
    + destruct cur; try (intros [= <- <-]; apply List.Forall_nil).
      destruct (TS.cleanItems P t (dp_id dp) (JsString.toLowerCase (dp_type dp)) items)
        as [[cleaned j]|e] eqn:Hc; [|discriminate].
      pose proof (TS_cleanItems_about _ _ _ _ _ _ Hc) as H2. simpl.
      destruct (_ && _); [destruct (TS.notEveryNullish raw (dp_id dp)) as [[|]|e]|];
        simpl; try discriminate; intros [= <- <-]; try exact H2.
      apply List.Forall_app. split; [exact H2|].
      apply List.Forall_cons; [reflexivity|apply List.Forall_nil].
    + apply TS_clean_about.
  - specialize (Hm c i2 eq_refl). simpl. intros [= <- <-].
    apply List.Forall_app. split; [exact H1|].
    apply List.Forall_app. split; [exact Hm|].
    destruct (_ && _);
      repeat (apply List.Forall_cons; [reflexivity|]); apply List.Forall_nil.
Qed.

Lemma Forall2_In_right {A B : Type} (R : A -> B -> Prop) (l : list A) (l' : list B) (b : B) :
  Forall2 R l l' -> In b l' -> exists a, In a l /\ R a b.
Proof.
  induction 1 as [|x y l l' Hxy _ IH]; simpl; [easy|].
  intros [->|Hin].
  - exists x. split; [now left|exact Hxy].
  - destruct (IH Hin) as [a [Ha Hab]]. exists a. split; [now right|exact Hab].
Qed.

(** validatorAgent.ts, run on its own validated data. *)
Lemma TS_validateLoop_idem raw t dps m i :
  List.NoDup (List.map dp_id dps) -> flatData raw ->
  TS.validateLoop P raw t dps (∅, []) = Ok (m, i) ->
  flatData m
  /\ exists i', TS.validateLoop P m t dps (∅, []) = Ok (m, i') /\ notNew i i'.
Proof.
  intros Hnd Hflat Hrun.
  destruct (TS_validateLoop_ok P raw t dps _ m i Hrun) as [Hlook [per [Hper Hi]]].
  simpl in Hi.
  assert (Hfield : forall dp, In dp dps ->
    exists v iv, In (v, iv) per /\ TS.validateDataPoint P raw t dp = Ok (v, iv)
      /\ m !! dp_id dp = Some v).
  { intros dp Hin. destruct (Forall2_In_left _ _ _ dp Hper Hin) as [[v iv] [Hvi Hdp]].
    exists v, iv. split; [exact Hvi|]. split; [exact Hdp|].
    now rewrite Hlook, (lastWithId_NoDup dps dp Hnd Hin), Hdp. }
  assert (Hagain : forall dp, In dp dps ->
    exists v iv iv', In (v, iv) per /\ m !! dp_id dp = Some v /\ flatValue v = true
      /\ TS.validateDataPoint P m t dp = Ok (v, iv')
      /\ (iv = [] -> iv' = []) /\ Forall (about (dp_id dp)) iv).
  { intros dp Hin. destruct (Hfield dp Hin) as [v [iv [Hvi [Hdp Hm]]]].
    destruct (TS_field_idem raw m t dp v iv (fun y => Hflat (dp_id dp) y) Hdp Hm)
      as [Hfv [iv' [Hdp' Hquiet]]].
    exists v, iv, iv'. repeat split; try assumption.
    exact (TS_field_about _ _ _ _ _ Hdp). }
  split.
  { intros k y. rewrite Hlook.
    destruct (lastWithId k dps) as [dp|] eqn:Elast;
      [|simpl; intros H; now apply lookup_empty_Some in H].
    pose proof (lastWithId_In _ _ _ Elast) as Hin.
    destruct (Hfield dp Hin) as [v [iv [_ [Hdp _]]]]. rewrite Hdp. intros [= <-].
    destruct (Hagain dp Hin) as [v' [iv0 [iv' [_ [Hm [Hfv _]]]]]].
    pose proof (lastWithId_id _ _ _ Elast) as Hid. rewrite Hid, Hlook, Elast, Hdp in Hm.
    now injection Hm as <-. }
  destruct (TS_validateLoop_total P m t dps (∅, [])) as [m' [i' Hrun']].
  { apply List.Forall_forall. intros dp Hin.
    destruct (Hagain dp Hin) as [v [iv [iv' [_ [_ [_ [Hdp' _]]]]]]]. now rewrite Hdp'. }
  destruct (TS_validateLoop_ok P m t dps _ m' i' Hrun') as [Hlook' [per' [Hper' Hi']]].
  simpl in Hi'.
  assert (Hsame : m' = m).
  { apply map_eq. intros k. rewrite Hlook'.
    destruct (lastWithId k dps) as [dp|] eqn:Elast.
    - pose proof (lastWithId_In _ _ _ Elast) as Hin.
      pose proof (lastWithId_id _ _ _ Elast) as Hid.
      destruct (Hagain dp Hin) as [v [iv [iv' [_ [Hm [_ [Hdp' _]]]]]]].
      now rewrite Hdp', <- Hid, Hm.
    - rewrite Hlook, Elast. reflexivity. }
  subst m'. exists i'. split; [exact Hrun'|].
  unfold notNew. apply List.Forall_forall. intros i2 Hi2. rewrite Hi' in Hi2.
  apply in_concat in Hi2 as [l [Hl Hi2]]. apply in_map_iff in Hl as [[v2 iv2] [<- Hvi2]].
  destruct (Forall2_In_right _ _ _ _ Hper' Hvi2) as [dp [Hin Hdp2]].
  destruct (Hagain dp Hin) as [v [iv [iv' [Hvi [_ [_ [Hdp' [Hquiet Habout]]]]]]]].
  rewrite Hdp' in Hdp2. injection Hdp2 as <- <-. simpl in Hi2.
  pose proof (TS_field_about _ _ _ _ _ Hdp') as Habout'.
  destruct iv as [|i1 rest].
  - rewrite (Hquiet eq_refl) in Hi2. destruct Hi2.
  - apply List.Exists_exists. exists i1. split.
    + rewrite Hi. apply in_concat. exists (i1 :: rest). split; [|now left].
      apply in_map_iff. now exists (v, i1 :: rest).
    + inversion Habout as [|? ? H1 _]; subst.
      pose proof (proj1 (List.Forall_forall _ _) Habout' i2 Hi2) as H2.
      unfold about in *. congruence.
Qed.

End Fields.

End Idempotence.



(* ===================================================================== *)
(** * The reference platform satisfies the laws *)
(* ===================================================================== *)

Module RefLaws.
Import Validator Idempotence NormalizeFacts JsString.

Lemma encodeSpace_noSpace c : noSpace (RefPlatform.encodeSpace c) = true.
Proof.
  destruct c as [[] [] [] [] [] [] [] []]; reflexivity.
Qed.

Lemma encodeSpaces_noSpace s : noSpace (RefPlatform.encodeSpaces s) = true.
Proof.
  induction s as [|c s IH]; simpl; [reflexivity|].
  apply noSpace_app; [apply encodeSpace_noSpace|exact IH].
Qed.

Lemma URL_new_noSpace input base url :
  RefPlatform.URL_new input base = Ok url -> noSpace (href url) = true.
Proof.
  unfold RefPlatform.URL_new, RefPlatform.mkHttp. intros H.
  repeat match type of H with
         | context [match ?x with _ => _ end] => destruct x; try discriminate
         end;
    injection H as <-; apply encodeSpaces_noSpace.
Qed.

Lemma isDigit_noSpace c : RefPlatform.isDigit c = true -> isSpace c = false.
Proof.
  destruct c as [[] [] [] [] [] [] [] []]; try reflexivity; discriminate.
Qed.

Lemma hasShape_noSpace shape s :
  noSpace shape = true -> RefPlatform.hasShape shape s = true -> noSpace s = true.
Proof.
  revert s. induction shape as [|p shape IH]; intros [|c s]; simpl; try easy.
  intros Hp H. apply andb_true_iff in Hp as [Hp Hshape].
  apply andb_true_iff in H as [Hc Hs]. rewrite (IH s Hshape Hs), andb_true_r.
  destruct (Ascii.eqb p "9"%char).
  - now rewrite (isDigit_noSpace c Hc).
  - apply Ascii.eqb_eq in Hc. now subst c.
Qed.

Lemma hasShape_app a b s s' :
  RefPlatform.hasShape a s = true -> RefPlatform.hasShape b s' = true -> RefPlatform.hasShape (a ++ b) (s ++ s') = true.
Proof.
  revert s. induction a as [|p a IH]; intros [|c s]; simpl; try easy.
  intros H Hb. apply andb_true_iff in H as [Hc Hs].
  now rewrite Hc, IH.
Qed.

Lemma digitChar_noSpace n : isSpace (RefPlatform.digitChar (n mod 10)) = false.
Proof.
  unfold RefPlatform.digitChar.
  assert (H : (Z.to_nat (n mod 10) < 10)%nat)
    by (pose proof (Z.mod_pos_bound n 10 ltac:(lia)); lia).
  remember (Z.to_nat (n mod 10)) as k eqn:E. clear E.
  do 10 (destruct k as [|k]; [reflexivity|]). lia.
Qed.

Lemma digitsOf_noSpace fuel n acc :
  noSpace acc = true -> noSpace (RefPlatform.digitsOf fuel n acc) = true.
Proof.
  revert n acc. induction fuel as [|f IH]; intros n acc Hacc; cbn [RefPlatform.digitsOf]; [exact Hacc|].
  assert (H : noSpace (String (RefPlatform.digitChar (n mod 10)) acc) = true)
    by (cbn [noSpace]; now rewrite digitChar_noSpace, Hacc).
  destruct (n / 10 =? 0)%Z; [exact H|now apply IH].
Qed.

Lemma zeros_noSpace k : noSpace (RefPlatform.zeros k) = true.
Proof. induction k as [|k IH]; simpl; [reflexivity|exact IH]. Qed.

Lemma take_noSpace k s : noSpace s = true -> noSpace (take k s) = true.
Proof.
  revert s. induction k as [|k IH]; intros [|c s]; simpl; try easy.
  intros H. apply andb_true_iff in H as [Hc Hs]. now rewrite Hc, IH.
Qed.

Lemma drop_noSpace k s : noSpace s = true -> noSpace (drop k s) = true.
Proof.
  revert s. induction k as [|k IH]; intros [|c s]; simpl; try easy.
  intros H. apply andb_true_iff in H as [Hc Hs]. now apply IH.
Qed.

Lemma Number_toString_noSpace n : noSpace (RefPlatform.Number_toString n) = true.
Proof.
  destruct n as [|[]|m e]; [reflexivity|reflexivity|reflexivity|].
  unfold RefPlatform.Number_toString.
  assert (Hsign : noSpace (if (m <? 0)%Z then "-" else EmptyString) = true)
    by (now destruct (m <? 0)%Z).
  assert (Hnat : forall a, noSpace (RefPlatform.natString a) = true)
    by (intros a; now apply digitsOf_noSpace).
  destruct (0 <=? e)%Z.
  - apply noSpace_app; [exact Hsign|apply Hnat].
  - assert (Hds : noSpace (RefPlatform.zeros (S (Z.to_nat (- e)) - String.length (RefPlatform.natString (Z.abs m)))
                           ++ RefPlatform.natString (Z.abs m)) = true)
      by (apply noSpace_app; [apply zeros_noSpace|apply Hnat]).
    apply noSpace_app; [exact Hsign|].
    apply noSpace_app; [now apply take_noSpace|].
    apply noSpace_app; [reflexivity|now apply drop_noSpace].
Qed.

Lemma platform_laws : PlatformLaws RefPlatform.platform.
Proof.
  constructor.
  - intros input base url H. apply noSpace_normal. exact (URL_new_noSpace _ _ _ H).
  - intros v iso Hnd. change (Date_new RefPlatform.platform) with RefPlatform.Date_new.
    unfold RefPlatform.Date_new.
    destruct v as [| | | |s|d| |]; try discriminate; [|now destruct (Hnd d)].
    destruct (RefPlatform.hasShape RefPlatform.isoShape s) eqn:Eiso.
    + intros [= <-]. rewrite Eiso. split; [|reflexivity].
      apply noSpace_normal. now apply (hasShape_noSpace RefPlatform.isoShape).
    + destruct (RefPlatform.hasShape RefPlatform.dayShape s) eqn:Eday; [|discriminate]. intros [= <-].
      assert (H : RefPlatform.hasShape RefPlatform.isoShape (s ++ "T00:00:00.000Z") = true)
        by (apply (hasShape_app RefPlatform.dayShape "T99:99:99.999Z"); [exact Eday|reflexivity]).
      rewrite H. split; [|reflexivity].
      apply noSpace_normal. now apply (hasShape_noSpace RefPlatform.isoShape).
  - intros n. apply noSpace_normal. apply Number_toString_noSpace.
Qed.

End RefLaws.


(* ===================================================================== *)
(** * C5: running the validator on its own output *)
(* ===================================================================== *)

Module IdempotentValidation.
Import Validator ValidatorFacts ListFacts Idempotence.

(** The check of [flatData], on the entries of the object. *)
Definition allFlat (raw : gmap string JsVal) : bool :=
  forallb (fun kv => flatValue (snd kv)) (map_to_list raw).

Lemma allFlat_flatData raw : allFlat raw = true -> flatData raw.
Proof.
  unfold allFlat. intros H k y Hk. rewrite forallb_forall in H.
  apply (H (k, y)). apply list_elem_of_In. now apply elem_of_map_to_list.
Qed.

Definition P0 : Platform := RefPlatform.platform.

(** A list of lists of strings, for a list of strings. *)
Definition nestedTags : gmap string JsVal := {[ "tags" := VArr [VArr [VStr "a  b"]] ]}.
Definition tagsPlan : option Plan :=
  Some (mkPlan (Some [mkDataPoint "tags" "string" true None]) None).

(** A plan that names the field [x] twice, as a string and as a number. *)
Definition price : gmap string JsVal := {[ "x" := VStr "5" ]}.
Definition pricePlan : option Plan :=
  Some (mkPlan (Some [mkDataPoint "x" "string" false None;
                      mkDataPoint "x" "number" false None]) None).

(** A string that is no boolean, with a leading space. *)
Definition maybe : gmap string JsVal := {[ "flag" := VStr " maybe" ]}.
Definition flagPlan : option Plan :=
  Some (mkPlan (Some [mkDataPoint "flag" "boolean" false None]) None).

Definition secondRun
    (validate : option (gmap string JsVal) -> option Plan -> Result ValidationResult)
    (raw : gmap string JsVal) (plan : option Plan) : Result ValidationResult :=
  match validate (Some raw) plan with
  | Ok r1 => validate (Some (validatedData r1)) plan
  | Throw e => Throw e
  end.

Definition fieldOf (k : string) (r : Result ValidationResult) : option JsVal :=
  match r with
  | Ok res => validatedData res !! k
  | Throw _ => None
  end.

Definition issuesOf (r : Result ValidationResult) : option (list ValidationIssue) :=
  match r with
  | Ok res => Some (validationIssues res)
  | Throw _ => None
  end.


(** On flat data and with distinct ids, an issue of the second run is
    still not the issue of the first: it carries the cleaned value. *)
Example second_issue_carries_cleaned_value :
  issuesOf (JS.validateData P0 (Some maybe) flagPlan)
  = Some [issueOn "flag" "Type mismatch: Expected boolean, got string." (VStr " maybe")]
  /\ issuesOf (secondRun (JS.validateData P0) maybe flagPlan)
     = Some [issueOn "flag" "Type mismatch: Expected boolean, got string." (VStr "maybe")].
Proof. vm_compute. split; reflexivity. Qed.


Definition orders : gmap string JsVal :=
  {[ "title" := VStr "  Blue   mug "; "price" := VStr "$1,200.50";
     "tags" := VArr [VStr " new "; VNull; VStr "sale"];
     "seen" := VStr "2024-01-15" ]}.

Definition orderPoints : list DataPoint :=
  [mkDataPoint "title" "string" false None; mkDataPoint "price" "number" false None;
   mkDataPoint "tags" "string" true None; mkDataPoint "seen" "date" false None].

Lemma orderPoints_distinct : List.NoDup (List.map dp_id orderPoints).
Proof.
  repeat (apply List.NoDup_cons; [simpl; intuition discriminate|]). apply List.NoDup_nil.
Qed.


(** The run of the witness, carried out. *)
Example orders_validated :
  fieldOf "title" (JS.validateData P0 (Some orders) (Some (mkPlan (Some orderPoints) None)))
  = Some (VStr "Blue mug")
  /\ fieldOf "seen" (JS.validateData P0 (Some orders) (Some (mkPlan (Some orderPoints) None)))
     = Some (VStr "2024-01-15T00:00:00.000Z")
  /\ fieldOf "tags" (TS.validateData P0 (Some orders) (Some (mkPlan (Some orderPoints) None)))
     = Some (VArr [VStr "new"; VStr "sale"])
  /\ fieldOf "price" (TS.validateData P0 (Some orders) (Some (mkPlan (Some orderPoints) None)))
     = Some (VNum (Decimal 12005 (-1))).
Proof. vm_compute. repeat split. Qed.

End IdempotentValidation.

(* ===================================================================== *)
(** * The white-space step of the cleaners *)
(* ===================================================================== *)

Module WhiteSpace.

Import JsString NormalizeFacts.

(** Every white-space character is a plain space, and the character after
    it is none. *)
Fixpoint singleSpaces (s : string) : bool :=
  match s with
  | EmptyString => true
  | String c r =>
      (if isSpace c then Ascii.eqb c space && startsClean r else true) && singleSpaces r
  end.

(** The strings that [s.trim().replace(/\s+/g, ' ')] leaves as they are. *)
Definition normalForm (s : string) : bool :=
  startsClean s && endsClean s && singleSpaces s.

Lemma collapse_true_startsClean s : startsClean (collapseFrom true s) = true.
Proof.
  induction s as [|c s IH]; [reflexivity|]. rewrite collapseFrom_cons.
  destruct (isSpace c) eqn:E; [exact IH|]. simpl. now rewrite E.
Qed.

Lemma collapse_singleSpaces s b : singleSpaces (collapseFrom b s) = true.
Proof.
  revert b. induction s as [|c s IH]; intros b; [reflexivity|].
  rewrite collapseFrom_cons. destruct (isSpace c) eqn:E.
  - destruct b; [apply IH|].
    change (singleSpaces (String space (collapseFrom true s)))
      with ((if isSpace space then Ascii.eqb space space && startsClean (collapseFrom true s)
             else true) && singleSpaces (collapseFrom true s)).
    rewrite space_isSpace, collapse_true_startsClean, IH. reflexivity.
  - cbn [singleSpaces]. rewrite E. apply IH.
Qed.

Lemma singleSpaces_collapse s :
  singleSpaces s = true ->
  collapseFrom false s = s /\ (startsClean s = true -> collapseFrom true s = s).
Proof.
  induction s as [|c s IH]; [now split|]. cbn [singleSpaces]. intros H.
  apply andb_true_iff in H as [Hc Hs]. destruct (IH Hs) as [IH1 IH2].
  rewrite !collapseFrom_cons. destruct (isSpace c) eqn:E.
  - apply andb_true_iff in Hc as [Hc Hr]. apply Ascii.eqb_eq in Hc. subst c. split.
    + now rewrite (IH2 Hr).
    + simpl. discriminate.
  - rewrite IH1. now split.
Qed.

(** X1.  The first step of both cleaners, [s.trim().replace(/\s+/g, ' ')],
    puts a string in normal form: no white space at either end, and inside
    only single plain spaces.  The strings in normal form are exactly those
    that the step leaves unchanged; so the step is idempotent. *)
Theorem normalizeSpaces_normal_form (s : string) :
  normalForm (normalizeSpaces s) = true
  /\ (normalForm s = true <-> normalizeSpaces s = s)
  /\ normalizeSpaces (normalizeSpaces s) = normalizeSpaces s.
Proof.
  assert (Hnf : forall u, normalForm (normalizeSpaces u) = true).
  { intros u. unfold normalForm, normalizeSpaces, collapseSpaces, trim.
    set (t := trimEnd (trimStart u)).
    assert (Hs : startsClean t = true)
      by (apply trimEnd_startsClean, trimStart_startsClean).
    assert (He : endsClean t = true) by apply trimEnd_endsClean.
    rewrite (collapse_startsClean t Hs).
    rewrite (proj1 (collapse_endsClean t He false)).
    now rewrite collapse_singleSpaces. }
  split; [apply Hnf|]. split; [|apply normalizeSpaces_idem].
  split.
  - unfold normalForm. intros H.
    apply andb_true_iff in H as [H Hsingle]. apply andb_true_iff in H as [Hs He].
    unfold normalizeSpaces, collapseSpaces, trim.
    rewrite (trimStart_fix s Hs), (trimEnd_fix s He).
    now destruct (singleSpaces_collapse s Hsingle).
  - intros <-. apply Hnf.
Qed.

End WhiteSpace.

(* ===================================================================== *)
(** * What validateData reports *)
(* ===================================================================== *)

Module ValidationReport.

Import Validator ValidatorFacts ListFacts Idempotence.

Lemma lastWithId_Some k dps :
  In k (List.map dp_id dps) -> exists dp, lastWithId k dps = Some dp.
Proof.
  intros Hin. destruct (lastWithId k dps) as [dp|] eqn:E; [now exists dp|].
  now apply lastWithId_None in E.
Qed.

(** The ids of the plan. *)
Definition planIds (dps : list DataPoint) : list string := List.map dp_id dps.

(** The names that an object inherits from [Object.prototype].  Under such
    a name [rawData[dpId]] reads the inherited property when the raw data has
    none of its own, and an assignment to [__proto__] makes no property: the
    properties below are stated for plans whose ids are none of these. *)
Definition inheritedNames : list string :=
  ["constructor"; "hasOwnProperty"; "isPrototypeOf"; "propertyIsEnumerable";
   "toLocaleString"; "toString"; "valueOf"; "__proto__"; "__defineGetter__";
   "__defineSetter__"; "__lookupGetter__"; "__lookupSetter__"].

Definition plainIds (dps : list DataPoint) : bool :=
  forallb (fun k => negb (strIn k inheritedNames)) (planIds dps).

(** The issues that name the data point [d]. *)
Definition issuesAbout (d : string) (issues : list ValidationIssue) : list ValidationIssue :=
  List.filter (fun i => String.eqb (dpId i) d) issues.

Lemma issuesAbout_all d issues : Forall (about d) issues -> issuesAbout d issues = issues.
Proof.
  induction 1 as [|i issues Hi _ IH]; simpl; [reflexivity|].
  unfold about in Hi. rewrite Hi, String.eqb_refl. now rewrite IH.
Qed.

Lemma issuesAbout_none d d' issues :
  d' <> d -> Forall (about d') issues -> issuesAbout d issues = [].
Proof.
  intros Hne. induction 1 as [|i issues Hi _ IH]; simpl; [reflexivity|].
  unfold about in Hi. rewrite Hi. apply String.eqb_neq in Hne. now rewrite Hne.
Qed.

Lemma issuesAbout_app d a b : issuesAbout d (a ++ b) = issuesAbout d a ++ issuesAbout d b.
Proof. unfold issuesAbout. apply List.filter_app. Qed.

(** With distinct ids, the issues about a data point are those of its turn
    of the loop. *)
Lemma issuesAbout_concat (dps : list DataPoint) (per : DataPoint -> list ValidationIssue)
    (dp : DataPoint) :
  (forall x, Forall (about (dp_id x)) (per x)) ->
  List.NoDup (List.map dp_id dps) -> In dp dps ->
  issuesAbout (dp_id dp) (concat (List.map per dps)) = per dp.
Proof.
  intros Hper. induction dps as [|a dps IH]; simpl; [easy|].
  intros Hnd Hin. rewrite List.NoDup_cons_iff in Hnd. destruct Hnd as [Hna Hnd].
  rewrite issuesAbout_app. destruct Hin as [->|Hin].
  - rewrite (issuesAbout_all _ _ (Hper dp)).
    assert (Hrest : issuesAbout (dp_id dp) (concat (List.map per dps)) = []).
    { clear IH Hnd. induction dps as [|b dps IHd]; simpl; [reflexivity|].
      rewrite issuesAbout_app.
      rewrite (issuesAbout_none (dp_id dp) (dp_id b) (per b)); [|..|apply Hper].
      - apply IHd. intros H. apply Hna. now right.
      - intros Heq. apply Hna. left. exact Heq. }
    now rewrite Hrest, app_nil_r.
  - rewrite (issuesAbout_none (dp_id dp) (dp_id a) (per a)); [|..|apply Hper].
    + now apply IH.
    + intros Heq. apply Hna. rewrite Heq. apply in_map_iff. now exists dp.
Qed.

(** What the loop of validatorAgent.ts leaves, by data point. *)
Lemma TS_validateLoop_fields P raw t dps m i :
  TS.validateLoop P raw t dps (∅, []) = Ok (m, i) ->
  exists per : DataPoint -> JsVal * list ValidationIssue,
    (forall dp, In dp dps -> TS.validateDataPoint P raw t dp = Ok (per dp))
    /\ i = concat (List.map (fun dp => snd (per dp)) dps)
    /\ (forall dp, Forall (about (dp_id dp)) (snd (per dp))).
Proof.
  intros Hrun.
  exists (fun dp => match TS.validateDataPoint P raw t dp with
                    | Ok vi => vi
                    | Throw _ => (VNull, [])
                    end).
  destruct (TS_validateLoop_ok P raw t dps _ m i Hrun) as [_ [per [Hper Hi]]].
  simpl in Hi. split; [|split].
  - intros dp Hin. destruct (Forall2_In_left _ _ _ dp Hper Hin) as [vi [_ Hdp]].
    now rewrite Hdp.
  - rewrite Hi. clear Hi Hrun. induction Hper as [|dp vi dps per Hdp _ IH]; [reflexivity|].
    simpl. now rewrite Hdp, IH.
  - intros dp. destruct (TS.validateDataPoint P raw t dp) as [[v iv]|e] eqn:E.
    + exact (TS_field_about P raw t dp v iv E).
    + apply List.Forall_nil.
Qed.


(** A page of a shop, as raw data, and the plan it was extracted for. *)
Definition shopData : gmap string JsVal :=
  {[ "name" := VStr "  Blue   mug "; "price" := VStr "12 euros or so";
     "colours" := VArr [VStr " blue "; VNull; VStr "white"];
     "internal" := VStr "sku-1" ]}.

Definition shopPoints : list DataPoint :=
  [mkDataPoint "name" "string" false None; mkDataPoint "price" "number" false None;
   mkDataPoint "colours" "string" true None; mkDataPoint "stock" "number" false None;
   mkDataPoint "reviews" "string" true (Some "One per customer")].

Lemma shopPoints_distinct : List.NoDup (planIds shopPoints).
Proof.
  repeat (apply List.NoDup_cons; [simpl; intuition discriminate|]). apply List.NoDup_nil.
Qed.



(* --------------------------------------------------------------------- *)
(** ** A field without issue has a value of its type *)
(* --------------------------------------------------------------------- *)

(** The values that validator-agent.js takes for values of type
    [expectedType]; the type is compared as the plan spells it. *)
Definition conformsJS (P : Platform) (expectedType : string) (v : JsVal) : bool :=
  if String.eqb expectedType "number" then
    match v with VNum _ => true | _ => false end
  else if String.eqb expectedType "boolean" then
    match v with VBool _ => true | _ => false end
  else if String.eqb expectedType "url" || String.eqb expectedType "image_url" then
    match v with VStr s => isValidHttpUrl P s | _ => false end
  else if String.eqb expectedType "date" then
    match v with VStr _ | VDate _ => true | _ => false end
  else
    match v with VStr _ => true | _ => false end.

(** The same for validatorAgent.ts, which reads the type in lower case,
    knows more names for numbers, URLs and dates, and turns a Date into its
    ISO string. *)
Definition conformsTS (P : Platform) (expectedType : string) (v : JsVal) : bool :=
  let ty := JsString.toLowerCase expectedType in
  if TS.isNumberType ty then
    match v with VNum _ => true | _ => false end
  else if String.eqb ty "boolean" then
    match v with VBool _ => true | _ => false end
  else if TS.isUrlType ty then
    match v with VStr s => isValidHttpUrl P s | _ => false end
  else
    match v with VStr _ => true | _ => false end.

Definition nullOr (conforms : JsVal -> bool) (v : JsVal) : bool :=
  negb (isNotNull v) || conforms v.

Ltac conform :=
  unfold nullOr; simpl; reuse; simpl; rewrite ?orb_true_r; try reflexivity.

Lemma JS_clean_conforms P t d ty item c :
  JS.cleanAndValidateItem P t d ty item = (c, []) -> nullOr (conformsJS P ty) c = true.
Proof.
  intros H. unfold JS.cleanAndValidateItem in H.
  destruct item; cases_in H; try discriminate; injection H as <-;
    unfold conformsJS; conform.
Qed.

Lemma TS_clean_conforms P t d ty item c :
  TS.cleanAndValidateItem P t d (JsString.toLowerCase ty) item = Ok (c, []) ->
  nullOr (conformsTS P ty) c = true.
Proof.
  intros H. unfold TS.cleanAndValidateItem in H.
  destruct item; cases_in H; try discriminate; injection H as <-;
    unfold conformsTS; conform.
Qed.

(** What a field of the validated data must be: an array of conforming
    values for a list, a conforming value or [null] otherwise. *)
Definition fieldConforms (conforms : JsVal -> bool) (isList : bool) (v : JsVal) : bool :=
  if isList then match v with VArr l => forallb conforms l | _ => false end
  else nullOr conforms v.

Lemma kept_conform (conforms : JsVal -> bool) (cleaned : list JsVal) :
  forallb (nullOr conforms) cleaned = true ->
  forallb conforms (List.filter isNotNull cleaned) = true.
Proof.
  induction cleaned as [|c cleaned IH]; simpl; [reflexivity|]. intros H.
  apply andb_true_iff in H as [Hc Hr]. unfold nullOr in Hc.
  destruct (isNotNull c); simpl in *; [|now apply IH]. now rewrite Hc, IH.
Qed.

Lemma JS_cleanItems_conform P t d ty items :
  snd (JS.cleanItems P t d ty items) = [] ->
  forallb (nullOr (conformsJS P ty)) (fst (JS.cleanItems P t d ty items)) = true.
Proof.
  induction items as [|x items IH]; simpl; [reflexivity|].
  destruct (JS.cleanAndValidateItem P t d ty x) as [c i1] eqn:Ec.
  destruct (JS.cleanItems P t d ty items) as [cr ir]. simpl in *.
  intros H. apply app_eq_nil in H as [-> ->].
  now rewrite (JS_clean_conforms P t d ty x c Ec), IH.
Qed.

Lemma TS_cleanItems_conform P t d ty items cleaned :
  TS.cleanItems P t d (JsString.toLowerCase ty) items = Ok (cleaned, []) ->
  forallb (nullOr (conformsTS P ty)) cleaned = true.
Proof.
  revert cleaned. induction items as [|x items IH]; intros cleaned; simpl.
  - now intros [= <-].
  - unfoldR.
    destruct (TS.cleanAndValidateItem P t d (JsString.toLowerCase ty) x)
      as [[c i1]|e] eqn:Ec; [|discriminate].
    destruct (TS.cleanItems P t d (JsString.toLowerCase ty) items)
      as [[cr ir]|e]; [|discriminate].
    simpl. intros [= <- H]. apply app_eq_nil in H as [-> ->]. simpl.
    now rewrite (TS_clean_conforms P t d ty x c Ec), (IH cr eq_refl).
Qed.

Lemma JS_field_conforms P raw t dp :
  snd (JS.validateDataPoint P raw t dp) = [] ->
  fieldConforms (conformsJS P (dp_type dp)) (dp_isList dp)
    (fst (JS.validateDataPoint P raw t dp)) = true.
Proof.
  unfold fieldConforms. destruct (dp_isList dp) eqn:Hl.
  - destruct (reconcile_list raw dp Hl) as [items0 [i1 [Hrec _]]].
    unfold JS.validateDataPoint. rewrite Hl, Hrec.
    pose proof (JS_cleanItems_conform P t (dp_id dp) (dp_type dp) items0) as Hc.
    destruct (JS.cleanItems P t (dp_id dp) (dp_type dp) items0) as [cleaned i2].
    simpl in *. intros H. apply app_eq_nil in H as [_ H]. apply app_eq_nil in H as [-> _].
    now apply kept_conform, Hc.
  - unfold JS.validateDataPoint. rewrite Hl.
    destruct (reconcileShape (dp_id dp) false (initialData raw dp)) as [cur i1].
    destruct (JS.cleanAndValidateItem P t (dp_id dp) (dp_type dp) cur) as [c i2] eqn:Ec.
    simpl. intros H. apply app_eq_nil in H as [_ H]. apply app_eq_nil in H as [-> _].
    exact (JS_clean_conforms P t _ _ cur c Ec).
Qed.

Lemma TS_field_conforms P raw t dp v :
  TS.validateDataPoint P raw t dp = Ok (v, []) ->
  fieldConforms (conformsTS P (dp_type dp)) (dp_isList dp) v = true.
Proof.
  unfold fieldConforms. destruct (dp_isList dp) eqn:Hl.
  - destruct (reconcile_list raw dp Hl) as [items0 [i1 [Hrec _]]].
    unfold TS.validateDataPoint. rewrite Hl, Hrec. unfoldR.
    destruct (TS.cleanItems P t (dp_id dp) (JsString.toLowerCase (dp_type dp)) items0)
      as [[cleaned i2]|e] eqn:Hc; [|discriminate].
    destruct (TS_cleanItems_spec P t _ _ items0 cleaned i2 Hc) as [Hfrom _].
    destruct (kept_spec items0 cleaned Hfrom) as [Hsame _]. rewrite <- Hsame.
    intros H.
    assert (Hv : v = VArr (List.filter isNotNull cleaned) /\ i2 = []).
    { destruct (_ && _) in H.
      - destruct (TS.notEveryNullish raw (dp_id dp)) as [[|]|e]; simpl in H;
          [| |discriminate]; injection H as <- H;
          apply app_eq_nil in H as [_ H]; apply app_eq_nil in H as [H _];
          [now apply app_eq_nil in H as [_ H]|now split].
      - simpl in H. injection H as <- H.
        apply app_eq_nil in H as [_ H]. apply app_eq_nil in H as [H _]. now split. }
    destruct Hv as [-> ->]. simpl.
    apply kept_conform. exact (TS_cleanItems_conform P t (dp_id dp) _ _ _ Hc).
  - unfold TS.validateDataPoint. rewrite Hl.
    destruct (reconcileShape (dp_id dp) false (initialData raw dp)) as [cur i1]. unfoldR.
    destruct (TS.cleanAndValidateItem P t (dp_id dp) (JsString.toLowerCase (dp_type dp)) cur)
      as [[c i2]|e] eqn:Ec; [|discriminate].
    simpl. intros [= <- H]. apply app_eq_nil in H as [_ H]. apply app_eq_nil in H as [-> _].
    exact (TS_clean_conforms P t _ _ cur c Ec).
Qed.



(** The list of colours has no issue, and is a list of strings. *)
Example colours_are_strings :
  exists r, JS.validateData RefPlatform.platform (Some shopData)
              (Some (mkPlan (Some shopPoints) None)) = Ok r
            /\ issuesAbout "colours" (validationIssues r) = []
            /\ validatedData r !! "colours" = Some (VArr [VStr "blue"; VStr "white"]).
Proof. eexists. split; [reflexivity|]. vm_compute. now split. Qed.

(* --------------------------------------------------------------------- *)
(** ** A value that is missing *)
(* --------------------------------------------------------------------- *)

Definition requiredItemJS (d : string) : ValidationIssue :=
  issueOn d "Required item is missing or null." VNull.
Definition requiredListJS (d : string) : ValidationIssue :=
  issueOn d "Required list is empty." (VArr []).
Definition requiredTS (d : string) (v : JsVal) : ValidationIssue :=
  issueOn d "Required item is missing, null, or empty after validation." v.

Lemma JS_missing_item P raw t dp :
  dp_isList dp = false -> isNullish (getProp raw (dp_id dp)) = true ->
  JS.validateDataPoint P raw t dp
  = (VNull, if JS.notedRequired dp then [requiredItemJS (dp_id dp)] else []).
Proof.
  intros Hl Hnull. unfold JS.validateDataPoint, initialData, getProp in *. rewrite Hl.
  destruct (raw !! dp_id dp) as [[]|]; try discriminate; simpl;
    now destruct (JS.notedRequired dp).
Qed.

Lemma TS_missing_item P raw t dp :
  dp_isList dp = false -> isNullish (getProp raw (dp_id dp)) = true ->
  TS.validateDataPoint P raw t dp
  = Ok (VNull, if TS.isOptional dp then [] else [requiredTS (dp_id dp) VNull]).
Proof.
  intros Hl Hnull. unfold TS.validateDataPoint, initialData, getProp in *. rewrite Hl.
  destruct (raw !! dp_id dp) as [[]|]; try discriminate; simpl;
    now destruct (TS.isOptional dp).
Qed.

Lemma JS_absent_list P raw t dp :
  dp_isList dp = true -> raw !! dp_id dp = None ->
  JS.validateDataPoint P raw t dp
  = (VArr [], if JS.notedRequired dp then [requiredListJS (dp_id dp)] else []).
Proof.
  intros Hl Hnone.
  unfold JS.validateDataPoint, initialData, JS.rawLengthPositive, getProp.
  rewrite Hl, Hnone. simpl. now destruct (JS.notedRequired dp).
Qed.

Lemma TS_absent_list P raw t dp :
  dp_isList dp = true -> raw !! dp_id dp = None ->
  TS.validateDataPoint P raw t dp
  = Ok (VArr [], if TS.isOptional dp then [] else [requiredTS (dp_id dp) (VArr [])]).
Proof.
  intros Hl Hnone. unfold TS.validateDataPoint, initialData. rewrite Hl, Hnone. simpl.
  now destruct (TS.isOptional dp).
Qed.

(** What the entry and the issues of one data point are, given its turn of
    the loop, when the ids are distinct. *)
Lemma JS_report_of_field P raw dps t dp v issues :
  List.NoDup (planIds dps) -> In dp dps ->
  JS.validateDataPoint P raw t dp = (v, issues) ->
  exists r, JS.validateData P (Some raw) (Some (mkPlan (Some dps) t)) = Ok r
            /\ validatedData r !! dp_id dp = Some v
            /\ issuesAbout (dp_id dp) (validationIssues r) = issues.
Proof.
  intros Hids Hin Hdp. rewrite JS_validateData_ok. eexists. split; [reflexivity|].
  cbn [validatedData validationIssues]. split.
  - now rewrite JS_validateLoop_lookup, (lastWithId_NoDup dps dp Hids Hin), Hdp.
  - rewrite JS_validateLoop_issues. simpl.
    rewrite (issuesAbout_concat dps (fun x => snd (JS.validateDataPoint P raw t x)) dp
               (fun x => JS_field_about P raw t x) Hids Hin).
    now rewrite Hdp.
Qed.

Lemma TS_report_of_field P raw dps t dp v issues r :
  List.NoDup (planIds dps) -> In dp dps ->
  TS.validateDataPoint P raw t dp = Ok (v, issues) ->
  TS.validateData P (Some raw) (Some (mkPlan (Some dps) t)) = Ok r ->
  validatedData r !! dp_id dp = Some v
  /\ issuesAbout (dp_id dp) (validationIssues r) = issues.
Proof.
  intros Hids Hin Hdp. unfold TS.validateData. cbn [dataPoints targetUrl]. unfoldR.
  destruct (TS.validateLoop P raw t dps (∅, [])) as [[m i]|e] eqn:Hrun; [|discriminate].
  intros [= <-]. cbn [validatedData validationIssues].
  destruct (TS_validateLoop_fields P raw t dps m i Hrun) as [per [Hper [Hi Habout]]].
  destruct (TS_validateLoop_ok P raw t dps _ m i Hrun) as [Hlook _]. split.
  - now rewrite Hlook, (lastWithId_NoDup dps dp Hids Hin), Hdp.
  - rewrite Hi, (issuesAbout_concat dps (fun x => snd (per x)) dp Habout Hids Hin).
    specialize (Hper dp Hin). rewrite Hdp in Hper. now injection Hper as <-.
Qed.



(** The stock is missing: only validatorAgent.ts reports it; the reviews
    are missing and noted: both report them. *)
Example missing_stock_and_reviews :
  (exists r, JS.validateData RefPlatform.platform (Some shopData)
               (Some (mkPlan (Some shopPoints) None)) = Ok r
             /\ validatedData r !! "stock" = Some VNull
             /\ issuesAbout "stock" (validationIssues r) = []
             /\ issuesAbout "reviews" (validationIssues r) = [requiredListJS "reviews"])
  /\ (exists r, TS.validateData RefPlatform.platform (Some shopData)
                  (Some (mkPlan (Some shopPoints) None)) = Ok r
                /\ validatedData r !! "stock" = Some VNull
                /\ issuesAbout "stock" (validationIssues r) = [requiredTS "stock" VNull]
                /\ issuesAbout "reviews" (validationIssues r)
                   = [requiredTS "reviews" (VArr [])]).
Proof.
  split; (eexists; split; [vm_compute; reflexivity|]); vm_compute; repeat split.
Qed.

(* --------------------------------------------------------------------- *)
(** ** When validatorAgent.ts returns *)
(* --------------------------------------------------------------------- *)

(** A Date object that holds no time: [new Date('nonsense')]. *)
Definition invalidDate (v : JsVal) : bool :=
  match v with
  | VDate None => true
  | _ => false
  end.

(** The raw value is an Invalid Date, or an array that holds one. *)
Definition holdsInvalidDate (v : JsVal) : bool :=
  match v with
  | VArr l => existsb invalidDate l
  | _ => invalidDate v
  end.

Lemma TS_clean_returns P t d ty item :
  invalidDate item = false -> isOk (TS.cleanAndValidateItem P t d ty item) = true.
Proof.
  intros H. unfold TS.cleanAndValidateItem.
  destruct item as [| | | | |[iso|]| |]; try discriminate; split_cases; reflexivity.
Qed.

Lemma TS_cleanItems_returns P t d ty items :
  existsb invalidDate items = false ->
  exists cleaned i, TS.cleanItems P t d ty items = Ok (cleaned, i).
Proof.
  induction items as [|x items IH]; simpl; [eauto|]. intros H.
  apply orb_false_iff in H as [Hx Hr]. destruct (IH Hr) as [cleaned [i Hc]].
  pose proof (TS_clean_returns P t d ty x Hx) as Hok. unfoldR.
  destruct (TS.cleanAndValidateItem P t d ty x) as [[c i1]|e]; [|discriminate].
  rewrite Hc. simpl. eauto.
Qed.

Lemma TS_field_returns P raw t dp :
  (forall v, raw !! dp_id dp = Some v -> holdsInvalidDate v = false) ->
  isOk (TS.validateDataPoint P raw t dp) = true.
Proof.
  intros Hraw. destruct (dp_isList dp) eqn:Hl.
  - destruct (reconcile_list raw dp Hl) as [items0 [i1 [Hrec [_ [Harr [Hwrap Hnone]]]]]].
    assert (Hitems : existsb invalidDate items0 = false).
    { destruct (raw !! dp_id dp) as [v|] eqn:E.
      - specialize (Hraw v eq_refl). destruct (isArray v) eqn:Ha.
        + destruct v; try discriminate. now destruct (Harr items eq_refl) as [-> _].
        + destruct (Hwrap v eq_refl Ha) as [[_ ->]|[_ ->]]; [reflexivity|].
          simpl. rewrite orb_false_r. now destruct v.
      - now destruct (Hnone eq_refl) as [-> _]. }
    unfold TS.validateDataPoint. rewrite Hl, Hrec. unfoldR.
    destruct (TS_cleanItems_returns P t (dp_id dp) (JsString.toLowerCase (dp_type dp))
                items0 Hitems) as [cleaned [i2 Hc]].
    rewrite Hc. simpl.
    destruct (TS_cleanItems_spec P t _ _ items0 cleaned i2 Hc) as [Hfrom _].
    destruct (kept_spec items0 cleaned Hfrom) as [Hsame [_ [_ Hempty]]].
    rewrite <- Hsame.
    destruct ((0 <? List.length items0)%nat
              && (List.length (List.filter isNotNull cleaned) =? 0)%nat) eqn:Hcond;
      [|reflexivity].
    apply andb_true_iff in Hcond as [Hpos Hzero].
    apply Nat.ltb_lt in Hpos. apply Nat.eqb_eq in Hzero.
    assert (Hk : List.filter isNotNull cleaned = [])
      by (destruct (List.filter isNotNull cleaned); [reflexivity|discriminate]).
    apply Hempty in Hk.
    assert (Hevery : exists b, TS.notEveryNullish raw (dp_id dp) = Ok b).
    { unfold TS.notEveryNullish, getProp.
      destruct (raw !! dp_id dp) as [x|] eqn:E; [|eauto].
      destruct (isArray x) eqn:Ha.
      - destruct x; try discriminate. eauto.
      - destruct (Hwrap x eq_refl Ha) as [[_ ->]|[Hx ->]].
        + simpl in Hpos. lia.
        + simpl in Hk. rewrite Hx in Hk. discriminate. }
    destruct Hevery as [b ->]. now destruct b.
  - unfold TS.validateDataPoint. rewrite Hl.
    assert (Hcur : invalidDate (fst (reconcileShape (dp_id dp) false (initialData raw dp)))
                   = false).
    { unfold initialData. rewrite Hl. destruct (raw !! dp_id dp) as [v|] eqn:E; [|reflexivity].
      specialize (Hraw v eq_refl). destruct v as [| | | | |[iso|]| |[|x items]]; try reflexivity;
        try discriminate. simpl in *. now apply orb_false_iff in Hraw as [Hx _]. }
    destruct (reconcileShape (dp_id dp) false (initialData raw dp)) as [cur i1]. simpl in Hcur.
    pose proof (TS_clean_returns P t (dp_id dp) (JsString.toLowerCase (dp_type dp)) cur Hcur)
      as Hok.
    unfoldR.
    now destruct (TS.cleanAndValidateItem P t (dp_id dp) (JsString.toLowerCase (dp_type dp)) cur)
      as [[c i2]|e].
Qed.


Lemma noInvalidDate_checked (raw : gmap string JsVal) :
  forallb (fun kv => negb (holdsInvalidDate (snd kv))) (map_to_list raw) = true ->
  forall k v, raw !! k = Some v -> holdsInvalidDate v = false.
Proof.
  intros H k v Hk. rewrite forallb_forall in H.
  apply negb_true_iff. apply (H (k, v)). apply list_elem_of_In.
  now apply elem_of_map_to_list.
Qed.


(** An Invalid Date for a data point of type [date] makes validatorAgent.ts
    throw; validator-agent.js returns. *)
Example invalid_date_throws :
  isOk (TS.validateData RefPlatform.platform (Some {[ "seen" := VDate None ]})
          (Some (mkPlan (Some [mkDataPoint "seen" "date" false None]) None))) = false
  /\ isOk (JS.validateData RefPlatform.platform (Some {[ "seen" := VDate None ]})
             (Some (mkPlan (Some [mkDataPoint "seen" "date" false None]) None))) = true.
Proof. vm_compute. now split. Qed.

End ValidationReport.

(* ===================================================================== *)
(** * The calls that one query makes *)
(* ===================================================================== *)

Module GatewayCalls.

Import LLM GatewayFacts.

Lemma query_without_target b env prompt options history :
  (targetProviderId b options = None
   \/ exists target, targetProviderId b options = Some target
                     /\ JsString.nonEmpty target = false) ->
  query b env prompt options history
  = (errorResponse "No LLM provider available for query." None, []).
Proof.
  intros [Hnone|[target [Ht Hempty]]]; simp query.
  - now rewrite Hnone.
  - rewrite Ht. simpl. now rewrite Hempty.
Qed.

(** The calls go to registered providers, with the prompt of the query. *)
Definition wellAddressed (b : Bridge) (prompt : string) (c : ProviderCall) : Prop :=
  strIn (call_providerId c) (providerIds b) = true /\ call_prompt c = prompt.

(** The response is one that the bridge made up: it has an error. *)
Definition madeUp (r : Response) : Prop := truthyStr (error r) = true.

(** A query whose options name no fallback. *)
Lemma query_once b env prompt options history :
  (forall target, retries (routedOptions b options) target = false) ->
  let result := query b env prompt options history in
  List.length (snd result) <= 1
  /\ Forall (wellAddressed b prompt) (snd result)
  /\ (snd result = [] -> madeUp (fst result)).
Proof.
  intros Hno result. subst result.
  destruct (targetProviderId b options) as [target|] eqn:Ht.
  2:{ rewrite query_without_target by now left. simpl. repeat split; auto. }
  destruct (JsString.nonEmpty target) eqn:Hne.
  2:{ rewrite query_without_target by (right; now exists target). simpl. repeat split; auto. }
  destruct (strIn target (providerIds b)) eqn:Hreg.
  2:{ rewrite (query_unregistered b env prompt options history target Ht Hne Hreg).
      simpl. repeat split; auto. }
  rewrite (query_selected b env prompt options history target Ht Hne Hreg). simpl.
  rewrite Hno.
  destruct (answered (env history (mkCall target prompt (routedOptions b options))));
    simpl; (split; [lia|]); (split; [|discriminate]);
    (apply List.Forall_cons; [now split|apply List.Forall_nil]).
Qed.

(** X7.  One call of [LLMBridge.query] asks at most two providers, the
    second only after the first has failed; every provider it asks is
    registered and gets the prompt of the query; and a response that comes
    without any provider having been asked carries an error. *)
Theorem query_asks_at_most_two_providers
    (b : Bridge) (env : Providers) (prompt : string) (options : QueryOptions)
    (history : list ProviderCall) :
  let result := query b env prompt options history in
  List.length (snd result) <= 2
  /\ Forall (wellAddressed b prompt) (snd result)
  /\ (snd result = [] -> madeUp (fst result))
  /\ (forall first second, snd result = [first; second] ->
        exists m, answered (env history first) = Throw m).
Proof.
  intros result. subst result.
  destruct (targetProviderId b options) as [target|] eqn:Ht.
  2:{ rewrite query_without_target by now left. simpl. repeat split; auto; discriminate. }
  destruct (JsString.nonEmpty target) eqn:Hne.
  2:{ rewrite query_without_target by (right; now exists target).
      simpl. repeat split; auto; discriminate. }
  destruct (strIn target (providerIds b)) eqn:Hreg.
  2:{ rewrite (query_unregistered b env prompt options history target Ht Hne Hreg).
      simpl. repeat split; auto; discriminate. }
  rewrite (query_selected b env prompt options history target Ht Hne Hreg). simpl.
  set (call := mkCall target prompt (routedOptions b options)).
  assert (Hcall : wellAddressed b prompt call) by now split.
  destruct (answered (env history call)) as [response|m] eqn:Hanswer.
  { simpl. split; [lia|]. split; [now constructor|]. split; discriminate. }
  destruct (retries (routedOptions b options) target) eqn:Hretry.
  2:{ simpl. split; [lia|]. split; [now constructor|]. split; discriminate. }
  assert (Hno : forall target',
    retries (routedOptions b (fallbackOptions (routedOptions b options))) target' = false).
  { intros target'. unfold retries in Hretry.
    destruct (opt_fallbackProvider (routedOptions b options)) as [f|] eqn:Hf; [|discriminate].
    apply andb_true_iff in Hretry as [Hfne _].
    destruct (retry_options (routedOptions b options) f Hf Hfne b) as [_ [-> ->]].
    reflexivity. }
  destruct (query_once b env prompt (fallbackOptions (routedOptions b options))
              (history ++ [call]) Hno) as [Hlen [Hall _]].
  cbn [fst snd]. split; [simpl; lia|]. split; [now constructor|].
  split; [discriminate|]. intros first second [= <- _]. now exists m.
Qed.

End GatewayCalls.

(* ===================================================================== *)
(** * The registry of the Model Gateway (llmBridge.ts) *)
(* ===================================================================== *)

(** [registerProvider], [getProvider], [getProviderIds], [initialize] and
    [updateConfig] of [LLMBridge].  [Prov] is the type of the provider
    objects; the configurations of the connectors are kept as they are
    given.  [logLevel] only reaches the logger and is left out. *)
Module Registry.

Section Bridge.

Context {Prov OllamaConfig ExternalRest : Type}.

(** [ExternalConnectorConfig]: its [llmProvider] and the rest. *)
Record ExternalConfig : Type := mkExternal {
  ext_llmProvider : option string;
  ext_rest : option ExternalRest
}.

(** [LLMBridgeConfig] *)
Record Config : Type := mkConfig {
  cfg_llmProvider : option string;
  cfg_ollama : option OllamaConfig;
  cfg_external : option ExternalConfig
}.

(** The fields of an [LLMBridge]: [providers] is a [Map], whose keys keep
    the order in which they were first set. *)
Record State : Type := mkState {
  providers : list (string * Prov);
  defaultProviderId : option string;
  config : Config
}.

(** [new LLMBridge(config)] *)
Definition construct (cfg : Config) : State := mkState [] None cfg.

(** [map.set(k, v)] *)
Fixpoint mapSet (k : string) (v : Prov) (m : list (string * Prov)) : list (string * Prov) :=
  match m with
  | [] => [(k, v)]
  | (k', v') :: r => if String.eqb k' k then (k, v) :: r else (k', v') :: mapSet k v r
  end.

(** [map.get(k)] *)
Fixpoint mapGet (k : string) (m : list (string * Prov)) : option Prov :=
  match m with
  | [] => None
  | (k', v') :: r => if String.eqb k' k then Some v' else mapGet k r
  end.

(** [this.providers.has(k)] *)
Definition has (st : State) (k : string) : bool :=
  match mapGet k (providers st) with
  | Some _ => true
  | None => false
  end.

(** The state after the statements of [registerProvider] that follow its
    guard. *)
Definition registered (st : State) (providerId : string) (provider : Prov) : State :=
  mkState (mapSet providerId provider (providers st))
    (if truthyStr (defaultProviderId st) then defaultProviderId st else Some providerId)
    (config st).

(** [registerProvider(providerId, provider)]; [None] is a [provider] that
    is falsy or has no [query] function. *)
Definition registerProvider (st : State) (providerId : string) (provider : option Prov)
  : Result State :=
  match provider with
  | None =>
      Throw ("Invalid provider instance for: " ++ providerId ++ ". Must have a query method.")
  | Some p => Ok (registered st providerId p)
  end.

(** [getProvider(providerId)] *)
Definition getProvider (st : State) (providerId : string) : option Prov :=
  mapGet providerId (providers st).

(** [getProviderIds()] *)
Definition getProviderIds (st : State) : list string := List.map fst (providers st).

(** What [query] reads of the bridge. *)
Definition bridgeOf (st : State) : LLM.Bridge :=
  LLM.mkBridge (getProviderIds st) (defaultProviderId st) (cfg_llmProvider (config st)).

Definition isExternalName (p : option string) : bool :=
  match p with
  | Some s => JsString.nonEmpty s && strIn s LLM.externalNames
  | None => false
  end.

Definition setDefault (d : option string) (st : State) : State :=
  mkState (providers st) d (config st).

Definition setConfig (cfg : Config) (st : State) : State :=
  mkState (providers st) (defaultProviderId st) cfg.

Definition isSome {A : Type} (o : option A) : bool :=
  match o with
  | Some _ => true
  | None => false
  end.

(** The two constructors; they may throw.  [new OllamaConnector] is given
    [this.config.ollama || {}], [None] standing for the empty object. *)
Variable newOllama : option OllamaConfig -> Result Prov.
Variable newExternal : ExternalConfig -> Result Prov.

(** [this.config.llmProvider === name] *)
Definition isProvider (p : option string) (name : string) : bool :=
  match p with
  | Some s => String.eqb s name
  | None => false
  end.

(** The first [if] of [initialize]: the Ollama connector.  The connectors
    have a [query] method, so the guard of [registerProvider] passes. *)
Definition initOllama (st : State) : State :=
  let cfg := config st in
  if isProvider (cfg_llmProvider cfg) "ollama" || negb (truthyStr (cfg_llmProvider cfg))
     || isSome (cfg_ollama cfg)
  then match newOllama (cfg_ollama cfg) with
       | Ok instance => registered st "ollama" instance
       | Throw _ => st
       end
  else st.

(** The second [if]: the one connector of the external providers.  The
    assignment to [externalConfig.llmProvider] writes into
    [this.config.external] when that is the object at hand. *)
Definition initExternal (st : State) : State :=
  let cfg := config st in
  if isSome (cfg_external cfg) || isExternalName (cfg_llmProvider cfg) then
    let given :=
      match cfg_external cfg with
      | Some e => e
      | None => mkExternal (cfg_llmProvider cfg) None
      end in
    let externalConfig :=
      if truthyStr (cfg_llmProvider cfg) && negb (truthyStr (ext_llmProvider given))
      then mkExternal (cfg_llmProvider cfg) (ext_rest given)
      else given in
    let st1 :=
      match cfg_external cfg with
      | Some _ => setConfig (mkConfig (cfg_llmProvider cfg) (cfg_ollama cfg)
                               (Some externalConfig)) st
      | None => st
      end in
    match newExternal externalConfig with
    | Ok instance =>
        let st2 := registered st1 "external" instance in
        if isExternalName (cfg_llmProvider cfg) && negb (truthyStr (defaultProviderId st2))
        then setDefault (Some "external") st2
        else st2
    | Throw _ => st1
    end
  else st.

(** The last part: the default provider. *)
Definition chooseDefault (st : State) : State :=
  let p := cfg_llmProvider (config st) in
  if truthyStr p then
    if has st (default EmptyString p) then setDefault p st
    else if isExternalName p && has st "external" then setDefault (Some "external") st
    else st
  else if has st "ollama" then setDefault (Some "ollama") st
  else if has st "external" then setDefault (Some "external") st
  else st.

(** [initialize()] *)
Definition initialize (st : State) : State :=
  chooseDefault (initExternal (initOllama st)).

(** [Partial<LLMBridgeConfig>]: a key that is absent is [None]; a key that
    is present holds its value, which may be [undefined]. *)
Record PartialConfig : Type := mkPartial {
  new_llmProvider : option (option string);
  new_ollama : option (option OllamaConfig);
  new_external : option (option ExternalConfig)
}.

(** [{ ...this.config, ...newConfig }] *)
Definition merge (cfg : Config) (newConfig : PartialConfig) : Config :=
  mkConfig (default (cfg_llmProvider cfg) (new_llmProvider newConfig))
    (default (cfg_ollama cfg) (new_ollama newConfig))
    (default (cfg_external cfg) (new_external newConfig)).

(** The bridge after the first part of [updateConfig]: the new
    configuration and the default provider. *)
Definition reconfigured (st : State) (newConfig : PartialConfig) : State :=
  let st1 := setConfig (merge (config st) newConfig) st in
  match new_llmProvider newConfig with
  | Some (Some p) =>
      if JsString.nonEmpty p then
        if has st1 p then setDefault (Some p) st1
        else if strIn p LLM.externalNames && has st1 "external"
        then setDefault (Some "external") st1
        else setDefault (Some p) st1
      else st1
  | _ => st1
  end.

(** What a provider's [updateConfig] is given: the configuration of the
    bridge, with the fields of its own part spread over it. *)
Inductive Overlay : Type :=
  | Plain
  | OverOllama (c : OllamaConfig)
  | OverExternal (c : ExternalConfig).

Record Notification : Type := mkNotification {
  note_providerId : string;
  note_config : Config;
  note_overlay : Overlay
}.

Definition overlayFor (providerId : string) (cfg : Config) : Overlay :=
  match (if String.eqb providerId "ollama" then cfg_ollama cfg else None) with
  | Some c => OverOllama c
  | None =>
      match (if String.eqb providerId "external" then cfg_external cfg else None) with
      | Some e => OverExternal e
      | None => Plain
      end
  end.

(** [provider.updateConfig], when the provider has such a function. *)
Variable updateConfigOf : Prov -> option (Notification -> Result unit).

(** [this.providers.forEach(...)]: it stops at the first call that throws. *)
Fixpoint notifyAll (cfg : Config) (ps : list (string * Prov))
  : Result unit * list Notification :=
  match ps with
  | [] => (Ok tt, [])
  | (providerId, provider) :: r =>
      match updateConfigOf provider with
      | None => notifyAll cfg r
      | Some f =>
          let n := mkNotification providerId cfg (overlayFor providerId cfg) in
          match f n with
          | Ok _ => let '(res, ns) := notifyAll cfg r in (res, n :: ns)
          | Throw m => (Throw m, [n])
          end
      end
  end.

(** [updateConfig(newConfig)]: its outcome, the bridge it leaves and the
    providers it told. *)
Definition updateConfig (st : State) (newConfig : PartialConfig)
  : Result unit * State * list Notification :=
  let st' := reconfigured st newConfig in
  let '(res, ns) := notifyAll (config st') (providers st') in
  (res, st', ns).

End Bridge.

Arguments ExternalConfig : clear implicits.
Arguments Config : clear implicits.
Arguments State : clear implicits.
Arguments PartialConfig : clear implicits.
Arguments Notification : clear implicits.

End Registry.

(* ===================================================================== *)
(** * Properties of the registry *)
(* ===================================================================== *)

Module RegistryFacts.

Import Registry.

Section Facts.

Context {Prov OllamaConfig ExternalRest : Type}.

Lemma mapGet_mapSet_eq (k : string) (v : Prov) m : mapGet k (mapSet k v m) = Some v.
Proof.
  induction m as [|[k' v'] m IH]; simpl.
  - now rewrite String.eqb_refl.
  - destruct (String.eqb k' k) eqn:E; simpl.
    + now rewrite String.eqb_refl.
    + now rewrite E.
Qed.

Lemma mapGet_mapSet_ne (k k0 : string) (v : Prov) m :
  k0 <> k -> mapGet k0 (mapSet k v m) = mapGet k0 m.
Proof.
  intros Hne. induction m as [|[k' v'] m IH]; simpl.
  - assert (E : String.eqb k k0 = false) by (apply String.eqb_neq; congruence).
    now rewrite E.
  - destruct (String.eqb k' k) eqn:E; simpl.
    + apply String.eqb_eq in E. subst k'.
      assert (E : String.eqb k k0 = false) by (apply String.eqb_neq; congruence).
      now rewrite E.
    + destruct (String.eqb k' k0); [reflexivity|exact IH].
Qed.

Lemma mapGet_In (k : string) (m : list (string * Prov)) :
  In k (List.map fst m) <-> exists v, mapGet k m = Some v.
Proof.
  induction m as [|[k' v'] m IH]; simpl.
  - split; [easy|now intros [v Hv]].
  - destruct (String.eqb k' k) eqn:E.
    + apply String.eqb_eq in E. split; [eauto|now left].
    + apply String.eqb_neq in E. rewrite <- IH. split; [now intros [H|H]|now right].
Qed.

Lemma keys_mapSet (k : string) (v : Prov) m :
  List.map fst (mapSet k v m)
  = if existsb (String.eqb k) (List.map fst m) then List.map fst m
    else List.map fst m ++ [k].
Proof.
  induction m as [|[k' v'] m IH]; simpl; [reflexivity|].
  rewrite (String.eqb_sym k k'). destruct (String.eqb k' k) eqn:E; simpl.
  - apply String.eqb_eq in E. now subst k'.
  - rewrite IH. now destruct (existsb (String.eqb k) (List.map fst m)).
Qed.

Lemma NoDup_snoc (k : string) (l : list string) :
  List.NoDup l -> ~ In k l -> List.NoDup (l ++ [k]).
Proof.
  induction l as [|a l IH]; simpl; intros Hnd Hk.
  - apply List.NoDup_cons; [easy|apply List.NoDup_nil].
  - rewrite List.NoDup_cons_iff in Hnd. destruct Hnd as [Ha Hnd].
    apply List.NoDup_cons.
    + rewrite in_app_iff. simpl. intros [H|[H|[]]]; [contradiction|]. apply Hk. now left.
    + apply IH; [exact Hnd|]. intros H. apply Hk. now right.
Qed.

Lemma keys_mapSet_NoDup (k : string) (v : Prov) m :
  List.NoDup (List.map fst m) -> List.NoDup (List.map fst (mapSet k v m)).
Proof.
  intros Hnd. rewrite keys_mapSet.
  destruct (existsb (String.eqb k) (List.map fst m)) eqn:E; [exact Hnd|].
  apply NoDup_snoc; [exact Hnd|]. intros Hx.
  assert (Ht : existsb (String.eqb k) (List.map fst m) = true).
  { apply existsb_exists. exists k. split; [exact Hx|apply String.eqb_refl]. }
  congruence.
Qed.

(** X8.  [registerProvider] refuses a provider that is missing or has no
    [query] function.  Otherwise [getProvider] returns the provider under
    its id afterwards, and what it returns for the other ids is unchanged;
    the ids stay distinct and keep their order, a new id coming last and a
    re-registered one keeping its place; and the provider becomes the
    default exactly when there was no default. *)
Theorem registerProvider_then_getProvider
    (st : State Prov OllamaConfig ExternalRest) (providerId : string) (provider : Prov) :
  registerProvider st providerId None
  = Throw ("Invalid provider instance for: " +:+ providerId +:+ ". Must have a query method.")
  /\ exists st', registerProvider st providerId (Some provider) = Ok st'
     /\ getProvider st' providerId = Some provider
     /\ (forall other, other <> providerId -> getProvider st' other = getProvider st other)
     /\ getProviderIds st'
        = (if has st providerId then getProviderIds st
           else getProviderIds st ++ [providerId])
     /\ (List.NoDup (getProviderIds st) -> List.NoDup (getProviderIds st'))
     /\ defaultProviderId st'
        = (if truthyStr (defaultProviderId st) then defaultProviderId st
           else Some providerId)
     /\ config st' = config st.
Proof.
  split; [reflexivity|]. eexists. split; [reflexivity|].
  unfold getProvider, getProviderIds, registered, has. simpl.
  split; [apply mapGet_mapSet_eq|]. split; [intros other; apply mapGet_mapSet_ne|].
  split.
  - rewrite keys_mapSet.
    destruct (mapGet providerId (providers st)) as [v|] eqn:E.
    + assert (Hin : In providerId (List.map fst (providers st)))
        by (apply mapGet_In; eauto).
      assert (Ht : existsb (String.eqb providerId) (List.map fst (providers st)) = true).
      { apply existsb_exists. exists providerId. split; [exact Hin|apply String.eqb_refl]. }
      now rewrite Ht.
    + destruct (existsb (String.eqb providerId) (List.map fst (providers st))) eqn:Ht;
        [|reflexivity].
      apply existsb_exists in Ht as [x [Hx Heq]]. apply String.eqb_eq in Heq. subst x.
      apply mapGet_In in Hx as [v Hv]. congruence.
  - split; [apply keys_mapSet_NoDup|]. now split.
Qed.

(* --------------------------------------------------------------------- *)
(** ** initialize *)
(* --------------------------------------------------------------------- *)

(** What [initialize] keeps true of a bridge: its providers are the two
    connectors at most, and its default provider, if any, is one of them. *)
Record settled (st : State Prov OllamaConfig ExternalRest) : Prop := mkSettled {
  settled_ids : forall id, In id (getProviderIds st) -> id = "ollama" \/ id = "external";
  settled_distinct : List.NoDup (getProviderIds st);
  settled_none : defaultProviderId st = None <-> getProviderIds st = [];
  settled_default : forall d, defaultProviderId st = Some d -> In d (getProviderIds st)
}.

Lemma has_In (st : State Prov OllamaConfig ExternalRest) k :
  has st k = true <-> In k (getProviderIds st).
Proof.
  unfold has, getProviderIds. rewrite mapGet_In.
  destruct (mapGet k (providers st)); split; eauto; try discriminate. now intros [v Hv].
Qed.

Lemma settled_construct cfg : settled (construct cfg).
Proof. constructor; simpl; try easy. apply List.NoDup_nil. Qed.

Lemma settled_setConfig st cfg : settled st -> settled (setConfig cfg st).
Proof. intros [H1 H2 H3 H4]. now constructor. Qed.

Lemma settled_setDefault st d :
  settled st -> has st d = true -> settled (setDefault (Some d) st).
Proof.
  intros [H1 H2 H3 H4] Hd. apply has_In in Hd. constructor; simpl; try assumption.
  - split; [discriminate|]. intros Hnil. unfold getProviderIds in *. simpl in *.
    rewrite Hnil in Hd. destruct Hd.
  - now intros d' [= <-].
Qed.

Lemma settled_registered st id (p : Prov) :
  settled st -> id = "ollama" \/ id = "external" -> settled (registered st id p).
Proof.
  intros [H1 H2 H3 H4] Hid.
  assert (Hin : In id (getProviderIds (registered st id p))).
  { apply has_In. unfold has, registered. simpl. now rewrite mapGet_mapSet_eq. }
  assert (Hkeys : forall x, In x (getProviderIds (registered st id p)) ->
                            x = id \/ In x (getProviderIds st)).
  { intros x. unfold getProviderIds, registered. simpl. rewrite keys_mapSet.
    destruct (existsb _ _); [now right|]. rewrite in_app_iff. simpl. intuition. }
  constructor.
  - intros x Hx. destruct (Hkeys x Hx) as [->|Hx']; [exact Hid|now apply H1].
  - unfold getProviderIds, registered. simpl. now apply keys_mapSet_NoDup.
  - split.
    + unfold registered. simpl. destruct (defaultProviderId st) as [d|] eqn:Ed.
      * destruct (truthyStr (Some d)); discriminate.
      * discriminate.
    + intros Hnil. rewrite Hnil in Hin. destruct Hin.
  - intros d. unfold registered at 1. simpl.
    destruct (defaultProviderId st) as [d0|] eqn:Ed.
    + specialize (H4 d0 eq_refl).
      assert (Ht : truthyStr (Some d0) = true)
        by (destruct (H1 d0 H4) as [->| ->]; reflexivity).
      rewrite Ht. intros [= <-].
      apply has_In. unfold has, registered. simpl.
      destruct (String.eqb_spec id d0) as [->|Hne].
      * now rewrite mapGet_mapSet_eq.
      * rewrite mapGet_mapSet_ne by congruence. apply has_In in H4. exact H4.
    + simpl. now intros [= <-].
Qed.

Variable newOllama : option OllamaConfig -> Result Prov.
Variable newExternal : ExternalConfig ExternalRest -> Result Prov.

Lemma settled_initOllama st : settled st -> settled (initOllama newOllama st).
Proof.
  intros H. unfold initOllama. destruct (_ || _); [|exact H].
  destruct (newOllama (cfg_ollama (config st))); [|exact H].
  apply settled_registered; [exact H|now left].
Qed.

Lemma settled_initExternal st : settled st -> settled (initExternal newExternal st).
Proof.
  intros H. unfold initExternal. cbv zeta.
  destruct (isSome (cfg_external (config st)) || isExternalName (cfg_llmProvider (config st)));
    [|exact H].
  match goal with |- settled (match newExternal ?c with _ => _ end) => generalize c end.
  intros externalConfig.
  match goal with
  | |- settled (match _ with Ok _ => _ | Throw _ => ?s1 end) =>
      assert (H1 : settled s1);
      [destruct (cfg_external (config st)); [now apply settled_setConfig|exact H]|];
      generalize dependent s1
  end.
  intros st1 H1.
  destruct (newExternal externalConfig) as [instance|m]; [|exact H1].
  assert (H2 : settled (registered st1 "external" instance))
    by (apply settled_registered; [exact H1|now right]).
  destruct (isExternalName (cfg_llmProvider (config st))
            && negb (truthyStr (defaultProviderId (registered st1 "external" instance))));
    [|exact H2].
  apply settled_setDefault; [exact H2|].
  unfold has, registered. simpl. now rewrite mapGet_mapSet_eq.
Qed.

Lemma settled_chooseDefault st : settled st -> settled (chooseDefault st).
Proof.
  intros H. unfold chooseDefault.
  destruct (truthyStr (cfg_llmProvider (config st))) eqn:Ht.
  - destruct (cfg_llmProvider (config st)) as [p|]; [|discriminate].
    change (default EmptyString (Some p)) with p.
    destruct (has st p) eqn:Hp; [now apply settled_setDefault|].
    destruct (isExternalName (Some p)); [|exact H]. cbn [andb].
    destruct (has st "external") eqn:He; [now apply settled_setDefault|exact H].
  - destruct (has st "ollama") eqn:Ho; [now apply settled_setDefault|].
    destruct (has st "external") eqn:He; [now apply settled_setDefault|exact H].
Qed.

Lemma settled_initialize cfg :
  settled (initialize newOllama newExternal (construct cfg)).
Proof.
  unfold initialize.
  apply settled_chooseDefault, settled_initExternal, settled_initOllama, settled_construct.
Qed.

(** A query that names no provider, on a settled bridge. *)
Lemma settled_query st env prompt options history :
  settled st -> truthyStr (LLM.opt_provider options) = false ->
  (getProviderIds st = []
   /\ LLM.query (bridgeOf st) env prompt options history
      = (LLM.errorResponse "No LLM provider available for query." None, []))
  \/ (exists d rest,
        defaultProviderId st = Some d
        /\ snd (LLM.query (bridgeOf st) env prompt options history)
           = LLM.mkCall d prompt options :: rest).
Proof.
  intros [H1 H2 H3 H4] Hopt.
  assert (Hreq : LLM.requestedProvider (bridgeOf st) options = defaultProviderId st)
    by (unfold LLM.requestedProvider; now rewrite Hopt).
  destruct (defaultProviderId st) as [d|] eqn:Ed.
  - right. specialize (H4 d eq_refl). pose proof (H1 d H4) as Hd.
    assert (Hroute : LLM.routesToExternal (bridgeOf st) (Some d) = false)
      by (destruct Hd as [->| ->]; reflexivity).
    assert (Ht : LLM.targetProviderId (bridgeOf st) options = Some d)
      by (unfold LLM.targetProviderId; now rewrite Hreq, Hroute).
    assert (Hro : LLM.routedOptions (bridgeOf st) options = options)
      by (unfold LLM.routedOptions; now rewrite Hreq, Hroute).
    assert (Hne : JsString.nonEmpty d = true) by (destruct Hd as [->| ->]; reflexivity).
    assert (Hreg : strIn d (LLM.providerIds (bridgeOf st)) = true).
    { apply existsb_exists. exists d. split; [exact H4|apply String.eqb_refl]. }
    rewrite (GatewayFacts.query_selected _ env prompt options history d Ht Hne Hreg).
    simpl. rewrite Hro.
    destruct (LLM.answered _); [now eexists _, _|].
    destruct (LLM.retries options d); now eexists _, _.
  - left. split; [now apply H3|].
    apply GatewayCalls.query_without_target. left.
    unfold LLM.targetProviderId. now rewrite Hreq.
Qed.

(** X9.  After [initialize()] on a new bridge, whatever the configuration
    and whether or not the connectors could be constructed: the providers
    are ['ollama'] and ['external'] at most, each once; there is a default
    provider if and only if a provider is registered, and it is a
    registered one.  Hence a query that names no provider is answered
    ['No LLM provider available for query.'] when nothing is registered,
    and otherwise goes to the default provider first: it is never told
    that its provider was not found. *)
Theorem initialize_settles_the_default_provider (cfg : Config OllamaConfig ExternalRest) :
  let st := initialize newOllama newExternal (construct cfg) in
  (forall id, In id (getProviderIds st) -> id = "ollama" \/ id = "external")
  /\ List.NoDup (getProviderIds st)
  /\ (defaultProviderId st = None <-> getProviderIds st = [])
  /\ (forall d, defaultProviderId st = Some d -> getProvider st d <> None)
  /\ (forall env prompt options history,
        truthyStr (LLM.opt_provider options) = false ->
        (getProviderIds st = []
         /\ LLM.query (bridgeOf st) env prompt options history
            = (LLM.errorResponse "No LLM provider available for query." None, []))
        \/ (exists d rest,
              defaultProviderId st = Some d
              /\ snd (LLM.query (bridgeOf st) env prompt options history)
                 = LLM.mkCall d prompt options :: rest)).
Proof.
  intros st. pose proof (settled_initialize cfg) as H. fold st in H.
  destruct H as [H1 H2 H3 H4].
  split; [exact H1|]. split; [exact H2|]. split; [exact H3|]. split.
  - intros d Hd. specialize (H4 d Hd). apply has_In in H4. unfold has in H4.
    unfold getProvider. now destruct (mapGet d (providers st)).
  - intros env prompt options history Hopt.
    apply settled_query; [now constructor|exact Hopt].
Qed.

(* --------------------------------------------------------------------- *)
(** ** updateConfig *)
(* --------------------------------------------------------------------- *)

Lemma has_strIn (st : State Prov OllamaConfig ExternalRest) k :
  strIn k (getProviderIds st) = has st k.
Proof.
  destruct (has st k) eqn:E.
  - apply existsb_exists. exists k. split; [now apply has_In|apply String.eqb_refl].
  - destruct (strIn k (getProviderIds st)) eqn:E'; [|reflexivity].
    apply existsb_exists in E' as [x [Hx Heq]]. apply String.eqb_eq in Heq. subst x.
    apply has_In in Hx. congruence.
Qed.

Variable updateConfigOf : Prov -> option (Notification OllamaConfig ExternalRest -> Result unit).

(** X10.  [updateConfig({ llmProvider: p })] makes [p] the default provider
    also when no provider is registered under [p] and [p] is not an
    external name that the ['external'] connector serves; it registers and
    removes nothing.  From then on a query that names no provider is
    answered with the error that provider [p] was not found, and no
    provider is asked, whatever providers are registered. *)
Theorem updateConfig_can_name_an_unregistered_default
    (st : State Prov OllamaConfig ExternalRest)
    (newConfig : PartialConfig OllamaConfig ExternalRest) (p : string)
    (Hnew : new_llmProvider newConfig = Some (Some p))
    (Hname : JsString.nonEmpty p = true)
    (Hunknown : has st p = false)
    (Hunrouted : strIn p LLM.externalNames && has st "external" = false) :
  let st' := snd (fst (updateConfig updateConfigOf st newConfig)) in
  defaultProviderId st' = Some p
  /\ providers st' = providers st
  /\ cfg_llmProvider (config st') = Some p
  /\ forall env prompt options history,
       truthyStr (LLM.opt_provider options) = false ->
       LLM.query (bridgeOf st') env prompt options history
       = (LLM.errorResponse
            ("LLM provider '" +:+ p +:+ "' not found. Available: "
             +:+ JsString.join ", " (getProviderIds st)) None, []).
Proof.
  intros st'.
  assert (Hst : st' = setDefault (Some p) (setConfig (merge (config st) newConfig) st)).
  { unfold st', updateConfig. destruct (notifyAll _ _ _) as [res ns]. simpl.
    unfold reconfigured. rewrite Hnew, Hname.
    change (has (setConfig (merge (config st) newConfig) st) p) with (has st p).
    change (has (setConfig (merge (config st) newConfig) st) "external")
      with (has st "external").
    now rewrite Hunknown, Hunrouted. }
  rewrite Hst. simpl. split; [reflexivity|]. split; [reflexivity|].
  split; [now rewrite Hnew|].
  intros env prompt options history Hopt.
  set (b := bridgeOf (setDefault (Some p) (setConfig (merge (config st) newConfig) st))).
  assert (Hreq : LLM.requestedProvider b options = Some p)
    by (unfold LLM.requestedProvider; now rewrite Hopt).
  assert (Hroute : LLM.routesToExternal b (Some p) = false).
  { unfold LLM.routesToExternal. rewrite Hname. simpl.
    change (LLM.providerIds b) with (getProviderIds st). now rewrite has_strIn. }
  assert (Ht : LLM.targetProviderId b options = Some p)
    by (unfold LLM.targetProviderId; now rewrite Hreq, Hroute).
  assert (Hreg : strIn p (LLM.providerIds b) = false)
    by (change (LLM.providerIds b) with (getProviderIds st); now rewrite has_strIn).
  now rewrite (GatewayFacts.query_unregistered b env prompt options history p Ht Hname Hreg).
Qed.

End Facts.

(** A bridge with the local provider only, told to use a provider that
    nobody registered. *)
Definition localOnly : State unit unit unit :=
  mkState [("ollama", tt)] (Some "ollama") (mkConfig (Some "ollama") None None).

Definition useGemini : PartialConfig unit unit :=
  mkPartial (Some (Some "gemini")) None None.

Lemma updateConfig_can_name_an_unregistered_default_witness :
  let st' := snd (fst (updateConfig (fun _ => None) localOnly useGemini)) in
  defaultProviderId st' = Some "gemini"
  /\ providers st' = providers localOnly
  /\ cfg_llmProvider (config st') = Some "gemini"
  /\ forall env prompt options history,
       truthyStr (LLM.opt_provider options) = false ->
       LLM.query (bridgeOf st') env prompt options history
       = (LLM.errorResponse
            ("LLM provider '" +:+ "gemini" +:+ "' not found. Available: "
             +:+ JsString.join ", " (getProviderIds localOnly)) None, []).
Proof.
  apply (updateConfig_can_name_an_unregistered_default (fun _ => None) localOnly useGemini
           "gemini"); reflexivity.
Defined.

End RegistryFacts.

(* ===================================================================== *)
(** * Reading the lines of a plan *)
(* ===================================================================== *)

Module PlanLines.

Import JsString JsStringFacts NormalizeFacts Planner.

(** White space only. *)
Fixpoint blank (s : string) : bool :=
  match s with
  | EmptyString => true
  | String c r => isSpace c && blank r
  end.

Fixpoint allChars (p : ascii -> bool) (s : string) : bool :=
  match s with
  | EmptyString => true
  | String c r => p c && allChars p r
  end.

(** A field name as the plan format has it: not empty, without [:], [[]
    and []], and without white space at its ends. *)
Definition cleanName (name : string) : bool :=
  nonEmpty name && allChars isNameChar name && startsClean name && endsClean name.

Lemma app_empty_r s : (s ++ EmptyString)%string = s.
Proof. induction s as [|c s IH]; [reflexivity|]. now rewrite append_cons, IH. Qed.

Lemma app_assoc_s a b c : ((a ++ b) ++ c)%string = (a ++ (b ++ c))%string.
Proof. induction a as [|x a IH]; [reflexivity|]. now rewrite !append_cons, IH. Qed.

Lemma trimStart_blank_app indent s : blank indent = true -> trimStart (indent ++ s) = trimStart s.
Proof.
  induction indent as [|c indent IH]; [reflexivity|]. simpl. intros H.
  apply andb_true_iff in H as [Hc Hr]. rewrite ?append_cons. simpl. rewrite Hc. now apply IH.
Qed.

Lemma trimEnd_blank s : blank s = true -> trimEnd s = EmptyString.
Proof.
  induction s as [|c s IH]; [reflexivity|]. simpl. intros H.
  apply andb_true_iff in H as [Hc Hr]. now rewrite (IH Hr), Hc.
Qed.

(** [trimEnd] leaves alone what comes before a character that is not white
    space. *)
Lemma trimEnd_app a b :
  nonEmpty a = true -> endsClean a = true -> trimEnd (a ++ b) = (a ++ trimEnd b)%string.
Proof.
  induction a as [|c a IH]; [discriminate|]. intros _ Hend.
  rewrite !append_cons. cbn [trimEnd]. destruct a as [|d a].
  - rewrite !append_nil. simpl in Hend. apply negb_true_iff in Hend.
    destruct (trimEnd b); [now rewrite Hend|reflexivity].
  - rewrite IH by (try reflexivity; exact Hend). now rewrite append_cons.
Qed.

Lemma splitWhile_app p a b :
  allChars p a = true ->
  match b with
  | EmptyString => True
  | String c _ => p c = false
  end ->
  RefPlatform.splitWhile p (a ++ b) = (a, b).
Proof.
  intros Ha Hb. induction a as [|c a IH].
  - rewrite append_nil. destruct b as [|d b]; [reflexivity|]. simpl. now rewrite Hb.
  - simpl in Ha. apply andb_true_iff in Ha as [Hc Ha]. rewrite ?append_cons. simpl.
    now rewrite Hc, (IH Ha).
Qed.

Lemma allChars_app p a b : allChars p (a ++ b) = allChars p a && allChars p b.
Proof.
  induction a as [|c a IH]; [reflexivity|]. rewrite ?append_cons. simpl.
  now rewrite IH, andb_assoc.
Qed.

Lemma blank_nameChars s : blank s = true -> allChars isNameChar s = true.
Proof.
  induction s as [|c s IH]; [reflexivity|]. simpl. intros H.
  apply andb_true_iff in H as [Hc Hr]. rewrite (IH Hr), andb_true_r.
  destruct c as [[] [] [] [] [] [] [] []]; try reflexivity; discriminate.
Qed.

Lemma trimEnd_nonEmpty body :
  nonEmpty body = true -> startsClean body = true -> trimEnd body <> EmptyString.
Proof.
  destruct body as [|c body]; [discriminate|]. simpl. intros _ Hc.
  apply negb_true_iff in Hc. rewrite Hc. now destruct (trimEnd body).
Qed.

(** What [stripBullet] leaves of a bulleted line. *)
Lemma stripBullet_bullet indent body :
  blank indent = true -> nonEmpty body = true -> startsClean body = true ->
  stripBullet (indent ++ "- " ++ body) = trimEnd body.
Proof.
  intros Hindent Hne Hstart. unfold stripBullet, trim.
  rewrite (trimStart_blank_app indent _ Hindent).
  pose proof (trimEnd_nonEmpty body Hne Hstart) as Ht.
  assert (E : trimEnd (trimStart ("- " ++ body)) = String "-" (String " " (trimEnd body))).
  { change (trimStart ("- " ++ body)) with (String "-" (String " " body)).
    cbn [trimEnd]. now destruct (trimEnd body). }
  rewrite E. cbn [trimStart]. change (isSpace " ") with true. cbv iota.
  apply trimStart_fix. now apply trimEnd_startsClean.
Qed.

(** [trimEnd] keeps what comes before a character that is not white
    space, and that character. *)
Lemma trimEnd_keeps a c b :
  isSpace c = false ->
  exists b', trimEnd (a ++ String c b) = (a ++ String c b')%string.
Proof.
  intros Hc. induction a as [|d a [b' IH]].
  - rewrite append_nil. simpl. destruct (trimEnd b) as [|e r]; rewrite ?Hc; eauto.
  - exists b'. rewrite !append_cons. cbn [trimEnd]. rewrite IH. now destruct a.
Qed.

(** The groups of the regular expression of a field, on a field that
    starts with a character of a name. *)
Lemma typeMatch_name name tail :
  nonEmpty name = true -> allChars isNameChar name = true ->
  match tail with
  | EmptyString => True
  | String c _ => isNameChar c = false
  end ->
  typeMatch (name ++ tail)
  = Some (name,
          match tail with
          | String "["%char r =>
              match RefPlatform.splitWhile isNotClosing r with
              | (inner, String "]"%char _) => if nonEmpty inner then Some inner else None
              | _ => None
              end
          | _ => None
          end).
Proof.
  intros Hne Hchars Htail. unfold typeMatch.
  assert (Hdrop : dropWhile (fun c => negb (isNameChar c)) (name ++ tail)
                  = (name ++ tail)%string).
  { destruct name as [|c name]; [discriminate|].
    simpl in Hchars. apply andb_true_iff in Hchars as [Hc _].
    rewrite append_cons. simpl. now rewrite Hc. }
  rewrite Hdrop. destruct (name ++ tail)%string as [|c s] eqn:E.
  - destruct name; discriminate.
  - rewrite <- E. now rewrite (splitWhile_app isNameChar name tail Hchars Htail).
Qed.



(* --------------------------------------------------------------------- *)
(** ** The entries of a bulleted section *)
(* --------------------------------------------------------------------- *)

Definition notNewline (c : ascii) : bool := negb (Ascii.eqb c newline).

(** An entry as [parseBullets] leaves it: one line, not empty, without
    white space at its ends. *)
Definition cleanEntry (s : string) : bool :=
  nonEmpty s && allChars notNewline s && startsClean s && endsClean s.

Lemma splitLines_oneLine s : Forall (fun l => allChars notNewline l = true) (splitLines s).
Proof.
  induction s as [|c s IH]; simpl.
  - now constructor.
  - destruct (Ascii.eqb c newline) eqn:E.
    + constructor; [reflexivity|exact IH].
    + destruct (splitLines s) as [|l ls]; constructor.
      * simpl. unfold notNewline at 1. now rewrite E.
      * constructor.
      * inversion IH; subst. simpl. unfold notNewline at 1. now rewrite E.
      * now inversion IH.
Qed.

Lemma trimStart_allChars p s : allChars p s = true -> allChars p (trimStart s) = true.
Proof.
  induction s as [|c s IH]; [reflexivity|]. simpl. intros H.
  apply andb_true_iff in H as [Hc Hs]. destruct (isSpace c); [now apply IH|].
  simpl. now rewrite Hc.
Qed.

Lemma trimEnd_allChars p s : allChars p s = true -> allChars p (trimEnd s) = true.
Proof.
  induction s as [|c s IH]; [reflexivity|]. simpl. intros H.
  apply andb_true_iff in H as [Hc Hs]. specialize (IH Hs).
  destruct (trimEnd s) as [|d r].
  - destruct (isSpace c); [reflexivity|]. simpl. now rewrite Hc.
  - cbn [allChars]. rewrite Hc. exact IH.
Qed.

Lemma trimStart_endsClean s : endsClean s = true -> endsClean (trimStart s) = true.
Proof.
  induction s as [|c s IH]; [reflexivity|]. intros H. cbn [trimStart].
  destruct (isSpace c) eqn:E; [|exact H].
  destruct s as [|d s]; [reflexivity|]. apply IH. exact H.
Qed.

Lemma stripBullet_clean line :
  allChars notNewline line = true ->
  stripBullet line = EmptyString \/ cleanEntry (stripBullet line) = true.
Proof.
  intros Hline. unfold stripBullet.
  assert (Ht : allChars notNewline (trim line) = true
               /\ startsClean (trim line) = true /\ endsClean (trim line) = true).
  { unfold trim. split; [now apply trimEnd_allChars, trimStart_allChars|].
    split; [apply trimEnd_startsClean, trimStart_startsClean|apply trimEnd_endsClean]. }
  destruct Ht as [H1 [H2 H3]].
  assert (Hgen : forall t, allChars notNewline t = true -> startsClean t = true ->
                           endsClean t = true -> t = EmptyString \/ cleanEntry t = true).
  { intros t Ha Hb Hc. destruct t; [now left|right]. unfold cleanEntry.
    now rewrite Ha, Hb, Hc. }
  destruct (trim line) as [|c r] eqn:E; [now left|].
  assert (Hdash : forall r0, c = "-"%char -> r = r0 ->
            trimStart r0 = EmptyString \/ cleanEntry (trimStart r0) = true).
  { intros r0 -> <-. apply Hgen.
    - apply trimStart_allChars. simpl in H1. exact H1.
    - apply trimStart_startsClean.
    - apply trimStart_endsClean. destruct r; [reflexivity|exact H3]. }
  destruct c as [[] [] [] [] [] [] [] []]; try (apply Hgen; assumption).
  now apply Hdash.
Qed.

Lemma parseBullets_clean section : Forall (fun e => cleanEntry e = true) (parseBullets section).
Proof.
  unfold parseBullets. apply List.Forall_forall. intros e He.
  apply filter_In in He as [He Hne]. apply in_map_iff in He as [line [<- Hline]].
  pose proof (proj1 (List.Forall_forall _ _) (splitLines_oneLine (trim section)) line Hline)
    as Hone.
  destruct (stripBullet_clean line Hone) as [Hempty|Hclean]; [|exact Hclean].
  rewrite Hempty in Hne. discriminate.
Qed.

(** X12.  Whatever the answer of the model, every target element and every
    potential challenge of the parsed plan is one line, not empty and
    without white space at its ends, and the extraction strategy has no
    white space at its ends. *)
Theorem parsed_plan_entries_are_clean (responseText : string) :
  let plan := parseExtractionPlan responseText in
  Forall (fun e => cleanEntry e = true) (targetElements plan)
  /\ Forall (fun e => cleanEntry e = true) (potentialChallenges plan)
  /\ (forall strategy, extractionStrategy plan = Some strategy ->
        startsClean strategy = true /\ endsClean strategy = true).
Proof.
  simpl. unfold orEmpty. split; [|split].
  - destruct (sectionOf _ _ _); [apply parseBullets_clean|constructor].
  - destruct (sectionOf _ _ _); [apply parseBullets_clean|constructor].
  - intros strategy. destruct (sectionOf "extraction strategy" _ _); [|discriminate].
    simpl. intros [= <-]. unfold trim.
    split; [apply trimEnd_startsClean, trimStart_startsClean|apply trimEnd_endsClean].
Qed.

End PlanLines.

(* ===================================================================== *)
(** * The schema made from the key fields (planner-agent.js) *)
(* ===================================================================== *)

Module Schema.

Import Planner.

(** [{ selector, attribute?, transform? }] *)
Record FieldConfig : Type := mkFieldConfig {
  selector : option string;
  attribute : option string;
  transform : option string
}.

(** The [switch (field.type)] of [generateSchemaFromFields]. *)
Definition fieldConfigOf (fieldType : string) : FieldConfig :=
  if strIn fieldType ["number"; "integer"] then mkFieldConfig None None (Some "number")
  else if String.eqb fieldType "boolean" then mkFieldConfig None None (Some "boolean")
  else if strIn fieldType ["url"; "link"] then mkFieldConfig None (Some "href") (Some "url")
  else if String.eqb fieldType "image" then mkFieldConfig None (Some "src") None
  else mkFieldConfig None None (Some "trim").

(** A key under which an assignment [object[key] = value] makes a property
    of the object itself; [__proto__] names the prototype. *)
Definition ownKey (k : string) : bool := negb (String.eqb k "__proto__").

(** [schema[field.name] = fieldConfig] *)
Definition assign (schema : gmap string FieldConfig) (field : FieldDefinition)
  : gmap string FieldConfig :=
  if ownKey (name field) then <[name field := fieldConfigOf (type field)]> schema
  else schema.

(** [generateSchemaFromFields(fields)]: the properties of the schema. *)
Definition generateSchemaFromFields (fields : list FieldDefinition)
  : gmap string FieldConfig :=
  fold_left assign fields ∅.

End Schema.

Module SchemaFacts.

Import Planner Schema.

Lemma fold_assign_lookup fields schema k :
  fold_left assign fields schema !! k
  = match List.find (fun f => String.eqb (name f) k && ownKey k) (rev fields) with
    | Some f => Some (fieldConfigOf (type f))
    | None => schema !! k
    end.
Proof.
  revert schema. induction fields as [|f fields IH]; intros schema; simpl; [reflexivity|].
  rewrite IH, ValidatorFacts.find_snoc.
  destruct (List.find _ (rev fields)); [reflexivity|].
  unfold assign. destruct (String.eqb (name f) k) eqn:E; simpl.
  - apply String.eqb_eq in E. subst k. destruct (ownKey (name f)); [|reflexivity].
    now rewrite lookup_insert_eq.
  - apply String.eqb_neq in E. destruct (ownKey (name f)); [|reflexivity].
    now rewrite lookup_insert_ne.
Qed.


End SchemaFacts.

(* ===================================================================== *)
(** * The HTML that goes into a prompt *)
(* ===================================================================== *)

(** [htmlSample.length > max ? htmlSample.substring(0, max) + marker :
    htmlSample], as [createExtractionPlan] and [createMultiPagePlan] of the
    planner do with [opts.maxHtmlSampleLength] and as [attemptRecovery]
    does with 10000 and ['...']. *)
Module Truncation.

Definition truncated (max : nat) (marker htmlSample : string) : string :=
  if (max <? String.length htmlSample)%nat
  then (JsString.substring 0 max htmlSample ++ marker)%string
  else htmlSample.

(** The sample that [attemptRecovery] gives to its strategies. *)
Definition recoverySample (htmlSample : string) : string :=
  truncated (100 * 100) "..." htmlSample.

(** The sample that [createExtractionPlan] puts in its prompt. *)
Definition plannerSample (maxHtmlSampleLength : nat) (htmlSample : string) : string :=
  truncated maxHtmlSampleLength
    (String JsString.newline "<!-- HTML truncated for size limits -->") htmlSample.

End Truncation.

Module TruncationFacts.

Import JsString JsStringFacts Truncation.

Lemma take_length n s : String.length (take n s) = Nat.min n (String.length s).
Proof.
  revert s. induction n as [|n IH]; intros [|c s]; simpl; try reflexivity. now rewrite IH.
Qed.

Lemma take_drop n s : (take n s ++ drop n s)%string = s.
Proof.
  revert s. induction n as [|n IH]; intros [|c s]; simpl; try reflexivity.
  rewrite ?append_cons. now rewrite IH.
Qed.

Lemma substring_prefix max s :
  (max <= String.length s)%nat -> substring 0 max s = take max s.
Proof.
  intros H. unfold substring. simpl.
  replace (Nat.min max (String.length s)) with max by lia.
  now rewrite Nat.sub_0_r.
Qed.

(** X14.  The HTML sample that goes into a prompt is the sample itself when
    it has at most [max] characters; otherwise it is the first [max]
    characters of the sample followed by the marker, so it never has more
    than [max] characters of HTML. *)
Theorem truncated_sample_is_bounded (max : nat) (marker htmlSample : string) :
  ((String.length htmlSample <= max)%nat -> truncated max marker htmlSample = htmlSample)
  /\ ((max < String.length htmlSample)%nat ->
      exists head tail,
        htmlSample = (head ++ tail)%string
        /\ String.length head = max
        /\ truncated max marker htmlSample = (head ++ marker)%string)
  /\ (String.length (truncated max marker htmlSample)
      <= Nat.max (String.length htmlSample) (max + String.length marker))%nat.
Proof.
  unfold truncated. destruct (max <? String.length htmlSample)%nat eqn:E.
  - apply Nat.ltb_lt in E. rewrite (substring_prefix max htmlSample) by lia.
    split; [lia|]. split.
    + intros _. exists (take max htmlSample), (drop max htmlSample).
      split; [now rewrite take_drop|]. split; [rewrite take_length; lia|reflexivity].
    + rewrite length_app, take_length. lia.
  - apply Nat.ltb_ge in E. split; [reflexivity|]. split; [lia|lia].
Qed.

End TruncationFacts.

(* ===================================================================== *)
(** * The outcome of a recovery *)
(* ===================================================================== *)

Module RecoveryOutcome.

Import ErrorRecovery.

Lemma strIn_In s l : strIn s l = true <-> In s l.
Proof.
  unfold strIn. rewrite existsb_exists. split.
  - intros [x [Hx Heq]]. apply String.eqb_eq in Heq. now subst x.
  - intros H. exists s. split; [exact H|apply String.eqb_refl].
Qed.

Lemma NoDup_snoc_string (l : list string) (a : string) :
  List.NoDup l -> ~ In a l -> List.NoDup (l ++ [a]).
Proof.
  induction l as [|b l IH]; simpl; intros Hnd Ha.
  - apply List.NoDup_cons; [easy|apply List.NoDup_nil].
  - rewrite List.NoDup_cons_iff in Hnd. destruct Hnd as [Hb Hnd]. apply List.NoDup_cons.
    + rewrite in_app_iff. simpl. intros [H|[H|[]]]; [contradiction|]. apply Ha. now left.
    + apply IH; [exact Hnd|]. intros H. apply Ha. now right.
Qed.

(** The loop over the alternatives of one strategy: the selectors found
    stay distinct and come from the ones found before or from the
    alternatives; the flag is raised exactly when one more test succeeded,
    and then there is a selector. *)
Lemma testAlternatives_outcome page alternatives ok found log :
  List.NoDup found -> (ok = true -> found <> []) ->
  let '(ok', found', log') := testAlternatives page alternatives (ok, found, log) in
  List.NoDup found'
  /\ (ok' = true -> found' <> [])
  /\ (ok' = false -> ok = false /\ found' = found)
  /\ (forall s, In s found' -> In s found \/ In s alternatives)
  /\ List.length log' = List.length log + List.length alternatives.
Proof.
  revert ok found log.
  induction alternatives as [|a alternatives IH]; intros ok found log Hnd Hok.
  - simpl. repeat split; auto.
  - cbn [testAlternatives]. unfold testSelector.
    set (st := if verdict (page log a) then _ else _).
    assert (Hst : exists ok1 found1,
      st = (ok1, found1, log ++ [mkLiveTest a (page log a)])
      /\ List.NoDup found1 /\ (ok1 = true -> found1 <> [])
      /\ (ok1 = false -> ok = false /\ found1 = found)
      /\ (forall s, In s found1 -> In s found \/ s = a)).
    { unfold st. destruct (verdict (page log a)).
      - destruct (strIn a found) eqn:E.
        + exists true, found. repeat split; auto; try discriminate.
          intros _ Hnil. apply strIn_In in E. rewrite Hnil in E. destruct E.
        + exists true, (found ++ [a]). split; [reflexivity|]. split.
          * apply NoDup_snoc_string; [exact Hnd|]. intros H. apply strIn_In in H. congruence.
          * split; [intros _; now destruct found|]. split; [discriminate|].
            intros s Hs. apply in_app_iff in Hs as [Hs|[Hs|[]]]; auto.
      - exists ok, found. repeat split; auto. }
    destruct Hst as [ok1 [found1 [-> [Hnd1 [Hok1 [Hsame1 Hin1]]]]]].
    specialize (IH ok1 found1 (log ++ [mkLiveTest a (page log a)]) Hnd1 Hok1).
    destruct (testAlternatives page alternatives
                (ok1, found1, log ++ [mkLiveTest a (page log a)])) as [[ok' found'] log'].
    destruct IH as [H1 [H2 [H3 [H4 H5]]]].
    split; [exact H1|]. split; [exact H2|]. split.
    + intros Hf. destruct (H3 Hf) as [-> ->]. now apply Hsame1.
    + split.
      * intros s Hs. destruct (H4 s Hs) as [Hs1|Hs1]; [|right; now right].
        destruct (Hin1 s Hs1) as [Hs2| ->]; [now left|right; now left].
      * rewrite H5, length_app. simpl. lia.
Qed.

(** The strategies consulted are a prefix of the list: the loop leaves at
    the first one with a successful test. *)
Lemma tryStrategies_outcome page strategies log :
  let result := fst (tryStrategies page strategies [] log) in
  List.NoDup (alternativeSelectors result)
  /\ (recoverySuccessful result = true <-> alternativeSelectors result <> [])
  /\ (recoverySuccessful result = true <-> strategyUsed result <> None)
  /\ (recoverySuccessful result = true ->
      exists strategy log0 proposals,
        In strategy strategies
        /\ strategyUsed result = Some (strategy_name strategy)
        /\ propose strategy log0 = Ok (Some proposals)
        /\ forall s, In s (alternativeSelectors result) -> In s proposals).
Proof.
  revert log. induction strategies as [|strategy strategies IH]; intros log;
    cbn [tryStrategies].
  - simpl. split; [apply List.NoDup_nil|]. repeat split; try discriminate; try easy.
  - assert (Hnext : forall log1,
      let result := fst (tryStrategies page strategies [] log1) in
      List.NoDup (alternativeSelectors result)
      /\ (recoverySuccessful result = true <-> alternativeSelectors result <> [])
      /\ (recoverySuccessful result = true <-> strategyUsed result <> None)
      /\ (recoverySuccessful result = true ->
          exists strategy0 log0 proposals,
            In strategy0 (strategy :: strategies)
            /\ strategyUsed result = Some (strategy_name strategy0)
            /\ propose strategy0 log0 = Ok (Some proposals)
            /\ forall s, In s (alternativeSelectors result) -> In s proposals)).
    { intros log1. destruct (IH log1) as [H1 [H2 [H3 H4]]].
      split; [exact H1|]. split; [exact H2|]. split; [exact H3|].
      intros Hs. destruct (H4 Hs) as [s0 [l0 [p0 [Hin Hrest]]]].
      exists s0, l0, p0. split; [now right|exact Hrest]. }
    destruct (propose strategy log) as [[[|a alternatives]|]|m] eqn:Hp; try apply Hnext.
    pose proof (testAlternatives_outcome page (a :: alternatives) false [] log
                  (List.NoDup_nil _) ltac:(discriminate)) as Hout.
    destruct (testAlternatives page (a :: alternatives) (false, [], log))
      as [[ok found'] log'].
    destruct Hout as [H1 [H2 [H3 [H4 _]]]]. destruct ok.
    + simpl. split; [exact H1|]. split; [split; auto|]. split; [split; [discriminate|auto]|].
      intros _. exists strategy, log, (a :: alternatives).
      split; [now left|]. split; [reflexivity|]. split; [exact Hp|].
      intros s Hs. destruct (H4 s Hs) as [[]|Hs']. exact Hs'.
    + destruct (H3 eq_refl) as [_ ->]. apply Hnext.
Qed.

(** X15.  The result of [attemptRecovery] is consistent: recovery is
    successful exactly when there are alternative selectors, and exactly
    when a strategy is named; and no selector is listed twice. *)
Theorem recovery_succeeds_iff_it_has_selectors
    (page : ContentScript) (fallbackStrategies : list Strategy) :
  let result := fst (attemptRecovery page fallbackStrategies) in
  (recoverySuccessful result = true <-> alternativeSelectors result <> [])
  /\ (recoverySuccessful result = true <-> strategyUsed result <> None)
  /\ List.NoDup (alternativeSelectors result).
Proof.
  intros result.
  destruct (tryStrategies_outcome page fallbackStrategies []) as [H1 [H2 [H3 _]]].
  now split; [|split].
Qed.

(** X16.  When recovery succeeds, all the alternative selectors were
    proposed by one strategy of the agent, the one that the result names:
    the agent invents no selector and mixes no strategies. *)
Theorem recovered_selectors_come_from_one_strategy
    (page : ContentScript) (fallbackStrategies : list Strategy) :
  let result := fst (attemptRecovery page fallbackStrategies) in
  recoverySuccessful result = true ->
  exists strategy log proposals,
    In strategy fallbackStrategies
    /\ strategyUsed result = Some (strategy_name strategy)
    /\ propose strategy log = Ok (Some proposals)
    /\ forall s, In s (alternativeSelectors result) -> In s proposals.
Proof.
  intros result. now destruct (tryStrategies_outcome page fallbackStrategies []) as [_ [_ [_ H]]].
Qed.

Lemma recovered_selectors_come_from_one_strategy_witness :
  exists strategy log proposals,
    In strategy [RecoveryFacts.sampleStrategy]
    /\ strategyUsed (fst (attemptRecovery RecoveryFacts.samplePage [RecoveryFacts.sampleStrategy]))
       = Some (strategy_name strategy)
    /\ propose strategy log = Ok (Some proposals)
    /\ forall s,
         In s (alternativeSelectors
                 (fst (attemptRecovery RecoveryFacts.samplePage [RecoveryFacts.sampleStrategy]))) ->
         In s proposals.
Proof.
  apply (recovered_selectors_come_from_one_strategy RecoveryFacts.samplePage
           [RecoveryFacts.sampleStrategy]).
  reflexivity.
Defined.

End RecoveryOutcome.

(* ===================================================================== *)
(** * The strategy that asks the model (error-recovery-agent.js) *)
(* ===================================================================== *)

Module LLMStrategy.

Import JsString ErrorRecovery.

(** The first alternative of [/^```json\s*|```\s*$/g]: an opening fence at
    the start of the text. *)
Definition dropOpening (s : string) : string :=
  if startsWith "```json" s then trimStart (drop 7 s) else s.

(** The second alternative, from where the search goes on: the first place
    where a fence stands with only white space after it. *)
Fixpoint dropClosing (s : string) : string :=
  if startsWith "```" s && PlanLines.blank (drop 3 s) then EmptyString
  else match s with
       | EmptyString => EmptyString
       | String c r => String c (dropClosing r)
       end.

(** [response.replace(/^```json\s*|```\s*$/g, '').trim()] *)
Definition cleanedResponse (response : string) : string :=
  trim (dropClosing (dropOpening response)).

Definition isString (v : JsVal) : bool :=
  match v with
  | VStr _ => true
  | _ => false
  end.

Definition strings (items : list JsVal) : list string :=
  flat_map (fun v => match v with VStr s => [s] | _ => [] end) items.

(** [s => s.trim() !== ''] *)
Definition notBlank (s : string) : bool := nonEmpty (trim s).

(** [tryAlternativeSelectorsLLM(dataPoint, failedSelector, errorMessage,
    htmlSample)], given [JSON.parse] and what [this.llmBridge.query]
    resolved to or threw.  [replace] is a method of strings: on any other
    answer the call throws inside the inner [try], whose [catch] returns
    the empty array. *)
Definition tryAlternativeSelectorsLLM (JSON_parse : string -> Result JsVal)
    (response : Result JsVal) : list string :=
  match response with
  | Throw _ => []
  | Ok (VStr text) =>
      match JSON_parse (cleanedResponse text) with
      | Throw _ => []
      | Ok (VArr items) =>
          if forallb isString items then List.filter notBlank (strings items) else []
      | Ok _ => []
      end
  | Ok _ => []
  end.

(** The strategy as [attemptRecovery] calls it; the answer of the bridge
    may depend on what went before. *)
Definition llmStrategy (JSON_parse : string -> Result JsVal)
    (answer : list LiveTest -> Result JsVal) : Strategy :=
  mkStrategy "tryAlternativeSelectorsLLM"
    (fun log => Ok (Some (tryAlternativeSelectorsLLM JSON_parse (answer log)))).

End LLMStrategy.

Module LLMStrategyFacts.

Import JsString ErrorRecovery LLMStrategy.

(** X17.  [tryAlternativeSelectorsLLM] of error-recovery-agent.js proposes
    only selectors that are not blank, and it proposes none unless the
    bridge answered a string.  [LLMBridge.query] answers an object with
    the text in it: with such a bridge the agent, whose only strategy this
    is, tests no selector and never recovers. *)
Theorem llm_strategy_needs_a_string
    (JSON_parse : string -> Result JsVal) (answer : list LiveTest -> Result JsVal)
    (page : ContentScript)
    (Hobject : forall log text, answer log <> Ok (VStr text)) :
  (forall response,
     Forall (fun s => notBlank s = true) (tryAlternativeSelectorsLLM JSON_parse response))
  /\ (forall log, tryAlternativeSelectorsLLM JSON_parse (answer log) = [])
  /\ attemptRecovery page [llmStrategy JSON_parse answer] = (mkRecovery false [] None, []).
Proof.
  assert (Hnone : forall log, tryAlternativeSelectorsLLM JSON_parse (answer log) = []).
  { intros log. unfold tryAlternativeSelectorsLLM.
    destruct (answer log) as [[]|m] eqn:E; try reflexivity. now destruct (Hobject log s). }
  split; [|split; [exact Hnone|]].
  - intros response. unfold tryAlternativeSelectorsLLM.
    destruct response as [[]|m]; try apply List.Forall_nil.
    destruct (JSON_parse (cleanedResponse s)) as [[]|m]; try apply List.Forall_nil.
    destruct (forallb isString items); [|apply List.Forall_nil].
    apply List.Forall_forall. intros x Hx. now apply filter_In in Hx as [_ Hx].
  - unfold attemptRecovery. cbn [tryStrategies llmStrategy propose]. now rewrite Hnone.
Qed.

(** The response object of the bridge, with a perfect answer in it. *)
Definition objectAnswer : list LiveTest -> Result JsVal :=
  fun _ => Ok (VObj [("text", VStr "[ 'h1.title' ]"); ("provider", VStr "ollama")]).

Lemma llm_strategy_needs_a_string_witness :
  (forall response,
     Forall (fun s => notBlank s = true)
       (tryAlternativeSelectorsLLM (fun _ => Ok (VArr [VStr "h1.title"])) response))
  /\ (forall log,
        tryAlternativeSelectorsLLM (fun _ => Ok (VArr [VStr "h1.title"])) (objectAnswer log) = [])
  /\ attemptRecovery RecoveryFacts.samplePage
       [llmStrategy (fun _ => Ok (VArr [VStr "h1.title"])) objectAnswer]
     = (mkRecovery false [] None, []).
Proof.
  apply (llm_strategy_needs_a_string (fun _ => Ok (VArr [VStr "h1.title"])) objectAnswer
           RecoveryFacts.samplePage).
  intros log text. discriminate.
Defined.

(** What the strategy makes of a string: the fences go, the array of
    strings is read, the blank entries are dropped. *)
Example llm_strategy_on_a_string :
  cleanedResponse ("```json" ++ String newline ("[ 1 ]" ++ String newline "```  ")) = "[ 1 ]"
  /\ tryAlternativeSelectorsLLM (fun _ => Ok (VArr [VStr "h1.title"; VStr "  "; VStr "a"]))
       (Ok (VStr "text"))
     = ["h1.title"; "a"].
Proof. vm_compute. split; reflexivity. Qed.

End LLMStrategyFacts.

(* ===================================================================== *)
(** * The reply of the model to convertSelector (selector-agent.js) *)
(* ===================================================================== *)

Module ReplyCleaning.

Import JsString Selector Selector.JS PlanLines.

Definition notQuote (c : ascii) : bool := negb (isQuote c).

Lemma beforeFirstQuote_clean s : allChars notQuote (beforeFirstQuote s) = true.
Proof.
  induction s as [|c s IH]; [reflexivity|]. simpl.
  destruct (isQuote c) eqn:E; [reflexivity|]. simpl. unfold notQuote at 1. now rewrite E.
Qed.

Lemma beforeFirstQuote_fix s : allChars notQuote s = true -> beforeFirstQuote s = s.
Proof.
  induction s as [|c s IH]; [reflexivity|]. simpl. intros H.
  apply andb_true_iff in H as [Hc Hs]. unfold notQuote in Hc. apply negb_true_iff in Hc.
  now rewrite Hc, IH.
Qed.

Lemma afterFirstQuote_none s : allChars notQuote s = true -> afterFirstQuote s = None.
Proof.
  induction s as [|c s IH]; [reflexivity|]. simpl. intros H.
  apply andb_true_iff in H as [Hc Hs]. unfold notQuote in Hc. apply negb_true_iff in Hc.
  now rewrite Hc, IH.
Qed.

Lemma afterFirstQuote_app pre q rest :
  allChars notQuote pre = true -> isQuote q = true ->
  afterFirstQuote (pre ++ String q rest) = Some rest.
Proof.
  intros Hpre Hq. induction pre as [|c pre IH].
  - simpl. now rewrite Hq.
  - simpl in Hpre. apply andb_true_iff in Hpre as [Hc Hpre].
    unfold notQuote in Hc. apply negb_true_iff in Hc.
    rewrite JsStringFacts.append_cons. simpl. now rewrite Hc, IH.
Qed.

Lemma beforeFirstQuote_app inner q rest :
  allChars notQuote inner = true -> isQuote q = true ->
  beforeFirstQuote (inner ++ String q rest) = inner.
Proof.
  intros Hin Hq. induction inner as [|c inner IH].
  - simpl. now rewrite Hq.
  - simpl in Hin. apply andb_true_iff in Hin as [Hc Hin].
    unfold notQuote in Hc. apply negb_true_iff in Hc.
    rewrite JsStringFacts.append_cons. simpl. now rewrite Hc, IH.
Qed.

(** X18.  The selector that [convertSelector] of selector-agent.js takes
    from the reply holds no backtick and no quote.  It is the trimmed reply
    when that holds none, and otherwise what stands between the first
    backtick or quote and the next one; so of a selector that was not
    wrapped and has a quoted attribute value, only that value is left. *)
Theorem cleanReply_cuts_at_quotes (reply : string) :
  allChars notQuote (cleanReply reply) = true
  /\ (allChars notQuote (trim reply) = true -> cleanReply reply = trim reply)
  /\ (forall pre q inner q' post,
        trim reply = (pre ++ String q (inner ++ String q' post))%string ->
        allChars notQuote pre = true -> isQuote q = true ->
        allChars notQuote inner = true -> isQuote q' = true ->
        cleanReply reply = inner)
  /\ (forall pre q inner,
        trim reply = (pre ++ String q inner)%string ->
        allChars notQuote pre = true -> isQuote q = true ->
        allChars notQuote inner = true ->
        cleanReply reply = inner).
Proof.
  unfold cleanReply. split; [apply beforeFirstQuote_clean|]. split; [|split].
  - intros H. rewrite (afterFirstQuote_none _ H). simpl. now apply beforeFirstQuote_fix.
  - intros pre q inner q' post -> Hpre Hq Hin Hq'.
    rewrite (afterFirstQuote_app pre q _ Hpre Hq). simpl.
    now apply beforeFirstQuote_app.
  - intros pre q inner -> Hpre Hq Hin.
    rewrite (afterFirstQuote_app pre q _ Hpre Hq). simpl.
    now apply beforeFirstQuote_fix.
Qed.

(** A reply that is the selector itself, not wrapped. *)
Example cleanReply_of_attribute_selector :
  cleanReply ("a[href=" ++ dq ++ "/next" ++ dq ++ "]") = "/next"
  /\ cleanReply "`//a[@id='x']`" = "//a[@id=".
Proof. vm_compute. split; reflexivity. Qed.

End ReplyCleaning.

(* ===================================================================== *)
(** * The request that does not get its page, and the one that succeeds *)
(* ===================================================================== *)

Module PipelineFacts.

Import Orchestrator OrchestratorFacts.

(** Why [fetchHtmlSample] fails on an answer of the offscreen document, if
    it does: the message of the error it throws, before the prefix. *)
Definition fetchFailure (answer : Result (option OffscreenResponse)) : option string :=
  match answer with
  | Throw m => Some m
  | Ok None => Some "Offscreen document failed to fetch or return HTML content."
  | Ok (Some resp) =>
      match off_success resp, off_htmlContent resp with
      | true, Some _ => None
      | _, _ =>
          Some (if truthyStr (off_error resp) then default EmptyString (off_error resp)
                else "Offscreen document failed to fetch or return HTML content.")
      end
  end.

Lemma fetchHtmlSample_fails {W : Type} prefix
    (send : W -> string -> Result (option OffscreenResponse) * W) url w answer w1 reason :
  send w url = (answer, w1) -> fetchFailure answer = Some reason ->
  fetchHtmlSample prefix send url w = (Throw (prefix +:+ reason), w1).
Proof.
  intros Hsend Hfail. unfold fetchHtmlSample. rewrite Hsend.
  destruct answer as [[resp|]|m]; simpl in *.
  - destruct (off_success resp), (off_htmlContent resp); try discriminate;
      now injection Hfail as <-.
  - now injection Hfail as <-.
  - now injection Hfail as <-.
Qed.

(** X19.  When the offscreen document does not deliver the HTML of the
    page (it throws, answers nothing, answers without success or without
    [htmlContent]), [processRequest] returns a failure that depends on that
    answer alone: no plan, no selectors, no data, and the one issue of the
    orchestration, whose message is that of the offscreen document, or a
    default, after the prefix of [fetchHtmlSample]. *)
Theorem processRequest_without_page
    (W : Type) (w w1 : W) (jsAgents : JS.Agents W) (tsAgents : TS.Agents W)
    (instruction targetUrl reason : string) (tabId : Z) (tab : option Z)
    (answer : Result (option OffscreenResponse))
    (Hreason : fetchFailure answer = Some reason) :
  (JS.sendMessageToOffscreen jsAgents w targetUrl = (answer, w1) ->
   JS.processRequest jsAgents instruction targetUrl tabId w
   = (mkOrchestration false
        (Some ("Orchestration failed: "
               +:+ "Failed to fetch page content for planning/extraction: " +:+ reason))
        None ∅ ∅
        [entryJS ("Failed to fetch page content for planning/extraction: " +:+ reason)], w1))
  /\ (TS.sendMessageToOffscreen tsAgents w targetUrl = (answer, w1) ->
      TS.processRequest tsAgents instruction targetUrl tab w
      = (mkOrchestration false
           (Some ("Orchestration failed: " +:+ "Failed to fetch page content: " +:+ reason))
           None ∅ ∅ [entryTS ("Failed to fetch page content: " +:+ reason)], w1)).
Proof.
  split; intros Hsend.
  - unfold JS.processRequest, tryBlock, JS.block, bind, await. simpl.
    now rewrite (fetchHtmlSample_fails _ _ _ _ _ _ _ Hsend Hreason).
  - unfold TS.processRequest, tryBlock, TS.block, bind, await. simpl.
    now rewrite (fetchHtmlSample_fails _ _ _ _ _ _ _ Hsend Hreason).
Qed.

(** Agents whose offscreen document reports an error. *)
Definition pageDown : JS.Agents unit :=
  JS.mkAgents unit
    (fun w _ => (Ok (Some (mkOffscreen false None (Some "net::ERR_FAILED"))), w))
    (fun w _ _ _ => (Ok None, w))
    (fun w p _ => (Ok p, w))
    (fun w _ _ => (Ok (JS.mkExtraction ∅ []), w))
    (fun w _ _ _ _ _ => (Ok (JS.mkRecovery false []), w))
    (fun w _ => (Ok (JS.mkDetails None None), w))
    (fun w _ _ => (Ok None, w))
    (fun w _ _ => (Ok (∅, []), w)).

Definition pageDownTS : TS.Agents unit :=
  TS.mkAgents unit
    (fun w _ => (Ok (Some (mkOffscreen false None (Some "net::ERR_FAILED"))), w))
    (fun w _ _ _ => (Throw "not reached", w))
    (fun w _ _ => (Ok (TS.mkSelectorResult true ["h1"] [] None), w))
    (fun w _ _ => (Ok tt, w))
    (fun w _ => (Ok tt, w))
    (fun w _ _ _ => (Ok (∅, []), w)).

Lemma processRequest_without_page_witness :
  (JS.sendMessageToOffscreen pageDown tt "https://x.com"
   = (Ok (Some (mkOffscreen false None (Some "net::ERR_FAILED"))), tt) ->
   JS.processRequest pageDown "extract the title" "https://x.com" 1%Z tt
   = (mkOrchestration false
        (Some ("Orchestration failed: "
               +:+ "Failed to fetch page content for planning/extraction: "
               +:+ "net::ERR_FAILED"))
        None ∅ ∅
        [entryJS ("Failed to fetch page content for planning/extraction: "
                  +:+ "net::ERR_FAILED")], tt))
  /\ (TS.sendMessageToOffscreen pageDownTS tt "https://x.com"
      = (Ok (Some (mkOffscreen false None (Some "net::ERR_FAILED"))), tt) ->
      TS.processRequest pageDownTS "extract the title" "https://x.com" (Some 1%Z) tt
      = (mkOrchestration false
           (Some ("Orchestration failed: " +:+ "Failed to fetch page content: "
                  +:+ "net::ERR_FAILED"))
           None ∅ ∅ [entryTS ("Failed to fetch page content: " +:+ "net::ERR_FAILED")], tt)).
Proof.
  apply (processRequest_without_page unit tt tt pageDown pageDownTS "extract the title"
           "https://x.com" "net::ERR_FAILED" 1%Z (Some 1%Z)
           (Ok (Some (mkOffscreen false None (Some "net::ERR_FAILED"))))).
  reflexivity.
Defined.

(* --------------------------------------------------------------------- *)
(** ** The statements of the block, one by one *)
(* --------------------------------------------------------------------- *)

Section Steps.

Context {PlanT W : Type}.

Lemma bind_ok {A B : Type} (m : Step PlanT W A) (k : A -> Step PlanT W B) s r s' :
  bind m k s = (Ok r, s') -> exists a s1, m s = (Ok a, s1) /\ k a s1 = (Ok r, s').
Proof.
  unfold bind. destruct (m s) as [[a|e] s1]; [eauto|discriminate].
Qed.

(** A statement that leaves the plan and the raw data as they are. *)
Definition steady {A : Type} (m : Step PlanT W A) : Prop :=
  forall s r s', m s = (r, s') ->
    v_plan (fst s') = v_plan (fst s) /\ v_rawData (fst s') = v_rawData (fst s).

Lemma steady_ret {A : Type} (a : A) : steady (ret a).
Proof. intros s r s' [= <- <-]. now split. Qed.

Lemma steady_await {A : Type} (call : W -> Result A * W) : steady (await call).
Proof.
  intros s r s'. unfold await. destruct (call (snd s)) as [r0 w0]. intros [= <- <-]. now split.
Qed.

Lemma steady_getVars : steady (@getVars PlanT W).
Proof. intros s r s' [= <- <-]. now split. Qed.

Lemma steady_setVars (f : Vars PlanT -> Vars PlanT) :
  (forall v, v_plan (f v) = v_plan v /\ v_rawData (f v) = v_rawData v) ->
  steady (setVars (W := W) f).
Proof. intros Hf s r s' [= <- <-]. apply Hf. Qed.

Lemma steady_bind {A B : Type} (m : Step PlanT W A) (k : A -> Step PlanT W B) :
  steady m -> (forall a, steady (k a)) -> steady (bind m k).
Proof.
  intros Hm Hk s r s'. unfold bind. destruct (m s) as [[a|e] s1] eqn:E.
  - intros H. destruct (Hm _ _ _ E) as [H1 H2]. destruct (Hk a _ _ _ H) as [H3 H4].
    split; congruence.
  - intros [= <- <-]. exact (Hm _ _ _ E).
Qed.

Lemma steady_tryCatch {A : Type} (body : Step PlanT W A) (handler : string -> Step PlanT W A) :
  steady body -> (forall e, steady (handler e)) -> steady (tryCatch body handler).
Proof.
  intros Hb Hh s r s'. unfold tryCatch. destruct (body s) as [[a|e] s1] eqn:E.
  - intros [= <- <-]. exact (Hb _ _ _ E).
  - intros H. destruct (Hb _ _ _ E) as [H1 H2]. destruct (Hh e _ _ _ H) as [H3 H4].
    split; congruence.
Qed.

Lemma steady_forEach {A : Type} (xs : list A) (body : A -> Step PlanT W unit) :
  (forall x, steady (body x)) -> steady (forEach xs body).
Proof.
  intros Hbody. induction xs as [|x xs IH]; simpl.
  - apply steady_ret.
  - apply steady_bind; [apply Hbody|intros _; exact IH].
Qed.

End Steps.

Section Success.

Context {W : Type} (agents : TS.Agents W).

Lemma steady_highlight tab sel : steady (TS.highlight agents tab sel).
Proof.
  unfold TS.highlight. destruct tab; [|apply steady_ret].
  apply steady_tryCatch; [apply steady_await|intros e; apply steady_ret].
Qed.

Lemma steady_selectAll html fields : steady (TS.selectAll agents html fields).
Proof.
  induction fields as [|field fields IH]; simpl; [apply steady_ret|].
  apply steady_bind; [apply steady_await|]. intros sr.
  apply steady_bind; [exact IH|]. intros rest. apply steady_ret.
Qed.

Lemma steady_recordResult fsr : steady (W := W) (TS.recordResult fsr).
Proof.
  unfold TS.recordResult. destruct (TS.sr_success (snd fsr)); apply steady_setVars;
    intros v; now split.
Qed.

Lemma steady_highlightField tab field : steady (TS.highlightField agents tab field).
Proof.
  unfold TS.highlightField. apply steady_bind; [apply steady_getVars|]. intros v.
  destruct (v_finalSelectors v !! Planner.name field) as [[sel|]|];
    try apply steady_ret. apply steady_highlight.
Qed.

(** X20.  When [processRequest] of orchestrator.ts reports success, the
    plan it returns is a successful plan with at least one key field; the
    validator was given an empty object as raw data, since the data of the
    extractor is never taken over; and the issues hold the entry of type
    ['extraction'] that says so, before the validation issues: a success
    never comes without issues. *)
Theorem processRequest_success_has_no_extracted_data
    (instruction targetUrl : string) (tab : option Z) (w w' : W) (result : OrchestrationResult TS.Plan)
    (Hrun : TS.processRequest agents instruction targetUrl tab w = (result, w'))
    (Hsuccess : success result = true) :
  exists plan wv validated validationIssues selectionIssues,
    Orchestrator.plan result = Some plan
    /\ Planner.success plan = true
    /\ Planner.keyFields plan <> []
    /\ TS.validateData agents wv ∅ plan targetUrl = (Ok (validated, validationIssues), w')
    /\ data result = validated
    /\ issues result
       = selectionIssues ++ [TS.extractionIssue] ++ List.map tagValidation validationIssues
    /\ res_error result = None.
Proof.
  unfold TS.processRequest, tryBlock in Hrun.
  destruct (TS.block agents instruction targetUrl tab (initialVars, w))
    as [[res|msg] [vend wend]] eqn:Hb.
  2:{ injection Hrun as <- <-. discriminate. }
  injection Hrun as <- <-. unfold TS.block in Hb.
  apply bind_ok in Hb as (html & s1 & H1 & Hb).
  apply bind_ok in Hb as ([] & s2 & H2 & Hb).
  apply bind_ok in Hb as (pl & s3 & H3 & Hb).
  apply bind_ok in Hb as ([] & s4 & H4 & Hb).
  destruct (negb (Planner.success pl) || (List.length (Planner.keyFields pl) =? 0)%nat)
    eqn:Hguard; [discriminate|].
  apply orb_false_iff in Hguard as [Hok Hfields].
  apply negb_false_iff in Hok. apply Nat.eqb_neq in Hfields.
  apply bind_ok in Hb as (fsr & s5 & H5 & Hb).
  apply bind_ok in Hb as ([] & s6 & H6 & Hb).
  apply bind_ok in Hb as ([] & s7 & H7 & Hb).
  apply bind_ok in Hb as ([] & s8 & H8 & Hb).
  apply bind_ok in Hb as ([] & s9 & H9 & Hb).
  apply bind_ok in Hb as (v & s10 & H10 & Hb).
  apply bind_ok in Hb as (vr & s11 & H11 & Hb).
  apply bind_ok in Hb as ([] & s12 & H12 & Hb).
  apply bind_ok in Hb as (v' & s13 & H13 & Hb).
  (* the variables when the plan has been stored *)
  assert (Hs4 : v_plan (fst s4) = Some pl /\ v_rawData (fst s4) = ∅).
  { destruct (steady_await _ _ _ _ H1) as [_ R1].
    injection H2 as <-. destruct (steady_await _ _ _ _ H3) as [_ R3].
    injection H4 as <-. simpl in *. split; [reflexivity|]. now rewrite R3, R1. }
  assert (Hs8 : v_plan (fst s8) = Some pl /\ v_rawData (fst s8) = ∅).
  { destruct Hs4 as [P4 R4].
    destruct (steady_selectAll _ _ _ _ _ H5) as [P5 R5].
    destruct (steady_forEach _ _ steady_recordResult _ _ _ H6) as [P6 R6].
    assert (Hhl : steady (match tab with
                          | Some _ => bind (TS.highlight agents tab None)
                                        (fun _ => forEach (Planner.keyFields pl)
                                                    (TS.highlightField agents tab))
                          | None => ret tt
                          end)).
    { destruct tab; [|apply steady_ret].
      apply steady_bind; [apply steady_highlight|]. intros _.
      apply steady_forEach, steady_highlightField. }
    destruct (Hhl _ _ _ H7) as [P7 R7].
    destruct (steady_await _ _ _ _ H8) as [P8 R8].
    split; congruence. }
  destruct Hs8 as [P8 R8].
  injection H9 as <-. injection H10 as <- <-.
  unfold await in H11. simpl in H11.
  destruct (TS.validateData agents (snd s8) (v_rawData (fst s8)) pl targetUrl)
    as [rv wv'] eqn:Hv.
  injection H11 as -> <-. injection H12 as <-. injection H13 as <- <-.
  injection Hb as <- _ <-. cbn.
  exists pl, (snd s8), (fst vr), (snd vr), (v_extractionErrors (fst s8)).
  rewrite R8 in Hv. rewrite P8. destruct vr as [validated vissues]. cbn.
  repeat split; try assumption.
  - intros Hnil. rewrite Hnil in Hfields. now apply Hfields.
  - now rewrite <- app_assoc.
Qed.

End Success.

(** Agents of orchestrator.ts that all answer. *)
Definition allWell : TS.Agents unit :=
  TS.mkAgents unit
    (fun w _ => (Ok (Some (mkOffscreen true (Some "<h1>Hello</h1>") None)), w))
    (fun w _ _ _ =>
       (Ok (Planner.mkPlan true None [Planner.mkField "title" "string"] ["h1"] None []), w))
    (fun w _ _ => (Ok (TS.mkSelectorResult true ["h1"] [] None), w))
    (fun w _ _ => (Ok tt, w))
    (fun w _ => (Ok tt, w))
    (fun w raw _ _ => (Ok (raw, []), w)).

Lemma processRequest_success_has_no_extracted_data_witness :
  exists plan wv validated validationIssues selectionIssues,
    Orchestrator.plan
      (fst (TS.processRequest allWell "extract the title" "https://x.com" (Some 1%Z) tt))
    = Some plan
    /\ Planner.success plan = true
    /\ Planner.keyFields plan <> []
    /\ TS.validateData allWell wv ∅ plan "https://x.com" = (Ok (validated, validationIssues), tt)
    /\ data (fst (TS.processRequest allWell "extract the title" "https://x.com" (Some 1%Z) tt))
       = validated
    /\ issues (fst (TS.processRequest allWell "extract the title" "https://x.com" (Some 1%Z) tt))
       = selectionIssues ++ [TS.extractionIssue] ++ List.map tagValidation validationIssues
    /\ res_error
         (fst (TS.processRequest allWell "extract the title" "https://x.com" (Some 1%Z) tt))
       = None.
Proof.
  apply (processRequest_success_has_no_extracted_data allWell "extract the title"
           "https://x.com" (Some 1%Z) tt tt); reflexivity.
Defined.

End PipelineFacts.
